(** * WinPM: a shallow embedding of [winpm.py]

    The package manager keeps all of its state in files below one
    application-data directory: a configuration file, the registry of
    installed packages, cached repository manifests, a download cache, the
    per-package install directories and the command shims.  The embedding
    models the disk as a finite map from paths to nodes, the methods of
    class [WinPM] as computations in a state-and-exception monad over it,
    and the outside world (HTTP transport, zip extraction, the wall clock,
    SHA-256) as an environment of oracles indexed by a logical clock.

    Conventions of the model:
    - a Python [dict] is an association list in insertion order;
    - JSON documents are modelled at the shapes the program reads and
      writes (configuration, registry, manifest, with the keys that the
      program reads through [.get] optional); a file that does not hold
      the expected document makes its reader raise;
    - a path is the list of its components.  A file name that the program
      builds from a package name, a repository name or a version is kept
      as one component: this is what [pathlib] and the file system do
      with it when these strings are [plain] (made of letters, digits and
      the characters of [._+-]); other strings [pathlib] would split at
      their separators.  The properties of runs that write such files
      state this of the strings they are given.  Names that differ are
      different files;
    - what the program prints is kept, one constructor per [print];
    - [install_package] is recursive through the dependencies and gets a
      recursion budget; a run that exhausts every budget recurses without
      bound (the interpreter ends such a run with [RecursionError] when
      its recursion limit is reached).

    The first part defines the model, the second part states and proves
    its properties, numbered C1 to C10 after the claims of the
    specification they settle, and X1 to X23 for further properties of
    the code. *)

From stdpp Require Import base option list strings sorting gmap fin_maps.

Open Scope string_scope.

(** ** Python dictionaries: association lists in insertion order *)

Module Dict.

Abbreviation dict A := (list (string * A)).

Section Ops.
Context {A : Type}.

(** [d.get(k)] *)
Fixpoint get (k : string) (d : dict A) : option A :=
  match d with
  | [] => None
  | (k', v) :: d' => if String.eqb k k' then Some v else get k d'
  end.

(** [k in d] *)
Definition mem (k : string) (d : dict A) : bool :=
  match get k d with Some _ => true | None => false end.

(** [d[k] = v]: an existing key keeps its position, a new key goes last. *)
Fixpoint set (k : string) (v : A) (d : dict A) : dict A :=
  match d with
  | [] => [(k, v)]
  | (k', v') :: d' =>
      if String.eqb k k' then (k', v) :: d' else (k', v') :: set k v d'
  end.

(** [del d[k]] (the caller has checked [k in d]) *)
Definition del (k : string) (d : dict A) : dict A :=
  List.filter (fun kv => negb (String.eqb k (fst kv))) d.

(** iteration over the keys, [for k in d] *)
Definition keys (d : dict A) : list string := List.map fst d.

End Ops.

End Dict.

Import Dict.

(** ** Documents *)

(** An entry of [config['repositories']]. *)
Record RepoInfo := mkRepoInfo {
  repo_url : string;
  repo_priority : Z
}.

Record Settings := mkSettings {
  auto_update_repos : bool;
  show_verbose_output : bool;
  default_repository : string;
  download_timeout : Z;
  max_parallel_downloads : Z
}.

Record Config := mkConfig {
  repositories : dict RepoInfo;
  settings : Settings
}.

(** A package descriptor of a manifest.  Every key is optional in the JSON
    object; the program reads most of them with [.get] and a default.
    [pi_repository] is the key that [find_package] adds. *)
Record PackageInfo := mkPackageInfo {
  pi_version : option string;
  pi_url : option string;
  pi_executable : option string;
  pi_dependencies : option (list string);
  pi_description : option string;
  pi_repository : option string
}.

(** A cached repository manifest: the object under its ["packages"] key. *)
Record Manifest := mkManifest {
  m_packages : dict PackageInfo
}.

(** A registry entry, as [install_package] builds it (lines 218-225). *)
Record InstalledPackage := mkInstalled {
  ip_version : string;
  ip_path : list string;
  ip_executable : string;
  ip_repository : string;
  ip_install_date : string;
  ip_hash : string
}.

(** ** The file system *)

Abbreviation path := (list string).

Inductive content :=
| Raw (bytes : string)                         (* archives and anything else *)
| ConfigDoc (c : Config)                       (* config.json *)
| RegistryDoc (r : dict InstalledPackage)      (* packages.json *)
| ManifestDoc (m : Manifest)                   (* repositories/<name>.json *)
| ShimDoc (actual_exe : path).                 (* shims/<name>.bat *)

Inductive node :=
| File (c : content)
| Dir.

(** What the program prints, one constructor per [print] call. *)
Inductive msg :=
| MsgAlreadyInstalled (package_name : string)
| MsgNotFoundInAnyRepository (package_name : string)
| MsgNotFound (package_name : string)
| MsgWarningDependencyNotFound (dep : string)
| MsgInstallingDependency (dep : string)
| MsgInstalling (package_name version : string)
| MsgDownloading (downloaded total_size : nat)
| MsgNewline
| MsgDownloadFailed
| MsgFailedToExtract
| MsgShimCreated (shim_file : path)
| MsgInstalled (package_name version : string)
| MsgNotInstalled (package_name : string)
| MsgUninstalled (package_name : string)
| MsgUpdating (package_name : string)
| MsgCheckingForUpdates
| MsgUpdateAvailable (pkg_name current_version available_version : string)
| MsgCleaningUpCache
| MsgCacheCleaned
| MsgRepositoryExists (repo_name : string)
| MsgRepositoryAdded (repo_name : string)
| MsgRepositoryAddFailed
| MsgRepositoryNotFound (repo_name : string)
| MsgRepositoryRemoved (repo_name : string).

(** The exceptions that escape the modelled methods. *)
Inductive exn :=
| TypeError                       (* subscripting [None] *)
| KeyError (key : string)
| FileNotFoundError (p : path)
| FileExistsError (p : path)
| NotADirectoryError (p : path)
| PermissionError (p : path)      (* opening or unlinking a directory *)
| JSONDecodeError (p : path)      (* a file that does not hold the expected document *)
| RequestException                (* a failed HTTP request *)
| ValueError.                     (* [int] of a string that is not an integer *)

(** ** The outside world *)

(** The answer of [requests.get(url, stream=True)] followed by the read of
    the body: either the request fails before any byte arrives, or a body
    of [chunks] arrives, announced with [content_length], and the stream
    then ends normally ([complete]) or with a transport error.
    [content_length] is the [content-length] header read as an integer, 0
    when the header is missing or not positive; [HttpBadLength] is a
    response whose header is not an integer, on which [int] raises
    (line 91). *)
Inductive http_response :=
| HttpError
| HttpBadLength
| HttpStream (content_length : nat) (chunks : list string) (complete : bool).

(** The answer to the request for a manifest: the request fails, or its
    body is not a JSON document, or it is a manifest. *)
Inductive manifest_response :=
| ManifestError
| ManifestInvalid
| ManifestOk (m : Manifest).

Record world := mkWorld {
  (** [self.base_dir] *)
  base_dir : path;
  (** [requests.get(url, stream=True, timeout=t)] at a given time *)
  http_get : nat -> string -> Z -> http_response;
  (** [requests.get(url, timeout=10)] of a manifest at a given time *)
  http_get_manifest : nat -> string -> manifest_response;
  (** [zipfile.ZipFile(...).extractall(dest)]: the members written, relative
      to [dest], and whether extraction ran to its end *)
  extractall : nat -> string -> list (path * node) * bool;
  (** [datetime.now().isoformat()] *)
  now : nat -> string;
  (** [hashlib.sha256(...).hexdigest()] *)
  sha256 : string -> string;
  (** [urljoin(base, name)] *)
  urljoin : string -> string -> string
}.

(** ** The state of a run and the monad of the methods *)

Record state := mkState {
  config : Config;            (* self.config, loaded once by __init__ *)
  fs : gmap path node;        (* the disk *)
  out : list msg;             (* standard output, oldest line first *)
  clock : nat                 (* number of interactions with the world so far *)
}.

Inductive res (A : Type) :=
| Ret (a : A) (s : state)     (* normal return *)
| Raise (e : exn) (s : state) (* an exception propagates to the caller *)
| Diverge.                    (* the recursion budget is exhausted *)

Arguments Ret {A} a s.
Arguments Raise {A} e s.
Arguments Diverge {A}.

Definition M (A : Type) : Type := state -> res A.

Definition ret {A} (a : A) : M A := fun s => Ret a s.

Definition bind {A B} (m : M A) (f : A -> M B) : M B :=
  fun s =>
    match m s with
    | Ret a s' => f a s'
    | Raise e s' => Raise e s'
    | Diverge => Diverge
    end.

Declare Scope monad_scope.
Delimit Scope monad_scope with M.
Notation "x <- m ;; k" := (bind m (fun x => k))
  (at level 100, m at next level, right associativity) : monad_scope.
Notation "m ;; k" := (bind m (fun _ => k))
  (at level 100, right associativity) : monad_scope.
Open Scope monad_scope.

Definition raise {A} (e : exn) : M A := fun s => Raise e s.
Definition diverge {A} : M A := fun _ => Diverge.
Definition gets {A} (f : state -> A) : M A := fun s => Ret (f s) s.
Definition modify (f : state -> state) : M unit := fun s => Ret tt (f s).

Definition set_fs (f : gmap path node -> gmap path node) (s : state) : state :=
  mkState (config s) (f (fs s)) (out s) (clock s).
Definition set_config (f : Config -> Config) (s : state) : state :=
  mkState (f (config s)) (fs s) (out s) (clock s).

Definition print (m : msg) : M unit :=
  modify (fun s => mkState (config s) (fs s) (out s ++ [m])%list (clock s)).

(** Reads the clock and advances it: one interaction with the world. *)
Definition tick : M nat :=
  fun s => Ret (clock s) (mkState (config s) (fs s) (out s) (S (clock s))).

(** [for x in l: body(x)] *)
Fixpoint for_each {A} (l : list A) (body : A -> M unit) : M unit :=
  match l with
  | [] => ret tt
  | x :: l' => body x ;; for_each l' body
  end.

(** ** Path operations *)

(** [p / name] *)
Definition child (p : path) (name : string) : path := (p ++ [name])%list.
Infix "</>" := child (at level 40, left associativity).

Definition parent (p : path) : path := removelast p.

(** *** File names

    [pathlib] splits a string that is joined to a path at the separators,
    and the file system gives a meaning of its own to [.], to [..] and to
    characters such as [:].  None of this happens to a name made of the
    characters below. *)
Definition name_alphabet : string :=
  "ABCDEFGHIJKLMNOPQRSTUVWXYZabcdefghijklmnopqrstuvwxyz0123456789._+-".

Fixpoint occurs (c : Ascii.ascii) (s : string) : bool :=
  match s with
  | EmptyString => false
  | String d s' => Ascii.eqb c d || occurs c s'
  end.

(** [s] holds characters of file names only: joined to other such strings
    it stays within one component. *)
Fixpoint plain (s : string) : bool :=
  match s with
  | EmptyString => true
  | String c s' => occurs c name_alphabet && plain s'
  end.

Fixpoint ends_in_dot (s : string) : bool :=
  match s with
  | EmptyString => false
  | String c EmptyString => String.eqb (String c EmptyString) "."
  | String _ s' => ends_in_dot s'
  end.

(** [p / s] is the entry named [s] of the directory [p]: [s] is plain, not
    empty, and does not end in a dot (so that it is neither [.] nor
    [..]). *)
Definition component (s : string) : bool :=
  plain s && negb (String.eqb s "") && negb (ends_in_dot s).

(** The root is a directory; anything else is what the map says. *)
Definition is_dir (m : gmap path node) (p : path) : bool :=
  match p with
  | [] => true
  | _ => match m !! p with Some Dir => true | _ => false end
  end.

(** [p.is_file()] *)
Definition is_file (m : gmap path node) (p : path) : bool :=
  match m !! p with Some (File _) => true | _ => false end.

(** [p.exists()] *)
Definition path_exists (p : path) : M bool :=
  gets (fun s => match fs s !! p with Some _ => true | None => is_dir (fs s) p end).

(** [p.mkdir(exist_ok=True)]: fine on an existing directory, an error on an
    existing file or when the parent is not a directory. *)
Definition mkdir_exist_ok (p : path) : M unit :=
  fun s =>
    if is_dir (fs s) p then Ret tt s
    else match fs s !! p with
         | Some _ => Raise (FileExistsError p) s
         | None =>
             if is_dir (fs s) (parent p)
             then Ret tt (set_fs (insert p Dir) s)
             else Raise (FileNotFoundError p) s
         end.

(** [with open(p, 'w') as f: f.write(c)]: creates or truncates the file. *)
Definition write_file (p : path) (c : content) : M unit :=
  fun s =>
    if is_dir (fs s) p then Raise (PermissionError p) s
    else if is_dir (fs s) (parent p)
         then Ret tt (set_fs (insert p (File c)) s)
         else Raise (FileNotFoundError p) s.

(** [with open(p, 'r') as f: f.read()] *)
Definition read_file (p : path) : M content :=
  fun s =>
    match fs s !! p with
    | Some (File c) => Ret c s
    | Some Dir => Raise (PermissionError p) s
    | None => if is_dir (fs s) p then Raise (PermissionError p) s
              else Raise (FileNotFoundError p) s
    end.

(** [p.unlink()] *)
Definition unlink (p : path) : M unit :=
  fun s =>
    match fs s !! p with
    | Some (File _) => Ret tt (set_fs (delete p) s)
    | Some Dir => Raise (PermissionError p) s
    | None => if is_dir (fs s) p then Raise (PermissionError p) s
              else Raise (FileNotFoundError p) s
    end.

(** [shutil.rmtree(p)]: removes the directory and everything below it. *)
Definition rmtree (p : path) : M unit :=
  fun s =>
    match fs s !! p with
    | Some Dir => Ret tt (set_fs (filter (fun kv => ~ p `prefix_of` kv.1)) s)
    | Some (File _) => Raise (NotADirectoryError p) s
    | None => if is_dir (fs s) p
              then Ret tt (set_fs (filter (fun kv => ~ p `prefix_of` kv.1)) s)
              else Raise (FileNotFoundError p) s
    end.

(** [p.iterdir()]: the entries directly in directory [p]. *)
Definition iterdir (p : path) : M (list path) :=
  fun s =>
    if is_dir (fs s) p
    then Ret (List.filter (fun q => bool_decide (q <> [] /\ parent q = p))
                          (map_to_list (fs s)).*1) s
    else Raise (FileNotFoundError p) s.

(** The truth value of an optional string argument: [None] and the empty
    string are falsy. *)
Definition nonempty (o : option string) : option string :=
  match o with
  | Some v => if String.eqb v "" then None else Some v
  | None => None
  end.

(** [try: m except Exception: h] *)
Definition try_except {A} (m : M A) (h : exn -> M A) : M A :=
  fun s =>
    match m s with
    | Raise e s' => h e s'
    | r => r
    end.

(** ** The methods of class [WinPM] *)

Section WinPM.

Context (W : world).

(** The paths fixed by [__init__] (lines 20-25). *)
Definition config_file : path := base_dir W </> "config.json".
Definition packages_file : path := base_dir W </> "packages.json".
Definition install_dir : path := base_dir W </> "packages".
Definition cache_dir : path := base_dir W </> "cache".
Definition repos_dir : path := base_dir W </> "repositories".
Definition shim_dir : path := base_dir W </> "shims".

(** The cached manifest of a repository and the shim of a package
    (lines 130 and 256).  The name is [repo_name + ".json"], or
    [package_name + ".bat"]: one component when the name is [plain]. *)
Definition repo_file (repo_name : string) : path :=
  repos_dir </> (repo_name ++ ".json").
Definition shim_file (package_name : string) : path :=
  shim_dir </> (package_name ++ ".bat").

Definition default_config : Config :=
  mkConfig
    [("main", mkRepoInfo "https://raw.githubusercontent.com/your-username/winpm-main/main/" 1);
     ("extras", mkRepoInfo "https://raw.githubusercontent.com/your-username/winpm-extras/main/" 2)]
    (mkSettings true false "main" 30 3).

(** [ensure_directories] (lines 30-57) *)
Definition ensure_directories : M unit :=
  for_each [base_dir W; install_dir; cache_dir; repos_dir] mkdir_exist_ok ;;
  e <- path_exists config_file ;;
  if e then ret tt else write_file config_file (ConfigDoc default_config).

(** [load_config] (lines 59-62) *)
Definition load_config : M unit :=
  c <- read_file config_file ;;
  match c with
  | ConfigDoc cfg => modify (set_config (fun _ => cfg))
  | _ => raise (JSONDecodeError config_file)
  end.

(** [__init__] (lines 19-28) *)
Definition init : M unit := ensure_directories ;; load_config.

(** [save_config] (lines 64-67) *)
Definition save_config : M unit :=
  cfg <- gets config ;;
  write_file config_file (ConfigDoc cfg).

(** [load_packages] (lines 69-74) *)
Definition load_packages : M (dict InstalledPackage) :=
  e <- path_exists packages_file ;;
  if e then
    c <- read_file packages_file ;;
    match c with
    | RegistryDoc r => ret r
    | _ => raise (JSONDecodeError packages_file)
    end
  else ret [].

(** [save_packages] (lines 76-79) *)
Definition save_packages (packages : dict InstalledPackage) : M unit :=
  write_file packages_file (RegistryDoc packages).

(** The body of the [with open(destination, 'wb')] block of
    [download_file] (lines 94-101): [data] is what the file holds so far. *)
Fixpoint write_chunks (destination : path) (total_size : nat)
    (chunks : list string) (data : string) (downloaded : nat) : M unit :=
  match chunks with
  | [] => ret tt
  | chunk :: rest =>
      if String.eqb chunk "" then
        write_chunks destination total_size rest data downloaded
      else
        write_file destination (Raw (data ++ chunk)) ;;
        (if (0 <? total_size)%nat
         then print (MsgDownloading (downloaded + String.length chunk) total_size)
         else ret tt) ;;
        write_chunks destination total_size rest (data ++ chunk)
                     (downloaded + String.length chunk)
  end.

(** [download_file] (lines 85-107).  Only transport errors are caught: an
    error of [int] or of [open] propagates. *)
Definition download_file (url : string) (destination : path) : M bool :=
  t <- tick ;;
  timeout <- gets (fun s => download_timeout (settings (config s))) ;;
  match http_get W t url timeout with
  | HttpError => print MsgDownloadFailed ;; ret false
  | HttpBadLength => raise ValueError
  | HttpStream total_size chunks complete =>
      write_file destination (Raw "") ;;
      write_chunks destination total_size chunks "" 0 ;;
      if complete
      then print MsgNewline ;; ret true
      else print MsgDownloadFailed ;; ret false
  end.

(** [load_repository] (lines 128-135): [None] when no manifest is cached. *)
Definition load_repository (repo_name : string) : M (option Manifest) :=
  let repo_file := repo_file repo_name in
  e <- path_exists repo_file ;;
  if e then
    c <- read_file repo_file ;;
    match c with
    | ManifestDoc m => ret (Some m)
    | _ => raise (JSONDecodeError repo_file)
    end
  else ret None.

(** The loop of [find_package] (lines 141-146) over the repository names. *)
Fixpoint find_in (repo_names : list string) (package_name : string)
    : M (list PackageInfo) :=
  match repo_names with
  | [] => ret []
  | repo_name :: rest =>
      repo_data <- load_repository repo_name ;;
      match repo_data with
      | Some m =>
          match get package_name (m_packages m) with
          | Some package_info =>
              let package_info :=
                mkPackageInfo (pi_version package_info) (pi_url package_info)
                  (pi_executable package_info) (pi_dependencies package_info)
                  (pi_description package_info) (Some repo_name) in
              found <- find_in rest package_name ;;
              ret (package_info :: found)
          | None => find_in rest package_name
          end
      | None => find_in rest package_name
      end
  end.

(** [find_package] (lines 137-148): the repositories are visited in the
    order of [self.config['repositories']]. *)
Definition find_package (package_name : string) : M (list PackageInfo) :=
  cfg <- gets config ;;
  find_in (keys (repositories cfg)) package_name.

(** [resolve_dependencies] (lines 150-165) *)
Fixpoint resolve_each (dependencies : list string) : M (list (string * PackageInfo)) :=
  match dependencies with
  | [] => ret []
  | dep :: rest =>
      dep_packages <- find_package dep ;;
      match dep_packages with
      | info :: _ =>
          resolved <- resolve_each rest ;;
          ret ((dep, info) :: resolved)
      | [] =>
          print (MsgWarningDependencyNotFound dep) ;;
          resolve_each rest
      end
  end.

Definition resolve_dependencies (package_info : PackageInfo)
    : M (list (string * PackageInfo)) :=
  resolve_each (default [] (pi_dependencies package_info)).

(** [calculate_hash] (lines 235-241); it is called on a downloaded
    archive, which holds raw bytes. *)
Definition calculate_hash (file_path : path) : M string :=
  c <- read_file file_path ;;
  match c with
  | Raw bytes => ret (sha256 W bytes)
  | _ => raise (JSONDecodeError file_path)
  end.

(** [package_info.get('executable', f"{package_name}.exe")] *)
Definition executable_of (package_name : string) (package_info : PackageInfo) : string :=
  default (package_name ++ ".exe") (pi_executable package_info).

(** [create_shim] (lines 243-261) *)
Definition create_shim (package_name : string) (package_info : PackageInfo) : M unit :=
  mkdir_exist_ok shim_dir ;;
  let executable := executable_of package_name package_info in
  let package_dir := install_dir </> package_name in
  let actual_exe := package_dir </> executable in
  let shim_file := shim_file package_name in
  write_file shim_file (ShimDoc actual_exe) ;;
  print (MsgShimCreated shim_file).

(** The members an extraction writes below [dest]. *)
Fixpoint write_members (dest : path) (members : list (path * node))
    (m : gmap path node) : gmap path node :=
  match members with
  | [] => m
  | (rel, n) :: rest =>
      match rel with
      | [] => write_members dest rest m
      | _ => write_members dest rest (<[(dest ++ rel)%list := n]> m)
      end
  end.

(** The [try] block of [install_package] (lines 210-215): [true] when the
    archive was extracted, [false] when [zipfile] raised, in which case
    the members written before the error stay on disk. *)
Definition extract_archive (download_path package_dir : path) : M bool :=
  c <- try_except (c <- read_file download_path ;; ret (Some c)) (fun _ => ret None) ;;
  match c with
  | Some (Raw bytes) =>
      t <- tick ;;
      let '(members, ok) := extractall W t bytes in
      modify (set_fs (write_members package_dir members)) ;;
      ret ok
  | _ => ret false
  end.

(** [version or package_info.get('version', '1.0.0')] *)
Definition version_of (version : option string) (package_info : PackageInfo) : string :=
  match nonempty version with
  | Some v => v
  | None => default "1.0.0" (pi_version package_info)
  end.

(** The loop over the resolved dependencies (lines 191-193).  The result
    of the recursive install is dropped. *)
Definition install_dependencies (install : string -> M bool)
    (dependencies : list (string * PackageInfo)) : M unit :=
  for_each dependencies (fun dep =>
    print (MsgInstallingDependency dep.1) ;;
    _ <- install dep.1 ;;
    ret tt).

(** The cache file of an archive (line 202), named
    [package_name + "_" + version + ".zip"]: one component when the name
    and the version are [plain]. *)
Definition archive_path (package_name version : string) : path :=
  cache_dir </> (package_name ++ "_" ++ version ++ ".zip").

(** Download, extract, register, shim (lines 195-233).  [packages] is the
    dictionary that [install_package] loaded on entry. *)
Definition download_and_register (package_name : string) (version : option string)
    (package_info : PackageInfo) (packages : dict InstalledPackage) : M bool :=
  let version := version_of version package_info in
  download_url <- match pi_url package_info with
                  | Some u => ret u
                  | None => raise (KeyError "url")
                  end ;;
  print (MsgInstalling package_name version) ;;
  let download_path := archive_path package_name version in
  downloaded <- download_file download_url download_path ;;
  if negb downloaded then ret false else
  let package_dir := install_dir </> package_name in
  mkdir_exist_ok package_dir ;;
  extracted <- extract_archive download_path package_dir ;;
  if negb extracted then print MsgFailedToExtract ;; ret false else
  t <- tick ;;
  hash <- calculate_hash download_path ;;
  let packages :=
    set package_name
        (mkInstalled version package_dir
           (executable_of package_name package_info)
           (default "unknown" (pi_repository package_info))
           (now W t) hash)
        packages in
  save_packages packages ;;
  create_shim package_name package_info ;;
  print (MsgInstalled package_name version) ;;
  ret true.

(** Lines 189-233, once the descriptor is known. *)
Definition install_found (install : string -> M bool) (package_name : string)
    (version : option string) (package_info : PackageInfo)
    (packages : dict InstalledPackage) : M bool :=
  dependencies <- resolve_dependencies package_info ;;
  install_dependencies install dependencies ;;
  download_and_register package_name version package_info packages.

(** A descriptor is falsy when it is the empty object. *)
Definition info_truthy (i : PackageInfo) : bool :=
  match i with
  | mkPackageInfo None None None None None None => false
  | _ => true
  end.

(** Lines 185-233: [package_info] is what the lookup produced, [None] or
    an empty descriptor being falsy. *)
Definition install_checked (install : string -> M bool) (package_name : string)
    (version : option string) (package_info : option PackageInfo)
    (packages : dict InstalledPackage) : M bool :=
  match package_info with
  | Some package_info =>
      if info_truthy package_info
      then install_found install package_name version package_info packages
      else print (MsgNotFound package_name) ;; ret false
  | None => print (MsgNotFound package_name) ;; ret false
  end.

(** [install_package] (lines 167-233).  [fuel] bounds the depth of the
    recursion through dependencies; an empty [repo_name] counts as none. *)
Fixpoint install_package (fuel : nat) (package_name : string)
    (version repo_name : option string) : M bool :=
  match fuel with
  | O => diverge
  | S fuel' =>
      packages <- load_packages ;;
      if mem package_name packages then
        print (MsgAlreadyInstalled package_name) ;; ret false
      else
        let install := fun dep => install_package fuel' dep None None in
        match nonempty repo_name with
        | Some repo_name =>
            repo_data <- load_repository repo_name ;;
            match repo_data with
            | None => raise TypeError
            | Some m =>
                install_checked install package_name version
                  (get package_name (m_packages m)) packages
            end
        | None =>
            package_infos <- find_package package_name ;;
            match package_infos with
            | [] => print (MsgNotFoundInAnyRepository package_name) ;; ret false
            | package_info :: _ =>
                install_checked install package_name version
                  (Some package_info) packages
            end
        end
  end.

(** [uninstall] (lines 263-286) *)
Definition uninstall (package_name : string) : M bool :=
  packages <- load_packages ;;
  match get package_name packages with
  | None => print (MsgNotInstalled package_name) ;; ret false
  | Some entry =>
      let package_dir := ip_path entry in
      e <- path_exists package_dir ;;
      (if e then rmtree package_dir else ret tt) ;;
      let shim_file := shim_file package_name in
      e <- path_exists shim_file ;;
      (if e then unlink shim_file else ret tt) ;;
      save_packages (del package_name packages) ;;
      print (MsgUninstalled package_name) ;;
      ret true
  end.

(** [add_repository] (lines 296-323) *)
Definition add_repository (repo_name repo_url : string) : M bool :=
  cfg <- gets config ;;
  if mem repo_name (repositories cfg) then
    print (MsgRepositoryExists repo_name) ;; ret false
  else
    modify (set_config (fun c =>
      mkConfig
        (set repo_name
             (mkRepoInfo repo_url (Z.of_nat (length (repositories c)) + 1))
             (repositories c))
        (settings c))) ;;
    save_config ;;
    let manifest_url := urljoin W repo_url "repository.json" in
    let local_file := repo_file repo_name in
    try_except
      (t <- tick ;;
       match http_get_manifest W t manifest_url with
       | ManifestError => raise RequestException
       | ManifestInvalid =>
           write_file local_file (Raw "") ;;
           raise (JSONDecodeError local_file)
       | ManifestOk m =>
           write_file local_file (ManifestDoc m) ;;
           print (MsgRepositoryAdded repo_name) ;;
           ret true
       end)
      (fun _ => print MsgRepositoryAddFailed ;; ret false).

(** [remove_repository] (lines 325-340) *)
Definition remove_repository (repo_name : string) : M bool :=
  cfg <- gets config ;;
  if mem repo_name (repositories cfg) then
    modify (set_config (fun c =>
      mkConfig (del repo_name (repositories c)) (settings c))) ;;
    save_config ;;
    let manifest_file := repo_file repo_name in
    e <- path_exists manifest_file ;;
    (if e then unlink manifest_file else ret tt) ;;
    print (MsgRepositoryRemoved repo_name) ;;
    ret true
  else
    print (MsgRepositoryNotFound repo_name) ;; ret false.

(** The body of the loop of [update] (lines 376-380). *)
Definition check_update (item : string * InstalledPackage) : M unit :=
  let pkg_name := item.1 in
  let current_version := ip_version item.2 in
  available <- find_package pkg_name ;;
  match available with
  | [] => ret tt
  | best :: _ =>
      match pi_version best with
      | None => raise (KeyError "version")
      | Some v =>
          if String.eqb v current_version then ret tt
          else print (MsgUpdateAvailable pkg_name current_version v)
      end
  end.

(** [update] (lines 367-381).  With a package name it only prints. *)
Definition update (package_name : option string) : M unit :=
  match nonempty package_name with
  | Some package_name => print (MsgUpdating package_name)
  | None =>
      print MsgCheckingForUpdates ;;
      packages <- load_packages ;;
      for_each packages check_update
  end.

(** The body of the loop of [cleanup] (lines 387-388). *)
Definition unlink_if_file (item : path) : M unit :=
  f <- gets (fun s => is_file (fs s) item) ;;
  if f then unlink item else ret tt.

(** [cleanup] (lines 383-389) *)
Definition cleanup : M unit :=
  print MsgCleaningUpCache ;;
  items <- iterdir cache_dir ;;
  for_each items unlink_if_file ;;
  print MsgCacheCleaned.

End WinPM.

(** ** Further methods of class [WinPM] *)

(** [get_repository_url] (lines 81-83): [None] for a repository that is
    not configured. *)
Definition get_repository_url (repo_name : string) : M (option string) :=
  cfg <- gets config ;;
  ret (option_map repo_url (get repo_name (repositories cfg))).


Section Refresh.

Context (W : world).




End Refresh.

(** ** Reasoning about runs *)

(** The result [r] with its final state replaced. *)
Definition with_state {A} (s : state) (r : res A) : res A :=
  match r with
  | Ret a _ => Ret a s
  | Raise e _ => Raise e s
  | Diverge => Diverge
  end.

(** Every run of [m] that ends, by a return or by an exception, relates
    its initial and final states by [R]; [D] says whether [m] may run out
    of recursion budget. *)
Definition run_within {A} (D : Prop) (R : state -> state -> Prop) (m : M A) : Prop :=
  forall s, match m s with
            | Ret _ s' | Raise _ s' => R s s'
            | Diverge => D
            end.

(** Every node other than the root lies in a directory. *)
Definition well_formed (m : gmap path node) : Prop :=
  map_Forall (fun p _ => is_dir m (parent p) = true) m.

(** The part of the disk that an install writes: the registry file, the
    download cache, the install directories and the shims. *)
Definition installer_area (W : world) (p : path) : Prop :=
  p = packages_file W \/ cache_dir W `prefix_of` p \/
  install_dir W `prefix_of` p \/ shim_dir W `prefix_of` p.

(** The loaded configuration is the same and the disk is the same outside
    the paths in [A]. *)
Definition frame_outside (A : path -> Prop) (s s' : state) : Prop :=
  config s' = config s /\
  forall p, ~ A p -> fs s' !! p = fs s !! p.

Definition install_frame (W : world) : state -> state -> Prop :=
  frame_outside (installer_area W).

(** Two states in which [find_package] reads the same data. *)
Definition same_repositories (W : world) (s s' : state) : Prop :=
  config s' = config s /\
  forall repo_name, fs s' !! repo_file W repo_name = fs s !! repo_file W repo_name.

(** The dependency names a descriptor declares. *)
Definition declared_dependencies (package_info : PackageInfo) : list string :=
  default [] (pi_dependencies package_info).

(** Repository [repo_name] has a cached manifest that lists [package_name]. *)
Definition provides (W : world) (s : state) (repo_name package_name : string) : Prop :=
  exists m info,
    load_repository W repo_name s = Ret (Some m) s /\
    get package_name (m_packages m) = Some info.


(** The update check owes a line with [available_version] for the registry
    entry [item]: the first match for its name has that version, and it
    is not the installed version. *)
Definition update_due (W : world) (s : state) (item : string * InstalledPackage)
    (available_version : string) : Prop :=
  exists best rest,
    find_package W item.1 s = Ret (best :: rest) s /\
    pi_version best = Some available_version /\
    available_version <> ip_version item.2.

(** The dependencies declared by the descriptor that an install pinned to
    [repo_name] finds for [package_name]. *)
Definition pinned_dependencies (W : world) (s : state)
    (repo_name package_name : string) : list string :=
  match load_repository W repo_name s with
  | Ret (Some m) _ =>
      match get package_name (m_packages m) with
      | Some info => declared_dependencies info
      | None => []
      end
  | _ => []
  end.

(** [rank] decreases along the declared dependencies of the descriptors
    that unpinned installs use: the dependency graph has no cycle. *)
Definition acyclic (W : world) (s : state) (rank : string -> nat) : Prop :=
  forall name info rest dep,
    find_package W name s = Ret (info :: rest) s ->
    dep ∈ declared_dependencies info ->
    rank dep < rank name.

(** The registry lists [package_name] (the test of lines 171 and 267). *)
Definition is_installed (W : world) (s : state) (package_name : string) : bool :=
  match load_packages W s with
  | Ret packages _ => mem package_name packages
  | _ => false
  end.


(** What only the shim step writes. *)
Definition shim_area (W : world) (package_name : string) (p : path) : Prop :=
  p = shim_dir W \/ p = shim_file W package_name.

(** [info] is the descriptor that an install of [package_name] uses: the
    entry of the pinned repository, or else the first match over all
    repositories. *)
Definition install_uses (W : world) (s : state) (package_name : string)
    (repo_name : option string) (info : PackageInfo) : Prop :=
  match nonempty repo_name with
  | Some r =>
      exists m, load_repository W r s = Ret (Some m) s /\
                get package_name (m_packages m) = Some info /\
                info_truthy info = true
  | None => exists rest, find_package W package_name s = Ret (info :: rest) s
  end.

(** The run [r] ended, by a return or by an exception, in state [s']. *)
Definition ends_in {A} (r : res A) (s' : state) : Prop :=
  match r with
  | Ret _ s1 | Raise _ s1 => s1 = s'
  | Diverge => False
  end.



(** ** Notions used by the further properties *)

(** [open(p, 'w')] succeeds: [p] is not a directory and lies in one. *)
Definition writable (m : gmap path node) (p : path) : Prop :=
  is_dir m p = false /\ is_dir m (parent p) = true.

(** The body of a response: its chunks, one after the other. *)
Definition body (chunks : list string) : string :=
  foldr String.append "" chunks.

(** The descriptor [info] as [find_package] returns it for a match in
    repository [repo_name]. *)
Definition tagged (repo_name : string) (info : PackageInfo) : PackageInfo :=
  mkPackageInfo (pi_version info) (pi_url info) (pi_executable info)
    (pi_dependencies info) (pi_description info) (Some repo_name).

(** What the cached manifest of [repo_name] offers under [package_name]. *)
Definition offers (W : world) (s : state) (package_name repo_name : string)
    : option PackageInfo :=
  match load_repository W repo_name s with
  | Ret (Some m) _ => tagged repo_name <$> get package_name (m_packages m)
  | _ => None
  end.

(** The [try] statement of [add_repository] (lines 312-323). *)
Definition fetch_manifest (W : world) (repo_name repo_url : string) : M bool :=
  let manifest_url := urljoin W repo_url "repository.json" in
  let local_file := repo_file W repo_name in
  try_except
    (t <- tick ;;
     match http_get_manifest W t manifest_url with
     | ManifestError => raise RequestException
     | ManifestInvalid =>
         write_file local_file (Raw "") ;;
         raise (JSONDecodeError local_file)
     | ManifestOk m =>
         write_file local_file (ManifestDoc m) ;;
         print (MsgRepositoryAdded repo_name) ;;
         ret true
     end)
    (fun _ => print MsgRepositoryAddFailed ;; ret false).

(** The configuration with repository [repo_name] added (lines 302-305). *)
Definition with_repository (repo_name repo_url : string) (c : Config) : Config :=
  mkConfig
    (set repo_name
         (mkRepoInfo repo_url (Z.of_nat (length (repositories c)) + 1))
         (repositories c))
    (settings c).

(** The configuration without repository [repo_name] (line 331). *)
Definition without_repository (repo_name : string) (c : Config) : Config :=
  mkConfig (del repo_name (repositories c)) (settings c).

(** The state once [save_config] has written the configuration [c]. *)
Definition configured (W : world) (c : Config) (s : state) : state :=
  mkState c (<[config_file W := File (ConfigDoc c)]> (fs s)) (out s) (clock s).

(** The registry entry of an install (lines 218-225): [bytes] is the
    archive as downloaded, [t] the time at which the clock is read. *)
Definition registry_entry (W : world) (package_name : string)
    (version : option string) (info : PackageInfo) (bytes : string) (t : nat)
    : InstalledPackage :=
  mkInstalled (version_of version info) (install_dir W </> package_name)
    (executable_of package_name info)
    (default "unknown" (pi_repository info))
    (now W t) (sha256 W bytes).

(** The disk lets an install of [package_name] at [version] through: the
    archive, the registry and the shim can be written, and the install
    and shim directories exist or can be created. *)
Definition installable (W : world) (m : gmap path node)
    (package_name version : string) : Prop :=
  writable m (archive_path W package_name version) /\
  is_dir m (install_dir W) = true /\
  is_file m (install_dir W </> package_name) = false /\
  writable m (packages_file W) /\
  is_file m (shim_dir W) = false /\
  m !! shim_file W package_name <> Some Dir.

(** The first descriptor that the configured repositories offer for
    [package_name], if any. *)
Definition first_offer (W : world) (s : state) (package_name : string)
    : option PackageInfo :=
  head (omap (offers W s package_name) (keys (repositories (config s)))).

(** The dependencies among [dependencies] that no repository offers. *)
Definition unresolved (W : world) (s : state) (dependencies : list string)
    : list string :=
  List.filter (fun dep => match first_offer W s dep with
                          | None => true
                          | Some _ => false
                          end) dependencies.

(** The names of the configured repositories are file names. *)
Definition plain_repositories (c : Config) : bool :=
  forallb plain (keys (repositories c)).

(** The strings from which an install of [package_name] at [version]
    builds file names are file names: the package name is a [component]
    of a path, and the version, the repository that the install is pinned
    to, if any, and the configured repositories are [plain]. *)
Definition install_names (s : state) (package_name version : string)
    (repo_name : option string) : bool :=
  component package_name && plain version && plain (default "" repo_name)
  && plain_repositories (config s).

(** The version and the dependencies of a descriptor are file names. *)
Definition plain_descriptor (info : PackageInfo) : bool :=
  plain (default "1.0.0" (pi_version info))
  && forallb component (declared_dependencies info).

(** The cached manifest of [repo_name], if there is one, holds plain
    descriptors only. *)
Definition plain_manifest (W : world) (s : state) (repo_name : string) : bool :=
  match load_repository W repo_name s with
  | Ret (Some m) _ => forallb (fun kv => plain_descriptor kv.2) (m_packages m)
  | _ => true
  end.

(** The same of every manifest that an install can read: those of the
    configured repositories and that of the pinned one. *)
Definition plain_manifests (W : world) (s : state) (repo_name : option string)
    : bool :=
  forallb (plain_manifest W s) (keys (repositories (config s)))
  && match nonempty repo_name with
     | Some r => plain_manifest W s r
     | None => true
     end.

(** ** Example worlds and states *)

(** The state in which a run ends; [d] when it does not end. *)
Definition final_state {A} (r : res A) (d : state) : state :=
  match r with
  | Ret _ s | Raise _ s => s
  | Diverge => d
  end.

(** How a run ends: a returned value, an exception, or not at all. *)
Definition outcome {A} (r : res A) : option (A + exn) :=
  match r with
  | Ret a _ => Some (inl a)
  | Raise e _ => Some (inr e)
  | Diverge => None
  end.

Definition descriptor (version url : string) (dependencies : option (list string))
    : PackageInfo :=
  mkPackageInfo (Some version) (Some url) None dependencies None None.

(** A world rooted at [winpm]: every URL answers with a two-chunk body,
    every repository serves a manifest that offers [foo], and every archive
    unpacks to [bin/tool.exe], except that the archive served at
    [http://r/bad.zip] breaks after its first member. *)
Definition demo_world : world :=
  mkWorld ["winpm"]
    (fun _ url _ => HttpStream 6 ["zip"; url] true)
    (fun _ _ =>
       ManifestOk (mkManifest [("foo", descriptor "1.0" "http://r/foo.zip" None)]))
    (fun _ bytes =>
       if String.eqb bytes "ziphttp://r/bad.zip"
       then ([(["readme.txt"], File (Raw "partial"))], false)
       else ([(["bin"], Dir); (["bin"; "tool.exe"], File (Raw bytes))], true))
    (fun t => "2024-01-01T00:00:00")
    (fun bytes => "sha256:" ++ bytes)
    (fun base name => base ++ name).

(** Repository [main] offers [A] (which depends on [B]), [B], [app] (which
    depends on a [missinglib] that no repository offers) and [bad]. *)
Definition demo_manifest : Manifest :=
  mkManifest
    [("A", descriptor "1.0" "http://r/A.zip" (Some ["B"]));
     ("B", descriptor "2.0" "http://r/B.zip" None);
     ("app", descriptor "0.3" "http://r/app.zip" (Some ["missinglib"]));
     ("bad", descriptor "0.1" "http://r/bad.zip" None)].

Definition blank_state : state :=
  mkState (mkConfig [] (mkSettings false false "" 0 0)) ∅ [] 0.

(** A first run on an empty disk, after which the manifest of [main] is
    cached. *)
Definition demo_state : state :=
  set_fs (insert (repo_file demo_world "main") (File (ManifestDoc demo_manifest)))
         (final_state (init demo_world blank_state) blank_state).

(** [demo_state] after [install B]. *)
Definition installed_state : state :=
  final_state (install_package demo_world 1 "B" None None demo_state) demo_state.

(** The registry of [installed_state]. *)
Definition installed_registry : dict InstalledPackage :=
  Eval vm_compute in
    match load_packages demo_world installed_state with
    | Ret r _ => r
    | _ => []
    end.

(** [installed_state] with a cache that also holds a directory [tmp] with a
    file in it, next to the archive of [B]. *)
Definition cluttered_state : state :=
  set_fs (fun m =>
            <[cache_dir demo_world </> "tmp" </> "part.zip" := File (Raw "half")]>
              (<[cache_dir demo_world </> "tmp" := Dir]> m))
         installed_state.

(** [cluttered_state] after [cleanup]. *)
Definition cleaned_state : state :=
  final_state (cleanup demo_world cluttered_state) cluttered_state.


(** A session that starts on an empty disk, adds repository [c], removes
    the two default repositories and adds repository [d]: the
    configuration then lists [c] with priority 3 before [d] with
    priority 2. *)
Definition reordered_state : state :=
  final_state
    ((init demo_world ;;
      add_repository demo_world "c" "http://c/" ;;
      remove_repository demo_world "main" ;;
      remove_repository demo_world "extras" ;;
      add_repository demo_world "d" "http://d/") blank_state)
    blank_state.


(** Repository [main] offers [A] and [B], each depending on the other;
    nothing is installed. *)
Definition cyclic_state : state :=
  set_fs (insert (repo_file demo_world "main")
            (File (ManifestDoc
                     (mkManifest
                        [("A", descriptor "1.0" "http://r/A.zip" (Some ["B"]));
                         ("B", descriptor "2.0" "http://r/B.zip" (Some ["A"]))]))))
         demo_state.

(** A ranking of the packages of [demo_manifest]: dependencies rank lower. *)
Definition demo_rank (name : string) : nat :=
  if String.eqb name "A" then 1 else if String.eqb name "app" then 1 else 0.

(** [demo_state] after [install A], which installs [B] first. *)
Definition dependent_state : state :=
  final_state (install_package demo_world 2 "A" None None demo_state) demo_state.


(** [demo_state] after [install app]. *)
Definition app_state : state :=
  final_state (install_package demo_world 1 "app" None None demo_state) demo_state.





(** A world in which the first download is refused and the later ones
    break off after a first chunk, and in which the requests for a
    manifest are answered, in turn, by a manifest, by a failure and from
    then on by a body that is not a JSON document. *)
Definition flaky_world : world :=
  mkWorld ["winpm"]
    (fun t _ _ => match t with
                  | 0 => HttpError
                  | _ => HttpStream 6 ["zi"] false
                  end)
    (fun t _ =>
       match t with
       | 0 => ManifestOk (mkManifest [("foo", descriptor "1.1" "http://r/foo.zip" None)])
       | 1 => ManifestError
       | _ => ManifestInvalid
       end)
    (fun _ _ => ([], true))
    (fun t => "2024-01-01T00:00:00")
    (fun bytes => "sha256:" ++ bytes)
    (fun base name => base ++ name).

(** [demo_state] two interactions later. *)
Definition later_state : state :=
  mkState (config demo_state) (fs demo_state) (out demo_state) 2.

(** A disk on which repository [main] offers [ghost] without a URL. *)
Definition nourl_state : state :=
  set_fs (insert (repo_file demo_world "main")
            (File (ManifestDoc
                     (mkManifest
                        [("ghost",
                          mkPackageInfo (Some "1.0") None None None None None)]))))
         demo_state.

(** The descriptor that [find_package] returns for [B] in [demo_state],
    the body served for it and the members of its archive. *)
Definition B_info : PackageInfo :=
  mkPackageInfo (Some "2.0") (Some "http://r/B.zip") None None None (Some "main").

Definition B_body : string := "ziphttp://r/B.zip".

Definition B_members : list (path * node) :=
  [(["bin"], Dir); (["bin"; "tool.exe"], File (Raw B_body))].

(** Repository [main] offers [P], in a descriptor without a [version],
    and [B]. *)
Definition unversioned_manifest (B_version : string) : Manifest :=
  mkManifest
    [("P", mkPackageInfo None (Some "http://r/P.zip") None None None None);
     ("B", descriptor B_version "http://r/B.zip" None)].

(** A first run on an empty disk; with the manifest above cached, [P] and
    then [B] are installed; after that [main] publishes [B] 2.1. *)
Definition unversioned_start : state :=
  set_fs (insert (repo_file demo_world "main")
            (File (ManifestDoc (unversioned_manifest "2.0"))))
         (final_state (init demo_world blank_state) blank_state).

Definition unversioned_P : state :=
  final_state (install_package demo_world 1 "P" None None unversioned_start)
    unversioned_start.

Definition unversioned_state : state :=
  set_fs (insert (repo_file demo_world "main")
            (File (ManifestDoc (unversioned_manifest "2.1"))))
         (final_state (install_package demo_world 1 "B" None None unversioned_P)
            unversioned_P).

(** The registry of [unversioned_state]. *)
Definition unversioned_registry : dict InstalledPackage :=
  Eval vm_compute in
    match load_packages demo_world unversioned_state with
    | Ret r _ => r
    | _ => []
    end.

(** * Properties *)

Open Scope list_scope.

(** Closed facts about the example states are settled by evaluation. *)
Ltac by_computation :=
  repeat match goal with |- _ /\ _ => split end;
  match goal with |- _ = ?rhs => vm_cast_no_check (eq_refl rhs) end.

Section Monad_facts.

Context {A B : Type}.

Lemma bind_Ret (m : M A) (f : A -> M B) s a s' :
  m s = Ret a s' -> bind m f s = f a s'.
Proof. intros H. unfold bind. now rewrite H. Qed.

Lemma bind_Ret_inv (m : M A) (f : A -> M B) s b s' :
  bind m f s = Ret b s' -> exists a s1, m s = Ret a s1 /\ f a s1 = Ret b s'.
Proof. unfold bind. destruct (m s) as [a s1|e s1|]; [eauto|discriminate..]. Qed.

Lemma run_within_bind D (R : state -> state -> Prop) (m : M A) (f : A -> M B) :
  (forall s1 s2 s3, R s1 s2 -> R s2 s3 -> R s1 s3) ->
  run_within D R m -> (forall a, run_within D R (f a)) -> run_within D R (bind m f).
Proof.
  intros Htrans Hm Hf s. unfold bind.
  specialize (Hm s). destruct (m s) as [a s1|e s1|]; [|assumption..].
  specialize (Hf a s1). destruct (f a s1); eauto.
Qed.

End Monad_facts.

(** ** Reading does not change the state *)

Section Reads.

Context (W : world).

Lemma is_dir_agree (m m' : gmap path node) p :
  m !! p = m' !! p -> is_dir m p = is_dir m' p.
Proof. intros H. unfold is_dir. now rewrite H. Qed.

Lemma path_exists_agree p s s0 :
  fs s !! p = fs s0 !! p ->
  path_exists p s = with_state s (path_exists p s0).
Proof.
  intros H. unfold path_exists, gets. simpl.
  now rewrite H, (is_dir_agree _ _ _ H).
Qed.

Lemma read_file_agree p s s0 :
  fs s !! p = fs s0 !! p ->
  read_file p s = with_state s (read_file p s0).
Proof.
  intros H. unfold read_file. rewrite H, (is_dir_agree _ _ _ H).
  destruct (fs s0 !! p) as [[c|]|]; try reflexivity.
  now destruct (is_dir (fs s0) p).
Qed.

Lemma load_packages_agree s s0 :
  fs s !! packages_file W = fs s0 !! packages_file W ->
  load_packages W s = with_state s (load_packages W s0).
Proof.
  intros H. unfold load_packages, bind.
  rewrite (path_exists_agree _ _ _ H). unfold path_exists, gets. simpl.
  destruct (match fs s0 !! packages_file W with
            | Some _ => true
            | None => is_dir (fs s0) (packages_file W)
            end); [|reflexivity].
  rewrite (read_file_agree _ _ _ H).
  destruct (read_file (packages_file W) s0) as [c s1|e s1|]; try reflexivity.
  simpl. now destruct c.
Qed.

Lemma load_repository_agree repo_name s s0 :
  fs s !! repo_file W repo_name = fs s0 !! repo_file W repo_name ->
  load_repository W repo_name s = with_state s (load_repository W repo_name s0).
Proof.
  intros H. unfold load_repository, bind. fold (repo_file W repo_name).
  rewrite (path_exists_agree _ _ _ H). unfold path_exists, gets. simpl.
  destruct (match fs s0 !! repo_file W repo_name with
            | Some _ => true
            | None => is_dir (fs s0) (repo_file W repo_name)
            end); [|reflexivity].
  rewrite (read_file_agree _ _ _ H).
  destruct (read_file (repo_file W repo_name) s0) as [c s1|e s1|]; try reflexivity.
  simpl. now destruct c.
Qed.

Lemma find_in_agree repo_names package_name s s0 :
  (forall r, fs s !! repo_file W r = fs s0 !! repo_file W r) ->
  find_in W repo_names package_name s
  = with_state s (find_in W repo_names package_name s0).
Proof.
  intros H. revert s s0 H.
  induction repo_names as [|r rest IH]; intros s s0 H; [reflexivity|].
  simpl. unfold bind at 1 3.
  rewrite (load_repository_agree r s s0 (H r)).
  destruct (load_repository W r s0) as [[m|] s1|e s1|] eqn:E; simpl;
    try reflexivity.
  - pose proof (load_repository_agree r s0 s0 eq_refl) as E0.
    rewrite E in E0. injection E0 as ->.
    destruct (get package_name (m_packages m)).
    + unfold bind. rewrite (IH s s0 H).
      now destruct (find_in W rest package_name s0).
    + apply IH, H.
  - pose proof (load_repository_agree r s0 s0 eq_refl) as E0.
    rewrite E in E0. injection E0 as ->. apply IH, H.
Qed.

Lemma find_package_agree package_name s s0 :
  same_repositories W s0 s ->
  find_package W package_name s = with_state s (find_package W package_name s0).
Proof.
  intros [Hc Hf]. unfold find_package, bind, gets. rewrite Hc.
  now apply find_in_agree.
Qed.

Lemma same_repositories_refl s : same_repositories W s s.
Proof. now split. Qed.

Lemma same_repositories_trans s1 s2 s3 :
  same_repositories W s1 s2 -> same_repositories W s2 s3 ->
  same_repositories W s1 s3.
Proof.
  intros [Hc1 Hf1] [Hc2 Hf2]. split; [congruence|].
  intros r. now rewrite Hf2, Hf1.
Qed.

(** A run of a reader ends in the state it started from. *)
Lemma with_state_Ret {A} (m : M A) s a s' :
  m s = with_state s (m s) -> m s = Ret a s' -> s' = s.
Proof. intros H E. rewrite E in H. simpl in H. congruence. Qed.

Lemma load_packages_Ret s packages s' :
  load_packages W s = Ret packages s' -> s' = s.
Proof. apply with_state_Ret, load_packages_agree; reflexivity. Qed.

Lemma load_repository_Ret repo_name s o s' :
  load_repository W repo_name s = Ret o s' -> s' = s.
Proof. apply with_state_Ret, load_repository_agree; reflexivity. Qed.

Lemma find_package_Ret package_name s l s' :
  find_package W package_name s = Ret l s' -> s' = s.
Proof.
  apply with_state_Ret, find_package_agree, same_repositories_refl.
Qed.


Lemma is_dir_child_None (m : gmap path node) p name :
  m !! (p </> name) = None -> is_dir m (p </> name) = false.
Proof.
  intros H. unfold is_dir. rewrite H. unfold child.
  destruct p; reflexivity.
Qed.

(** A repository without a cached manifest file loads as [None]. *)
Lemma load_repository_missing repo_name s :
  fs s !! repo_file W repo_name = None ->
  load_repository W repo_name s = Ret None s.
Proof.
  intros H. unfold load_repository, bind, path_exists, gets.
  fold (repo_file W repo_name). rewrite H.
  unfold repo_file in *. now rewrite (is_dir_child_None _ _ _ H).
Qed.

End Reads.

(** ** Paths *)

Lemma parent_child p name : parent (p </> name) = p.
Proof. apply removelast_last. Qed.

Lemma child_inj p q x y : p </> x = q </> y -> p = q /\ x = y.
Proof. apply app_inj_tail. Qed.

Lemma child_not_nil p x : p </> x <> [].
Proof. unfold child. now destruct p. Qed.

Lemma prefix_child_inv (p d : path) x :
  p `prefix_of` d </> x -> p = d </> x \/ p `prefix_of` d.
Proof.
  intros [k Hk]. unfold child in *.
  destruct k as [|y k _] using rev_ind.
  - left. now rewrite app_nil_r in Hk.
  - right. rewrite app_assoc in Hk. apply app_inj_tail in Hk as [-> _].
    now exists k.
Qed.

Lemma is_dir_Some_Dir (m : gmap path node) p :
  p <> [] -> is_dir m p = true -> m !! p = Some Dir.
Proof.
  unfold is_dir. destruct p; [congruence|]. intros _.
  now destruct (m !! (s :: p)) as [[|]|].
Qed.

(** In a well-formed tree nothing lies below a missing path. *)
Lemma absent_below (m : gmap path node) (p q : path) :
  well_formed m -> p <> [] -> m !! p = None -> p `prefix_of` q -> m !! q = None.
Proof.
  intros Hwf Hp Hnone [k ->].
  induction k as [|y k IH] using rev_ind; [now rewrite app_nil_r|].
  destruct (m !! (p ++ k ++ [y])) as [n|] eqn:E; [|reflexivity].
  apply (map_Forall_lookup_1 _ _ _ _ Hwf) in E.
  rewrite app_assoc in E. change (is_dir m (parent ((p ++ k) </> y)) = true) in E.
  rewrite parent_child in E. apply is_dir_Some_Dir in E; [congruence|].
  now destruct p.
Qed.

(** ** The footprint of the operations *)

Section Footprint.

Context (W : world) (D : Prop) (A : path -> Prop).

Lemma frame_outside_refl s : frame_outside A s s.
Proof. now split. Qed.

Lemma frame_outside_trans s1 s2 s3 :
  frame_outside A s1 s2 -> frame_outside A s2 s3 -> frame_outside A s1 s3.
Proof.
  intros [Hc1 Hf1] [Hc2 Hf2]. split; [congruence|].
  intros p Hp. now rewrite Hf2, Hf1.
Qed.

Lemma run_ret {X} (x : X) : run_within D (frame_outside A) (ret x).
Proof. intros s. apply frame_outside_refl. Qed.

Lemma run_raise {X} e : run_within D (frame_outside A) (@raise X e).
Proof. intros s. apply frame_outside_refl. Qed.

Lemma run_gets {X} (f : state -> X) : run_within D (frame_outside A) (gets f).
Proof. intros s. apply frame_outside_refl. Qed.

Lemma run_print m : run_within D (frame_outside A) (print m).
Proof. intros s. now split. Qed.

Lemma run_tick : run_within D (frame_outside A) tick.
Proof. intros s. now split. Qed.

Lemma run_path_exists p : run_within D (frame_outside A) (path_exists p).
Proof. intros s. apply frame_outside_refl. Qed.

Lemma run_read_file p : run_within D (frame_outside A) (read_file p).
Proof.
  intros s. unfold read_file.
  destruct (fs s !! p) as [[c|]|]; try apply frame_outside_refl.
  destruct (is_dir (fs s) p); apply frame_outside_refl.
Qed.

Lemma run_write_file p c : A p -> run_within D (frame_outside A) (write_file p c).
Proof.
  intros Hp s. unfold write_file.
  destruct (is_dir (fs s) p); [apply frame_outside_refl|].
  destruct (is_dir (fs s) (parent p)); [|apply frame_outside_refl].
  split; [reflexivity|]. intros q Hq. simpl.
  apply lookup_insert_ne. congruence.
Qed.

Lemma run_mkdir_exist_ok p :
  A p -> run_within D (frame_outside A) (mkdir_exist_ok p).
Proof.
  intros Hp s. unfold mkdir_exist_ok.
  destruct (is_dir (fs s) p); [apply frame_outside_refl|].
  destruct (fs s !! p); [apply frame_outside_refl|].
  destruct (is_dir (fs s) (parent p)); [|apply frame_outside_refl].
  split; [reflexivity|]. intros q Hq. simpl.
  apply lookup_insert_ne. congruence.
Qed.

Lemma write_members_outside (dest : path) (members : list (path * node))
    (m : gmap path node) p :
  (forall rel, A (dest ++ rel)) -> ~ A p ->
  write_members dest members m !! p = m !! p.
Proof.
  intros Hdest Hp. revert m.
  induction members as [|[rel n] members IH]; intros m; [reflexivity|].
  simpl. destruct rel as [|x rel]; [apply IH|].
  rewrite IH. apply lookup_insert_ne. intros <-. apply Hp, Hdest.
Qed.

Lemma run_write_members (dest : path) (members : list (path * node)) :
  (forall rel, A (dest ++ rel)) ->
  run_within D (frame_outside A) (modify (set_fs (write_members dest members))).
Proof.
  intros Hdest s. split; [reflexivity|]. intros p Hp. simpl.
  now apply write_members_outside.
Qed.

Lemma run_try_except {X} (m : M X) h :
  run_within D (frame_outside A) m ->
  (forall e, run_within D (frame_outside A) (h e)) ->
  run_within D (frame_outside A) (try_except m h).
Proof.
  intros Hm Hh s. unfold try_except. specialize (Hm s).
  destruct (m s) as [x s1|e s1|]; [assumption| |assumption].
  specialize (Hh e s1).
  destruct (h e s1); eauto using frame_outside_trans.
Qed.

Lemma run_for_each {X} (l : list X) body :
  (forall x, run_within D (frame_outside A) (body x)) ->
  run_within D (frame_outside A) (for_each l body).
Proof.
  intros Hbody. induction l as [|x l IH]; simpl; [apply run_ret|].
  apply run_within_bind; [apply frame_outside_trans|apply Hbody|now intros _].
Qed.

End Footprint.

Create HintDb area.

(** One step of a footprint proof: follow the structure of the program. *)
Ltac run_step :=
  lazymatch goal with
  | |- run_within _ _ (bind _ _) =>
      apply run_within_bind; [apply frame_outside_trans| |intros ?]
  | |- run_within _ _ (ret _) => apply run_ret
  | |- run_within _ _ (raise _) => apply run_raise
  | |- run_within _ _ (gets _) => apply run_gets
  | |- run_within _ _ (print _) => apply run_print
  | |- run_within _ _ tick => apply run_tick
  | |- run_within _ _ (path_exists _) => apply run_path_exists
  | |- run_within _ _ (read_file _) => apply run_read_file
  | |- run_within _ _ (write_file _ _) =>
      apply run_write_file; solve [auto with area]
  | |- run_within _ _ (mkdir_exist_ok _) =>
      apply run_mkdir_exist_ok; solve [auto with area]
  | |- run_within _ _ (modify (set_fs (write_members _ _))) =>
      apply run_write_members; solve [auto with area]
  | |- run_within _ _ (try_except _ _) => apply run_try_except; [|intros ?]
  | |- run_within _ _ (for_each _ _) => apply run_for_each; intros ?
  | |- run_within _ _ (if ?b then _ else _) => destruct b
  | |- run_within _ _ (match ?x with _ => _ end) => destruct x
  end.

Ltac run_steps := repeat run_step.

Section Footprint_methods.

Context (W : world) (D : Prop) (A : path -> Prop).

Lemma run_load_packages : run_within D (frame_outside A) (load_packages W).
Proof. unfold load_packages. run_steps. Qed.

Lemma run_load_repository r : run_within D (frame_outside A) (load_repository W r).
Proof. unfold load_repository. run_steps. Qed.

Lemma run_find_in names package_name :
  run_within D (frame_outside A) (find_in W names package_name).
Proof.
  induction names as [|r names IH]; simpl; [apply run_ret|].
  apply run_within_bind; [apply frame_outside_trans|apply run_load_repository|].
  intros [m|]; [|exact IH].
  destruct (get package_name (m_packages m)); [|exact IH].
  apply run_within_bind; [apply frame_outside_trans|exact IH|].
  intros found. apply run_ret.
Qed.

Lemma run_find_package package_name :
  run_within D (frame_outside A) (find_package W package_name).
Proof.
  unfold find_package.
  apply run_within_bind; [apply frame_outside_trans|apply run_gets|].
  intros cfg. apply run_find_in.
Qed.

Lemma run_resolve_each dependencies :
  run_within D (frame_outside A) (resolve_each W dependencies).
Proof.
  induction dependencies as [|dep rest IH]; simpl; [apply run_ret|].
  apply run_within_bind; [apply frame_outside_trans|apply run_find_package|].
  intros [|info l].
  - apply run_within_bind; [apply frame_outside_trans|apply run_print|].
    now intros _.
  - apply run_within_bind; [apply frame_outside_trans|exact IH|].
    intros resolved. apply run_ret.
Qed.

Lemma run_write_chunks destination total_size chunks data downloaded :
  A destination ->
  run_within D (frame_outside A)
    (write_chunks destination total_size chunks data downloaded).
Proof.
  intros Hd. revert data downloaded.
  induction chunks as [|chunk rest IH]; intros data downloaded; simpl;
    [apply run_ret|].
  destruct (String.eqb chunk ""); [apply IH|].
  run_step; [run_step|]. run_step; [run_steps|]. apply IH.
Qed.

Lemma run_download_file url destination :
  A destination ->
  run_within D (frame_outside A) (download_file W url destination).
Proof.
  intros Hd. unfold download_file.
  repeat first [apply run_write_chunks; assumption | run_step].
Qed.

Lemma run_extract_archive download_path package_dir :
  (forall rel, A (package_dir ++ rel)) ->
  run_within D (frame_outside A) (extract_archive W download_path package_dir).
Proof. intros Hd. unfold extract_archive. run_steps. Qed.

Lemma run_calculate_hash p : run_within D (frame_outside A) (calculate_hash W p).
Proof. unfold calculate_hash. run_steps. Qed.

Lemma run_save_packages packages :
  A (packages_file W) ->
  run_within D (frame_outside A) (save_packages W packages).
Proof. intros H. now apply run_write_file. Qed.

Lemma run_create_shim package_name package_info :
  A (shim_dir W) -> A (shim_file W package_name) ->
  run_within D (frame_outside A) (create_shim W package_name package_info).
Proof.
  intros H1 H2. unfold create_shim. cbv zeta.
  fold (shim_file W package_name). run_steps.
Qed.

End Footprint_methods.

(** ** The footprint of an install *)

Section Install_footprint.

Context (W : world).

Lemma area_packages_file : installer_area W (packages_file W).
Proof. now left. Qed.

Lemma area_cache name : installer_area W (cache_dir W </> name).
Proof. right. left. now exists [name]. Qed.

Lemma area_archive name version : installer_area W (archive_path W name version).
Proof. apply area_cache. Qed.

Lemma area_install name rel : installer_area W ((install_dir W </> name) ++ rel).
Proof.
  right. right. left. exists (name :: rel). unfold child.
  now rewrite <- app_assoc.
Qed.

Lemma area_install_dir name : installer_area W (install_dir W </> name).
Proof. rewrite <- (app_nil_r (install_dir W </> name)). apply area_install. Qed.

Lemma area_shim_dir : installer_area W (shim_dir W).
Proof. right. right. right. exists []. now rewrite app_nil_r. Qed.

Lemma area_shim_file name : installer_area W (shim_file W name).
Proof. right. right. right. now exists [(name ++ ".bat")%string]. Qed.

(** The cached manifests lie outside the installer's area. *)
Lemma repo_file_outside r : ~ installer_area W (repo_file W r).
Proof.
  unfold installer_area, repo_file, repos_dir, packages_file, cache_dir,
    install_dir, shim_dir, child.
  intros [H|[[k H]|[[k H]|[k H]]]].
  - apply (f_equal length) in H. rewrite !length_app in H. simpl in H. lia.
  - rewrite <- !app_assoc in H. apply app_inv_head in H. discriminate.
  - rewrite <- !app_assoc in H. apply app_inv_head in H. discriminate.
  - rewrite <- !app_assoc in H. apply app_inv_head in H. discriminate.
Qed.

(** So does the configuration file. *)
Lemma config_file_outside : ~ installer_area W (config_file W).
Proof.
  unfold installer_area, config_file, packages_file, cache_dir,
    install_dir, shim_dir, child.
  intros [H|[[k H]|[[k H]|[k H]]]].
  - apply app_inv_head in H. discriminate.
  - rewrite <- !app_assoc in H. apply app_inv_head in H. discriminate.
  - rewrite <- !app_assoc in H. apply app_inv_head in H. discriminate.
  - rewrite <- !app_assoc in H. apply app_inv_head in H. discriminate.
Qed.

Lemma install_frame_same_repositories s s' :
  install_frame W s s' -> same_repositories W s s'.
Proof.
  intros [Hc Hf]. split; [exact Hc|].
  intros r. apply Hf, repo_file_outside.
Qed.

End Install_footprint.

#[global] Hint Resolve area_packages_file area_cache area_archive area_install
  area_install_dir area_shim_dir area_shim_file : area.

(** A step through the methods that an install calls. *)
Ltac run_method :=
  lazymatch goal with
  | |- run_within _ _ (load_packages _) => apply run_load_packages
  | |- run_within _ _ (load_repository _ _) => apply run_load_repository
  | |- run_within _ _ (find_package _ _) => apply run_find_package
  | |- run_within _ _ (resolve_each _ _) => apply run_resolve_each
  | |- run_within _ _ (download_file _ _ _) =>
      apply run_download_file; solve [auto with area]
  | |- run_within _ _ (extract_archive _ _ _) =>
      apply run_extract_archive; solve [auto with area]
  | |- run_within _ _ (calculate_hash _ _) => apply run_calculate_hash
  | |- run_within _ _ (save_packages _ _) =>
      apply run_save_packages; solve [auto with area]
  | |- run_within _ _ (create_shim _ _ _) =>
      apply run_create_shim; solve [auto with area]
  | _ => run_step
  end.

Section Install_runs.

Context (W : world).

Lemma run_download_and_register D package_name version package_info packages :
  run_within D (frame_outside (installer_area W))
    (download_and_register W package_name version package_info packages).
Proof. unfold download_and_register. cbv zeta. repeat run_method. Qed.

Lemma run_install_dependencies D install
    (dependencies : list (string * PackageInfo)) :
  (forall dep, run_within D (frame_outside (installer_area W)) (install dep)) ->
  run_within D (frame_outside (installer_area W))
    (install_dependencies install dependencies).
Proof.
  intros Hinstall. unfold install_dependencies. run_step.
  run_step; [run_step|]. run_step; [apply Hinstall|]. run_step.
Qed.

Lemma run_install_found D install package_name version package_info packages :
  (forall dep, run_within D (frame_outside (installer_area W)) (install dep)) ->
  run_within D (frame_outside (installer_area W))
    (install_found W install package_name version package_info packages).
Proof.
  intros Hinstall. unfold install_found, resolve_dependencies.
  run_step; [apply run_resolve_each|].
  run_step; [now apply run_install_dependencies|].
  apply run_download_and_register.
Qed.

(** An install changes nothing outside the installer's area. *)
Lemma run_install_package fuel package_name version repo_name :
  run_within True (install_frame W)
    (install_package W fuel package_name version repo_name).
Proof.
  unfold install_frame. revert package_name version repo_name.
  induction fuel as [|fuel IH]; intros package_name version repo_name;
    [intros s; exact I|].
  assert (forall o packages,
            run_within True (frame_outside (installer_area W))
              (install_checked W (fun dep => install_package W fuel dep None None)
                 package_name version o packages)) as Hchecked.
  { intros o packages. unfold install_checked.
    destruct o as [info|]; [|repeat run_method].
    destruct (info_truthy info); [|repeat run_method].
    apply run_install_found. intros dep. apply IH. }
  cbn [install_package]. run_method. run_method. run_method; [repeat run_method|].
  destruct (nonempty repo_name) as [r|].
  - run_method; [run_method|]. run_method; [apply Hchecked|run_method].
  - run_method; [run_method|]. run_method; [repeat run_method|apply Hchecked].
Qed.

(** In particular an install leaves the loaded configuration, the
    configuration file and the cached manifests as they were. *)
Lemma install_leaves_configuration fuel package_name version repo_name s s' :
  ends_in (install_package W fuel package_name version repo_name s) s' ->
  config s' = config s /\
  fs s' !! config_file W = fs s !! config_file W /\
  forall r, fs s' !! repo_file W r = fs s !! repo_file W r.
Proof.
  intros H.
  pose proof (run_install_package fuel package_name version repo_name s) as F.
  destruct (install_package W fuel package_name version repo_name s);
    simpl in H; try contradiction; subst; destruct F as [Hc Hf];
    (split; [exact Hc|]; split;
     [apply Hf, config_file_outside|intros r; apply Hf, repo_file_outside]).
Qed.

End Install_runs.

(** ** Installing what is already installed *)

(** C4: installing a package that is already in the registry returns
    failure with the already-installed message and has no side effect: the
    disk (registry, configuration file, cache, install directories, shims),
    the loaded configuration and the clock are what they were. *)
Theorem install_already_installed W fuel package_name version repo_name s packages :
  load_packages W s = Ret packages s ->
  mem package_name packages = true ->
  install_package W (S fuel) package_name version repo_name s
  = Ret false (mkState (config s) (fs s)
                 (out s ++ [MsgAlreadyInstalled package_name]) (clock s)).
Proof.
  intros Hload Hmem. simpl.
  rewrite (bind_Ret _ _ _ _ _ Hload), Hmem. reflexivity.
Qed.

Lemma install_already_installed_witness :
  install_package demo_world 1 "B" None None installed_state
  = Ret false (mkState (config installed_state) (fs installed_state)
                 (out installed_state ++ [MsgAlreadyInstalled "B"])
                 (clock installed_state)).
Proof.
  apply (install_already_installed _ _ _ _ _ _ installed_registry);
    by_computation.
Defined.

(** ** A pinned repository without a cached manifest *)

(** C10, as amended: for a package that is not yet in the registry and a
    non-empty repository name whose manifest file is not cached, the pinned
    install raises [TypeError] (it subscripts the [None] that
    [load_repository] returned) and leaves the state as it was. *)
Theorem install_pinned_missing_manifest W fuel package_name version repo_name s packages :
  repo_name <> "" ->
  load_packages W s = Ret packages s ->
  mem package_name packages = false ->
  fs s !! repo_file W repo_name = None ->
  install_package W (S fuel) package_name version (Some repo_name) s
  = Raise TypeError s.
Proof.
  intros Hne Hload Hmem Hmissing. simpl.
  rewrite (bind_Ret _ _ _ _ _ Hload), Hmem.
  apply String.eqb_neq in Hne. rewrite Hne.
  now rewrite (bind_Ret _ _ _ _ _ (load_repository_missing W _ _ Hmissing)).
Qed.

Lemma install_pinned_missing_manifest_witness :
  install_package demo_world 1 "A" None (Some "nope") demo_state
  = Raise TypeError demo_state.
Proof.
  apply (install_pinned_missing_manifest _ _ _ _ _ _ []);
    [discriminate | by_computation ..].
Defined.

(** The claim as stated fails for a package that is already installed:
    the already-installed check comes first and the call returns. *)
Lemma install_pinned_missing_manifest_installed :
  fs installed_state !! repo_file demo_world "nope" = None /\
  install_package demo_world 1 "B" None (Some "nope") installed_state
  = Ret false (mkState (config installed_state) (fs installed_state)
                 (out installed_state ++ [MsgAlreadyInstalled "B"])
                 (clock installed_state)).
Proof. by_computation. Qed.

(** ** Which repository wins *)

Section Lookup.

Context (W : world).

Lemma get_In {A} k (d : dict A) v : get k d = Some v -> (k, v) ∈ d.
Proof.
  induction d as [|[k' v'] d IH]; [discriminate|]. simpl.
  destruct (String.eqb_spec k k') as [->|Hne].
  - intros [= ->]. left.
  - intros H. right. auto.
Qed.


(** One round of the loop of [find_package]. *)
Lemma find_in_cons r names package_name s o :
  load_repository W r s = Ret o s ->
  find_in W (r :: names) package_name s
  = match o ≫= (fun m => get package_name (m_packages m)) with
    | Some i =>
        (found <- find_in W names package_name ;;
         ret (mkPackageInfo (pi_version i) (pi_url i) (pi_executable i)
                (pi_dependencies i) (pi_description i) (Some r) :: found)) s
    | None => find_in W names package_name s
    end.
Proof.
  intros H. simpl. rewrite (bind_Ret _ _ _ _ _ H).
  destruct o as [m|]; [|reflexivity]. simpl.
  now destruct (get package_name (m_packages m)).
Qed.

(** The first match of [find_in] comes from the first listed repository
    that provides the package. *)
Lemma find_in_first (d : dict RepoInfo) package_name s info rest :
  find_in W (keys d) package_name s = Ret (info :: rest) s ->
  exists before repo_name repo_info after,
    d = before ++ (repo_name, repo_info) :: after /\
    pi_repository info = Some repo_name /\
    provides W s repo_name package_name /\
    forall r, r ∈ keys before -> ~ provides W s r package_name.
Proof.
  induction d as [|[r ri] d IH]; [discriminate|]. simpl. unfold bind at 1.
  destruct (load_repository W r s) as [o s1|e s1|] eqn:E; try discriminate.
  apply load_repository_Ret in E as Hs. subst s1.
  destruct o as [m|].
  - destruct (get package_name (m_packages m)) as [pinfo|] eqn:G.
    + unfold bind.
      destruct (find_in W (keys d) package_name s) as [l s2|e s2|];
        try discriminate.
      intros [= <- <- _].
      exists [], r, ri, d. repeat split.
      * exists m, pinfo. now split.
      * intros r' Hr'. inversion Hr'.
    + intros H. destruct (IH H) as (b & rn & rin & a & -> & Hrep & Hprov & Hb).
      exists ((r, ri) :: b), rn, rin, a. repeat split; try assumption.
      intros r' Hr'. simpl in Hr'. apply elem_of_cons in Hr' as [->|Hr'].
      * intros (m' & i & Hm & Hi). rewrite E in Hm. injection Hm as <-.
        congruence.
      * now apply Hb.
  - intros H. destruct (IH H) as (b & rn & rin & a & -> & Hrep & Hprov & Hb).
    exists ((r, ri) :: b), rn, rin, a. repeat split; try assumption.
    intros r' Hr'. simpl in Hr'. apply elem_of_cons in Hr' as [->|Hr'].
    + intros (m' & i & Hm & Hi). rewrite E in Hm. discriminate.
    + now apply Hb.
Qed.

(** What [find_package] returns carries its repository, so it is truthy. *)
Lemma find_package_truthy package_name s info rest :
  find_package W package_name s = Ret (info :: rest) s ->
  info_truthy info = true.
Proof.
  unfold find_package, bind, gets. intros H.
  apply find_in_first in H as (_ & r & _ & _ & _ & Hrepo & _).
  destruct info as [v u e d ds rp]. simpl in Hrepo. subst rp.
  now destruct v, u, e, d, ds.
Qed.

End Lookup.



(** The configuration of [reordered_state]. *)
Lemma reordered_state_repositories :
  repositories (config reordered_state)
  = [("c", mkRepoInfo "http://c/" 3); ("d", mkRepoInfo "http://d/" 2)].
Proof. by_computation. Qed.



(** ** Checking for updates *)

Section Updates.

Context (W : world).


End Updates.

(** C9: the update check stops at the first registered package whose
    first match in the repositories has no [version].  [P] is installed
    from such a descriptor, as version [1.0.0], and then [B] 2.0; when
    [B] 2.1 is published the update of [B] is due, but the check of [P],
    which comes first in the registry, raises [KeyError] right after the
    heading, and the update of [B] is not reported. *)
Theorem update_stops_at_missing_version :
  outcome (install_package demo_world 1 "P" None None unversioned_start)
  = Some (inl true) /\
  outcome (install_package demo_world 1 "B" None None unversioned_P)
  = Some (inl true) /\
  outcome (load_packages demo_world unversioned_state)
  = Some (inl unversioned_registry) /\
  (fun item => (item.1, ip_version item.2)) <$> unversioned_registry
  = [("P", "1.0.0"); ("B", "2.0")] /\
  (exists item, item ∈ unversioned_registry /\ item.1 = "B" /\
                update_due demo_world unversioned_state item "2.1") /\
  outcome (update demo_world None unversioned_state)
  = Some (inr (KeyError "version")) /\
  out (final_state (update demo_world None unversioned_state) unversioned_state)
  = out unversioned_state ++ [MsgCheckingForUpdates].
Proof.
  split; [by_computation|]. split; [by_computation|].
  split; [by_computation|]. split; [by_computation|].
  split; [|split; by_computation].
  unfold unversioned_registry. eexists. split.
  - apply elem_of_cons. right. apply elem_of_cons. left. reflexivity.
  - split; [reflexivity|].
    exists (mkPackageInfo (Some "2.1") (Some "http://r/B.zip") None None None
              (Some "main")), [].
    split; [by_computation|]. split; [reflexivity|discriminate].
Qed.



(** ** Uninstalling *)

Section Uninstall.

Context (W : world).

(** Lines 272-274: the recorded install directory, when it exists and is
    not a regular file, is removed with everything below it; [k] is the
    rest of the method. *)
Lemma remove_install_directory p s :
  well_formed (fs s) -> p <> [] -> is_file (fs s) p = false ->
  exists s1,
    (forall B (k : M B),
       (e <- path_exists p ;; (if e then rmtree p else ret tt) ;; k) s = k s1) /\
    config s1 = config s /\ out s1 = out s /\ clock s1 = clock s /\
    (forall q, p `prefix_of` q -> fs s1 !! q = None) /\
    (forall q, ~ p `prefix_of` q -> fs s1 !! q = fs s !! q).
Proof.
  intros Hwf Hp Hfile. unfold is_file in Hfile.
  destruct (fs s !! p) as [[c|]|] eqn:E; [discriminate| |].
  - exists (set_fs (filter (fun kv => ~ p `prefix_of` kv.1)) s).
    split; [|repeat split].
    + intros B k. unfold bind, path_exists, gets, rmtree. rewrite E. simpl.
      rewrite E. reflexivity.
    + intros q Hq. simpl. apply map_lookup_filter_None. right.
      intros n _. simpl. tauto.
    + intros q Hq. simpl. rewrite map_lookup_filter.
      destruct (fs s !! q) as [n|]; [|reflexivity]. simpl.
      now rewrite option_guard_True.
  - assert (is_dir (fs s) p = false) as D
      by (unfold is_dir; rewrite E; now destruct p).
    exists s. split; [|repeat split; try reflexivity].
    + intros B k. unfold bind, path_exists, gets. now rewrite E, D.
    + intros q Hq. now apply (absent_below _ p).
Qed.

(** Lines 277-279: the shim, when present, is unlinked. *)
Lemma remove_shim p s :
  p <> [] -> fs s !! p <> Some Dir ->
  exists s1,
    (forall B (k : M B),
       (e <- path_exists p ;; (if e then unlink p else ret tt) ;; k) s = k s1) /\
    config s1 = config s /\ out s1 = out s /\ clock s1 = clock s /\
    fs s1 !! p = None /\
    (forall q, q <> p -> fs s1 !! q = fs s !! q).
Proof.
  intros Hp Hdir.
  destruct (fs s !! p) as [[c|]|] eqn:E; [|congruence|].
  - exists (set_fs (delete p) s). split; [|repeat split].
    + intros B k. unfold bind, path_exists, gets, unlink. rewrite E. simpl.
      rewrite E. reflexivity.
    + simpl. apply lookup_delete_eq.
    + intros q Hq. simpl. now apply lookup_delete_ne.
  - assert (is_dir (fs s) p = false) as D
      by (unfold is_dir; rewrite E; now destruct p).
    exists s. split; [|now repeat split].
    intros B k. unfold bind, path_exists, gets. now rewrite E, D.
Qed.

Lemma write_file_Ret p c s :
  is_dir (fs s) p = false -> is_dir (fs s) (parent p) = true ->
  write_file p c s = Ret tt (set_fs (insert p (File c)) s).
Proof. intros H1 H2. unfold write_file. now rewrite H1, H2. Qed.

(** A registry that lists a package is stored in a regular file. *)
Lemma load_packages_File s packages name entry :
  load_packages W s = Ret packages s -> get name packages = Some entry ->
  fs s !! packages_file W = Some (File (RegistryDoc packages)).
Proof.
  unfold load_packages, bind, path_exists, gets, ret, read_file.
  destruct (fs s !! packages_file W) as [[c|]|] eqn:E; simpl.
  - rewrite E. destruct c; try discriminate. now intros [= ->].
  - rewrite E. discriminate.
  - destruct (is_dir (fs s) (packages_file W)) eqn:D; simpl.
    + rewrite E, D. discriminate.
    + intros [= <-]. discriminate.
Qed.

Lemma load_packages_written s packages :
  fs s !! packages_file W = Some (File (RegistryDoc packages)) ->
  load_packages W s = Ret packages s.
Proof.
  intros E. unfold load_packages, bind, path_exists, gets, ret, read_file.
  rewrite E. simpl. now rewrite E.
Qed.

Lemma get_del_eq {A} name (d : dict A) : get name (del name d) = None.
Proof.
  induction d as [|[k v] d IH]; [reflexivity|]. unfold del in *. simpl.
  destruct (String.eqb name k) eqn:E; simpl; [assumption|].
  now rewrite E.
Qed.

Lemma shim_file_not_packages_file name : packages_file W <> shim_file W name.
Proof.
  unfold packages_file, shim_file, shim_dir. intros H.
  apply child_inj in H as [H _].
  apply (f_equal length) in H. unfold child in H.
  rewrite length_app in H. simpl in H. lia.
Qed.

End Uninstall.

(** C7: uninstalling a registered package returns success, removes its
    registry entry (so that the package no longer counts as installed),
    its install directory with everything below it, and its shim, and
    leaves the rest of the disk and the configuration alone; uninstalling a
    package that is not registered returns failure with the not-installed
    message and leaves the whole state as it was.  The disk is a
    well-formed tree, the recorded install path is not a regular file and
    does not contain the application directory, and the shim path is not a
    directory. *)
Theorem uninstall_removes_package W package_name s packages :
  load_packages W s = Ret packages s ->
  (forall entry,
     get package_name packages = Some entry ->
     well_formed (fs s) ->
     ~ ip_path entry `prefix_of` base_dir W ->
     is_file (fs s) (ip_path entry) = false ->
     fs s !! shim_file W package_name <> Some Dir ->
     exists s',
       uninstall W package_name s = Ret true s' /\
       load_packages W s' = Ret (del package_name packages) s' /\
       mem package_name (del package_name packages) = false /\
       (forall q, ip_path entry `prefix_of` q -> fs s' !! q = None) /\
       fs s' !! shim_file W package_name = None /\
       config s' = config s /\
       (forall q, ~ ip_path entry `prefix_of` q ->
                  q <> shim_file W package_name -> q <> packages_file W ->
                  fs s' !! q = fs s !! q)) /\
  (get package_name packages = None ->
   uninstall W package_name s
   = Ret false (mkState (config s) (fs s)
                  (out s ++ [MsgNotInstalled package_name]) (clock s))).
Proof.
  intros Hload. split.
  - intros entry Hget Hwf Hbase Hfile Hshim.
    pose proof (load_packages_File W _ _ _ _ Hload Hget) as Hreg.
    assert (ip_path entry <> []) as Hne
      by (intros E; apply Hbase; rewrite E; apply prefix_nil).
    assert (~ ip_path entry `prefix_of` packages_file W) as Hpk.
    { intros H. apply prefix_child_inv in H as [H|H]; [|tauto].
      unfold is_file in Hfile. unfold packages_file in Hreg.
      now rewrite H, Hreg in Hfile. }
    destruct (remove_install_directory (ip_path entry) s Hwf Hne Hfile)
      as (s1 & Hrun1 & Hc1 & Ho1 & Hk1 & Hgone1 & Hkeep1).
    assert (fs s1 !! shim_file W package_name <> Some Dir) as Hshim1.
    { destruct (decide (ip_path entry `prefix_of` shim_file W package_name)) as [H|H].
      - now rewrite (Hgone1 _ H).
      - now rewrite (Hkeep1 _ H). }
    destruct (remove_shim (shim_file W package_name) s1 (child_not_nil _ _) Hshim1)
      as (s2 & Hrun2 & Hc2 & Ho2 & Hk2 & Hgone2 & Hkeep2).
    assert (fs s2 !! packages_file W = Some (File (RegistryDoc packages))) as Hreg2.
    { rewrite (Hkeep2 _ (shim_file_not_packages_file W package_name)).
      rewrite (Hkeep1 _ Hpk). exact Hreg. }
    assert (is_dir (fs s2) (base_dir W) = true) as Hbase2.
    { pose proof (map_Forall_lookup_1 _ _ _ _ Hwf Hreg) as Hd. simpl in Hd.
      unfold packages_file in Hd. rewrite parent_child in Hd.
      rewrite <- Hd. apply is_dir_agree.
      rewrite Hkeep2, Hkeep1; [reflexivity|assumption|].
      unfold shim_file, shim_dir, child. intros E.
      apply (f_equal length) in E. rewrite !length_app in E. simpl in E. lia. }
    eexists. split; [|split; [|split; [|split; [|split; [|split]]]]].
    + unfold uninstall. rewrite (bind_Ret _ _ _ _ _ Hload), Hget.
      cbv beta zeta. rewrite Hrun1.
      fold (shim_file W package_name). rewrite Hrun2.
      unfold save_packages. erewrite bind_Ret; [reflexivity|].
      apply write_file_Ret.
      * unfold is_dir. rewrite Hreg2. unfold packages_file, child.
        now destruct (base_dir W).
      * unfold packages_file. now rewrite parent_child.
    + apply load_packages_written. simpl. apply lookup_insert_eq.
    + unfold mem. now rewrite get_del_eq.
    + intros q Hq. simpl. rewrite lookup_insert_ne by congruence.
      destruct (decide (q = shim_file W package_name)) as [->|Hqs];
        [assumption|].
      rewrite (Hkeep2 _ Hqs). now apply Hgone1.
    + simpl. rewrite lookup_insert_ne by apply shim_file_not_packages_file.
      exact Hgone2.
    + simpl. congruence.
    + intros q Hq Hqs Hqp. simpl. rewrite lookup_insert_ne by congruence.
      rewrite (Hkeep2 _ Hqs). now apply Hkeep1.
  - intros Hget. unfold uninstall.
    rewrite (bind_Ret _ _ _ _ _ Hload), Hget. reflexivity.
Qed.

Lemma uninstall_removes_package_witness :
  (exists s', uninstall demo_world "B" installed_state = Ret true s' /\
              load_packages demo_world s' = Ret [] s' /\
              fs s' !! (install_dir demo_world </> "B") = None /\
              fs s' !! shim_file demo_world "B" = None) /\
  uninstall demo_world "A" installed_state
  = Ret false (mkState (config installed_state) (fs installed_state)
                 (out installed_state ++ [MsgNotInstalled "A"])
                 (clock installed_state)).
Proof.
  assert (load_packages demo_world installed_state
          = Ret installed_registry installed_state) as Hload
    by by_computation.
  split.
  - destruct (uninstall_removes_package demo_world "B" installed_state _ Hload)
      as [Hregistered _].
    destruct (Hregistered (mkInstalled "2.0" ["winpm"; "packages"; "B"] "B.exe"
                             "main" "2024-01-01T00:00:00"
                             "sha256:ziphttp://r/B.zip"))
      as (s' & Hrun & Hreg & _ & Hdir & Hshim & _).
    + reflexivity.
    + apply (bool_decide_unpack _). vm_compute. exact I.
    + apply (bool_decide_unpack _). vm_compute. exact I.
    + by_computation.
    + vm_compute. discriminate.
    + exists s'. repeat split; try assumption.
      apply Hdir. now exists [].
  - destruct (uninstall_removes_package demo_world "A" installed_state _ Hload)
      as [_ Hmissing].
    apply Hmissing. reflexivity.
Defined.

(** ** Cleaning the cache *)

Section Cleanup.

Context (W : world).

Lemma unlink_if_file_run item s :
  unlink_if_file item s
  = Ret tt (if is_file (fs s) item then set_fs (delete item) s else s).
Proof.
  unfold unlink_if_file, bind, gets, unlink, is_file.
  destruct (fs s !! item) as [[c|]|] eqn:E; simpl; now rewrite ?E.
Qed.

Lemma cleanup_loop items s :
  exists s',
    for_each items unlink_if_file s = Ret tt s' /\
    config s' = config s /\ out s' = out s /\ clock s' = clock s /\
    (forall q, q ∈ items -> is_file (fs s) q = true -> fs s' !! q = None) /\
    (forall q, q ∉ items \/ is_file (fs s) q = false -> fs s' !! q = fs s !! q).
Proof.
  revert s. induction items as [|item rest IH]; intros s.
  - exists s. repeat split; try reflexivity. intros q Hq. inversion Hq.
  - simpl. unfold bind. rewrite unlink_if_file_run.
    set (s1 := if is_file (fs s) item then set_fs (delete item) s else s).
    destruct (IH s1) as (s' & Hrun & Hc & Ho & Hk & Hdel & Hkeep).
    assert (config s1 = config s /\ out s1 = out s /\ clock s1 = clock s)
      as (Hc1 & Ho1 & Hk1) by (subst s1; now destruct (is_file (fs s) item)).
    assert (fs s1 !! item = None \/ is_file (fs s) item = false) as Hitem.
    { subst s1. destruct (is_file (fs s) item); [left|now right].
      apply lookup_delete_eq. }
    assert (forall q, q <> item -> fs s1 !! q = fs s !! q) as Hother.
    { intros q Hq. subst s1. destruct (is_file (fs s) item); [|reflexivity].
      simpl. now apply lookup_delete_ne. }
    assert (forall q, is_file (fs s1) q = false -> fs s1 !! q = None \/
                      is_file (fs s) q = false) as Hfile.
    { intros q Hq. destruct (decide (q = item)) as [->|Hne]; [exact Hitem|].
      right. unfold is_file in *. now rewrite <- (Hother q Hne). }
    exists s'. split; [exact Hrun|]. split; [congruence|].
    split; [congruence|]. split; [congruence|]. split.
    + intros q Hq Hf.
      destruct (is_file (fs s1) q) eqn:F.
      * destruct (decide (q = item)) as [->|Hne].
        -- destruct Hitem as [Hn|Hn]; [|congruence].
           unfold is_file in F. now rewrite Hn in F.
        -- apply Hdel; [|exact F].
           apply elem_of_cons in Hq as [Hq|Hq]; [contradiction|exact Hq].
      * rewrite Hkeep by now right.
        destruct (Hfile q F) as [Hn|Hn]; [exact Hn|congruence].
    + intros q Hq.
      destruct (decide (q = item)) as [->|Hne].
      * rewrite Hkeep.
        -- destruct Hitem as [Hn|Hn].
           ++ destruct Hq as [Hq|Hq]; [exfalso; apply Hq; left|].
              subst s1. rewrite Hq in *. reflexivity.
           ++ subst s1. now rewrite Hn.
        -- right. destruct Hitem as [Hn|Hn].
           ++ unfold is_file. now rewrite Hn.
           ++ subst s1. now rewrite Hn.
      * rewrite Hkeep, (Hother q Hne); [reflexivity|].
        destruct Hq as [Hq|Hq].
        -- left. intros Hin. apply Hq. now right.
        -- right. unfold is_file in *. now rewrite (Hother q Hne).
Qed.

(** The entries that [iterdir] lists are the nodes whose parent is [p]. *)
Lemma iterdir_Ret p s :
  p <> [] -> is_dir (fs s) p = true ->
  exists items,
    iterdir p s = Ret items s /\
    forall q, q ∈ items <-> parent q = p /\ is_Some (fs s !! q).
Proof.
  intros Hp Hdir. unfold iterdir. rewrite Hdir. eexists. split; [reflexivity|].
  intros q. rewrite list_elem_of_In, filter_In, <- list_elem_of_In.
  rewrite bool_decide_eq_true, list_elem_of_fmap. split.
  - intros [((q' & n) & -> & Hin) [_ Hpar]]. split; [exact Hpar|].
    apply elem_of_map_to_list in Hin. simpl. eauto.
  - intros [Hpar [n Hn]]. split.
    + exists (q, n). split; [reflexivity|]. now apply elem_of_map_to_list.
    + split; [|exact Hpar]. intros ->. simpl in Hpar. congruence.
Qed.

End Cleanup.

(** C8, as amended: [cleanup] deletes every regular file that lies directly
    in the download cache directory, so that no regular file is left
    there, and changes nothing else: directories inside the cache and what
    they hold stay, and the registry file, the configuration file, the
    loaded configuration and everything in the install directory are
    untouched. *)
Theorem cleanup_removes_cached_files W s :
  is_dir (fs s) (cache_dir W) = true ->
  exists s',
    cleanup W s = Ret tt s' /\
    (forall q, parent q = cache_dir W -> is_file (fs s') q = false) /\
    (forall q, ~ (parent q = cache_dir W /\ is_file (fs s) q = true) ->
               fs s' !! q = fs s !! q) /\
    fs s' !! packages_file W = fs s !! packages_file W /\
    fs s' !! config_file W = fs s !! config_file W /\
    (forall q, install_dir W `prefix_of` q -> fs s' !! q = fs s !! q) /\
    config s' = config s.
Proof.
  intros Hdir.
  set (s0 := mkState (config s) (fs s) (out s ++ [MsgCleaningUpCache]) (clock s)).
  destruct (iterdir_Ret (cache_dir W) s0 (child_not_nil _ _) Hdir)
    as (items & Hiter & Hitems).
  destruct (cleanup_loop items s0) as (s1 & Hrun & Hc & Ho & Hk & Hdel & Hkeep).
  assert (forall q, ~ (parent q = cache_dir W /\ is_file (fs s) q = true) ->
                    fs s1 !! q = fs s !! q) as Hframe.
  { intros q Hq. rewrite Hkeep; [reflexivity|].
    destruct (is_file (fs s0) q) eqn:F; [left|now right].
    intros Hin. apply Hitems in Hin as [Hpar _]. now apply Hq. }
  assert (forall d x, d <> cache_dir W ->
                      fs s1 !! (d </> x) = fs s !! (d </> x)) as Hchild.
  { intros d x Hd. apply Hframe. rewrite parent_child. tauto. }
  exists (mkState (config s1) (fs s1) (out s1 ++ [MsgCacheCleaned]) (clock s1)).
  split; [|split; [|split; [|split; [|split; [|split]]]]]; simpl.
  - unfold cleanup. change (print MsgCleaningUpCache s) with (Ret tt s0).
    unfold bind at 1. change (print MsgCleaningUpCache s) with (Ret tt s0).
    cbv iota beta. rewrite (bind_Ret _ _ _ _ _ Hiter).
    now rewrite (bind_Ret _ _ _ _ _ Hrun).
  - intros q Hpar. destruct (is_file (fs s) q) eqn:F.
    + unfold is_file. rewrite Hdel; [reflexivity| |exact F].
      apply Hitems. split; [exact Hpar|]. unfold is_file in F. simpl.
      destruct (fs s !! q); [eauto|discriminate].
    + unfold is_file in *. rewrite Hkeep by now right. exact F.
  - exact Hframe.
  - apply Hchild. unfold cache_dir. intros E.
    apply (f_equal length) in E. unfold child in E.
    rewrite length_app in E. simpl in E. lia.
  - apply Hchild. unfold cache_dir. intros E.
    apply (f_equal length) in E. unfold child in E.
    rewrite length_app in E. simpl in E. lia.
  - intros q [k ->]. apply Hframe. intros [Hpar _].
    destruct k as [|y k _] using rev_ind.
    + rewrite app_nil_r in Hpar. unfold install_dir in Hpar.
      rewrite parent_child in Hpar. unfold cache_dir in Hpar.
      apply (f_equal length) in Hpar. unfold child in Hpar.
      rewrite length_app in Hpar. simpl in Hpar. lia.
    + rewrite app_assoc in Hpar.
      change (parent ((install_dir W ++ k) </> y) = cache_dir W) in Hpar.
      rewrite parent_child in Hpar. unfold install_dir, cache_dir, child in Hpar.
      rewrite <- app_assoc in Hpar. apply app_inv_head in Hpar.
      discriminate.
  - exact Hc.
Qed.

Lemma cleanup_removes_cached_files_witness :
  exists s',
    cleanup demo_world cluttered_state = Ret tt s' /\
    is_file (fs s') (cache_dir demo_world </> "B_2.0.zip") = false /\
    fs s' !! packages_file demo_world = fs cluttered_state !! packages_file demo_world.
Proof.
  destruct (cleanup_removes_cached_files demo_world cluttered_state)
    as (s' & Hrun & Hfiles & _ & Hreg & _).
  - by_computation.
  - exists s'. split; [exact Hrun|]. split; [|exact Hreg].
    apply Hfiles. reflexivity.
Defined.

(** The claim as stated fails when the cache holds a directory: the
    directory and the file in it survive, and the cache is not empty. *)
Lemma cleanup_leaves_directories :
  outcome (cleanup demo_world cluttered_state) = Some (inl tt) /\
  iterdir (cache_dir demo_world) cleaned_state
  = Ret [cache_dir demo_world </> "tmp"] cleaned_state /\
  fs cleaned_state !! (cache_dir demo_world </> "tmp" </> "part.zip")
  = Some (File (Raw "half")).
Proof. by_computation. Qed.

(** ** Termination of installs *)

Section Termination.

Context (W : world).

Lemma not_diverge {X} (R : state -> state -> Prop) (m : M X) s :
  run_within False R m -> m s <> Diverge.
Proof. intros H E. specialize (H s). now rewrite E in H. Qed.

Lemma bind_not_diverge {X Y} (m : M X) (f : X -> M Y) s :
  m s <> Diverge ->
  (forall a s1, m s = Ret a s1 -> f a s1 <> Diverge) ->
  bind m f s <> Diverge.
Proof.
  intros Hm Hf. unfold bind.
  destruct (m s) as [a s1|e s1|]; [now apply Hf|discriminate|congruence].
Qed.

(** The resolved dependencies are among the declared ones. *)
Lemma resolve_each_declared dependencies s resolved s1 :
  resolve_each W dependencies s = Ret resolved s1 ->
  forall d, d ∈ resolved.*1 -> d ∈ dependencies.
Proof.
  revert s resolved s1.
  induction dependencies as [|dep rest IH]; intros s resolved s1; simpl.
  - intros [= <- _] d Hd. inversion Hd.
  - intros H. apply bind_Ret_inv in H as (l & s2 & Hfind & H).
    destruct l as [|info l].
    + apply bind_Ret_inv in H as (_ & s3 & _ & H).
      intros d Hd. right. eapply IH; eassumption.
    + apply bind_Ret_inv in H as (resolved' & s3 & Hrest & [= <- _]).
      intros d Hd. simpl in Hd. apply elem_of_cons in Hd as [->|Hd]; [left|].
      right. eapply IH; eassumption.
Qed.

(** An install of a package that is not registered goes on with the
    descriptor it found. *)
Lemma install_package_found fuel package_name version repo_name s packages info :
  load_packages W s = Ret packages s ->
  mem package_name packages = false ->
  install_uses W s package_name repo_name info ->
  install_package W (S fuel) package_name version repo_name s
  = install_found W (fun dep => install_package W fuel dep None None)
      package_name version info packages s.
Proof.
  intros Hload Hmem Huses. simpl.
  rewrite (bind_Ret _ _ _ _ _ Hload), Hmem. unfold install_uses in Huses.
  destruct (nonempty repo_name) as [r|].
  - destruct Huses as (m & Hrepo & Hget & Htruthy).
    rewrite (bind_Ret _ _ _ _ _ Hrepo), Hget. unfold install_checked.
    now rewrite Htruthy.
  - destruct Huses as (rest & Hfind).
    rewrite (bind_Ret _ _ _ _ _ Hfind). unfold install_checked.
    now rewrite (find_package_truthy _ _ _ _ _ Hfind).
Qed.

Lemma install_found_resolved install package_name version info packages s
    resolved s1 :
  resolve_dependencies W info s = Ret resolved s1 ->
  install_found W install package_name version info packages s
  = (install_dependencies install resolved ;;
     download_and_register W package_name version info packages) s1.
Proof. intros H. unfold install_found. now rewrite (bind_Ret _ _ _ _ _ H). Qed.

(** One round of the loop over the dependencies. *)
Lemma install_dependencies_cons (install : string -> M bool) d
    (i : PackageInfo) rest s :
  install_dependencies install ((d, i) :: rest) s
  = match install d (mkState (config s) (fs s)
                       (out s ++ [MsgInstallingDependency d]) (clock s)) with
    | Ret _ s' => install_dependencies install rest s'
    | Raise e s' => Raise e s'
    | Diverge => Diverge
    end.
Proof.
  unfold install_dependencies. simpl. unfold bind, print, modify. simpl.
  now destruct (install d _).
Qed.

Section Ranked.

Context (s : state) (rank : string -> nat).
Hypothesis Hacyclic : acyclic W s rank.

(** The loop over the dependencies ends when each install in it ends. *)
Lemma install_dependencies_not_diverge (install : string -> M bool)
    (dependencies : list (string * PackageInfo)) s0 :
  (forall dep, run_within True (install_frame W) (install dep)) ->
  (forall d s', d ∈ dependencies.*1 -> same_repositories W s s' ->
                install d s' <> Diverge) ->
  same_repositories W s s0 ->
  install_dependencies install dependencies s0 <> Diverge.
Proof.
  intros Hframe. unfold install_dependencies. revert s0.
  induction dependencies as [|[d i] rest IH]; intros s0 Hinstall Hs0;
    [discriminate|].
  simpl. unfold bind at 1 2. unfold print at 1, modify.
  set (s1 := mkState (config s0) (fs s0) (out s0 ++ [MsgInstallingDependency d])
                     (clock s0)).
  assert (same_repositories W s s1) as Hs1 by exact Hs0.
  pose proof (Hinstall d s1 ltac:(left) Hs1) as Hd.
  pose proof (Hframe d s1) as Hf. unfold bind.
  destruct (install d s1) as [b s2|e s2|]; [|discriminate|congruence].
  simpl. apply IH.
  - intros d' s' Hd'. apply Hinstall. now right.
  - eapply same_repositories_trans; [exact Hs1|].
    now apply install_frame_same_repositories.
Qed.

Lemma install_found_not_diverge install package_name version info packages s0 :
  (forall dep, run_within True (install_frame W) (install dep)) ->
  (forall d s', d ∈ declared_dependencies info -> same_repositories W s s' ->
                install d s' <> Diverge) ->
  same_repositories W s s0 ->
  install_found W install package_name version info packages s0 <> Diverge.
Proof.
  intros Hframe Hinstall Hs0. unfold install_found.
  apply bind_not_diverge.
  - apply (not_diverge (frame_outside (installer_area W))), run_resolve_each.
  - intros resolved s1 Hres. apply bind_not_diverge.
    + apply install_dependencies_not_diverge; [exact Hframe| |].
      * intros d s' Hd. apply Hinstall.
        eapply resolve_each_declared; eassumption.
      * eapply same_repositories_trans; [exact Hs0|].
        apply install_frame_same_repositories.
        pose proof (run_resolve_each W False (installer_area W)
                      (declared_dependencies info) s0) as H.
        unfold resolve_dependencies in Hres.
        fold (declared_dependencies info) in Hres. now rewrite Hres in H.
    + intros _ s2 _.
      apply (not_diverge (frame_outside (installer_area W))),
        run_download_and_register.
Qed.

(** An unpinned install ends when the fuel exceeds the rank of the package. *)
Lemma install_unpinned_not_diverge fuel package_name s0 :
  rank package_name < fuel -> same_repositories W s s0 ->
  install_package W fuel package_name None None s0 <> Diverge.
Proof.
  revert package_name s0.
  induction fuel as [|fuel IH]; intros package_name s0 Hlt Hs0; [lia|].
  simpl. apply bind_not_diverge.
  { apply (not_diverge (frame_outside (installer_area W))), run_load_packages. }
  intros packages s1 Hload. apply load_packages_Ret in Hload as ->.
  destruct (mem package_name packages); [discriminate|].
  apply bind_not_diverge.
  { apply (not_diverge (frame_outside (installer_area W))), run_find_package. }
  intros l s1 Hfind. pose proof (find_package_Ret _ _ _ _ _ Hfind) as ->.
  destruct l as [|info rest]; [discriminate|].
  unfold install_checked. destruct (info_truthy info); [|discriminate].
  apply install_found_not_diverge; [| 
    |exact Hs0].
  - intros dep. apply run_install_package.
  - intros d s' Hd Hs'. apply IH; [|exact Hs'].
    assert (find_package W package_name s = Ret (info :: rest) s) as Hfind0.
    { rewrite (find_package_agree W _ _ _ Hs0) in Hfind.
      destruct (find_package W package_name s) as [l' s2|e s2|] eqn:E;
        try discriminate.
      apply find_package_Ret in E as Hs2. subst s2.
      simpl in Hfind. now injection Hfind as ->. }
    pose proof (Hacyclic _ _ _ _ Hfind0 Hd). lia.
Qed.

Lemma rank_le_sum (l : list string) d :
  d ∈ l -> rank d <= foldr (fun x acc => rank x + acc) 0 l.
Proof.
  induction l as [|x l IH]; intros H; [inversion H|].
  simpl. apply elem_of_cons in H as [->|H]; [lia|].
  specialize (IH H). lia.
Qed.

End Ranked.

End Termination.

(** C2, as amended: an install returns at once, without re-installing,
    for a package that is already in the registry; and whenever the
    dependency graph has no cycle (some ranking decreases along every
    declared dependency), the install procedure terminates: it returns or
    raises for every large enough recursion budget.  Nothing is promised
    for cyclic graphs. *)
Theorem install_terminates_without_cycles W s rank package_name version repo_name :
  acyclic W s rank ->
  (forall packages fuel,
     load_packages W s = Ret packages s -> mem package_name packages = true ->
     install_package W (S fuel) package_name version repo_name s
     = Ret false (mkState (config s) (fs s)
                    (out s ++ [MsgAlreadyInstalled package_name]) (clock s))) /\
  exists fuel, forall n, fuel <= n ->
    install_package W n package_name version repo_name s <> Diverge.
Proof.
  intros Hacyclic. split.
  { intros packages fuel Hload Hmem. simpl.
    now rewrite (bind_Ret _ _ _ _ _ Hload), Hmem. }
  pose (deps := match nonempty repo_name with
                | Some r => pinned_dependencies W s r package_name
                | None => []
                end).
  exists (2 + rank package_name + foldr (fun x acc => rank x + acc) 0 deps).
  intros [|n] Hn; [lia|]. simpl. apply bind_not_diverge.
  { apply (not_diverge (frame_outside (installer_area W))), run_load_packages. }
  intros packages s1 Hload. apply load_packages_Ret in Hload as ->.
  destruct (mem package_name packages); [discriminate|].
  subst deps. destruct (nonempty repo_name) as [r|].
  - apply bind_not_diverge.
    { apply (not_diverge (frame_outside (installer_area W))),
        run_load_repository. }
    intros o s1 Hrepo. pose proof (load_repository_Ret _ _ _ _ _ Hrepo) as ->.
    destruct o as [m|]; [|discriminate].
    unfold install_checked.
    destruct (get package_name (m_packages m)) as [info|] eqn:G; [|discriminate].
    destruct (info_truthy info); [|discriminate].
    apply (install_found_not_diverge W s);
      [|  |apply same_repositories_refl].
    + intros dep. apply run_install_package.
    + intros d s' Hd Hs'.
      apply (install_unpinned_not_diverge W s rank Hacyclic); [|exact Hs'].
      unfold pinned_dependencies in Hn. rewrite Hrepo, G in Hn.
      pose proof (rank_le_sum rank _ _ Hd). lia.
  - apply bind_not_diverge.
    { apply (not_diverge (frame_outside (installer_area W))), run_find_package. }
    intros l s1 Hfind. pose proof (find_package_Ret _ _ _ _ _ Hfind) as ->.
    destruct l as [|info rest]; [discriminate|].
    unfold install_checked. destruct (info_truthy info); [|discriminate].
    apply (install_found_not_diverge W s);
      [|  |apply same_repositories_refl].
    + intros dep. apply run_install_package.
    + intros d s' Hd Hs'.
      apply (install_unpinned_not_diverge W s rank Hacyclic); [|exact Hs'].
      pose proof (Hacyclic _ _ _ _ Hfind Hd). lia.
Qed.

(** The example repository has no dependency cycle. *)
Lemma demo_state_acyclic : acyclic demo_world demo_state demo_rank.
Proof.
  intros name info rest dep Hfind Hdep.
  assert (load_repository demo_world "main" demo_state
          = Ret (Some demo_manifest) demo_state) as Hmain by by_computation.
  assert (load_repository demo_world "extras" demo_state
          = Ret None demo_state) as Hextras by by_computation.
  assert (keys (repositories (config demo_state)) = ["main"; "extras"]) as Hcfg
    by by_computation.
  unfold find_package, bind, gets in Hfind. rewrite Hcfg in Hfind.
  rewrite (find_in_cons _ _ _ _ _ _ Hmain) in Hfind.
  unfold bind in Hfind.
  rewrite (find_in_cons _ _ _ _ _ _ Hextras) in Hfind.
  clear Hmain Hextras Hcfg. generalize dependent demo_state. intros s Hfind.
  unfold demo_rank. cbn in Hfind.
  repeat match type of Hfind with
         | context [String.eqb name ?k] =>
             destruct (String.eqb_spec name k) as [->|?]
         end;
    cbn in Hfind; try discriminate;
    injection Hfind as <- <-; unfold declared_dependencies in Hdep;
    cbn in Hdep;
    repeat match type of Hdep with
           | _ ∈ _ :: _ => apply elem_of_cons in Hdep as [->|Hdep]
           | _ ∈ [] => inversion Hdep
           end;
    cbn; lia.
Qed.

Lemma install_terminates_without_cycles_witness :
  exists fuel, forall n, fuel <= n ->
    install_package demo_world n "A" None None demo_state <> Diverge.
Proof.
  apply (install_terminates_without_cycles demo_world demo_state demo_rank).
  exact demo_state_acyclic.
Defined.

(** On the cyclic repository the install of [A] calls the install of [B],
    which calls the install of [A], and so on: neither registers itself
    before it recurses, so the recursion is unbounded and no recursion
    budget is enough. *)
Lemma cyclic_installs_diverge fuel s :
  config s = config cyclic_state -> fs s = fs cyclic_state ->
  install_package demo_world fuel "A" None None s = Diverge /\
  install_package demo_world fuel "B" None None s = Diverge.
Proof.
  revert s. induction fuel as [|fuel IH]; intros s Hc Hf; [now split|].
  pose (A := mkPackageInfo (Some "1.0") (Some "http://r/A.zip") None (Some ["B"])
               None (Some "main")).
  pose (B := mkPackageInfo (Some "2.0") (Some "http://r/B.zip") None (Some ["A"])
               None (Some "main")).
  assert (load_packages demo_world cyclic_state = Ret [] cyclic_state) as Hload0
    by by_computation.
  assert (find_package demo_world "A" cyclic_state = Ret [A] cyclic_state) as HA0
    by by_computation.
  assert (find_package demo_world "B" cyclic_state = Ret [B] cyclic_state) as HB0
    by by_computation.
  assert (same_repositories demo_world cyclic_state s) as Hsame.
  { split; [exact Hc|]. intros r. now rewrite Hf. }
  assert (load_packages demo_world s = Ret [] s) as Hload.
  { rewrite (load_packages_agree _ _ cyclic_state), Hload0; [reflexivity|].
    now rewrite Hf. }
  assert (find_package demo_world "A" s = Ret [A] s) as HfindA
    by now rewrite (find_package_agree _ _ _ _ Hsame), HA0.
  assert (find_package demo_world "B" s = Ret [B] s) as HfindB
    by now rewrite (find_package_agree _ _ _ _ Hsame), HB0.
  destruct (IH (mkState (config s) (fs s)
                  (out s ++ [MsgInstallingDependency "A"]) (clock s)) Hc Hf)
    as [HA _].
  destruct (IH (mkState (config s) (fs s)
                  (out s ++ [MsgInstallingDependency "B"]) (clock s)) Hc Hf)
    as [_ HB].
  assert (resolve_dependencies demo_world A s = Ret [("B", B)] s) as HresA.
  { unfold resolve_dependencies, A at 1. simpl.
    now rewrite (bind_Ret _ _ _ _ _ HfindB). }
  assert (resolve_dependencies demo_world B s = Ret [("A", A)] s) as HresB.
  { unfold resolve_dependencies, B at 1. simpl.
    now rewrite (bind_Ret _ _ _ _ _ HfindA). }
  clearbody A B. clear Hload0 HA0 HB0.
  split.
  - rewrite (install_package_found demo_world fuel "A" None None s [] A
               Hload eq_refl (ex_intro _ [] HfindA)).
    rewrite (install_found_resolved _ _ _ _ _ _ _ _ _ HresA).
    unfold bind. now rewrite install_dependencies_cons, HB.
  - rewrite (install_package_found demo_world fuel "B" None None s [] B
               Hload eq_refl (ex_intro _ [] HfindB)).
    rewrite (install_found_resolved _ _ _ _ _ _ _ _ _ HresB).
    unfold bind. now rewrite install_dependencies_cons, HA.
Qed.

(** The claim as stated fails on the simple cycle: whatever the recursion
    budget, the install of [A] exhausts it. *)
Lemma cyclic_install_never_ends :
  ~ exists fuel,
      install_package demo_world fuel "A" None None cyclic_state <> Diverge.
Proof.
  intros [fuel H]. apply H.
  now apply cyclic_installs_diverge.
Qed.

(** ** The steps of an install *)

(** Splits a run of [m ;; k] that returned into the run of [m] and the
    run of [k]. *)
Ltac invert_bind H a s' Ha :=
  apply bind_Ret_inv in H as (a & s' & Ha & H).

Section Install_steps.

Context (W : world).





Lemma print_Ret m s u s' :
  print m s = Ret u s' ->
  s' = mkState (config s) (fs s) (out s ++ [m]) (clock s).
Proof. unfold print, modify. now intros [= _ <-]. Qed.

Lemma print_then_ret {X} m (x y : X) s s' :
  (print m ;; ret x) s = Ret y s' -> y = x /\ last (out s') = Some m.
Proof.
  unfold bind, print, modify, ret. intros [= <- <-]. split; [reflexivity|].
  simpl. apply last_snoc.
Qed.

(** A failed download ends with its failure line. *)
Lemma download_file_false url destination s s' :
  download_file W url destination s = Ret false s' ->
  last (out s') = Some MsgDownloadFailed.
Proof.
  unfold download_file. intros H.
  invert_bind H t s1 Ht. invert_bind H timeout s2 Hto.
  destruct (http_get W t url timeout) as [| |total chunks complete].
  - now apply print_then_ret in H.
  - discriminate.
  - invert_bind H u1 s3 Hopen. invert_bind H u2 s4 Hchunks.
    destruct complete; apply print_then_ret in H as [? ?];
      [discriminate|assumption].
Qed.


(** Extraction writes below the destination, never the destination itself. *)
Lemma write_members_dest (dest : path) (members : list (path * node))
    (m : gmap path node) :
  write_members dest members m !! dest = m !! dest.
Proof.
  revert m. induction members as [|[rel n] members IH]; intros m;
    [reflexivity|].
  simpl. destruct rel as [|x rel]; [apply IH|].
  rewrite IH. apply lookup_insert_ne. intros H.
  apply (f_equal length) in H. rewrite length_app in H. simpl in H. lia.
Qed.



End Install_steps.

(** ** A failed extraction *)

Section Failed_extraction.

Context (W : world).


End Failed_extraction.

(** ** Missing dependencies *)

Section Missing_dependency.

Context (W : world).




(** Lines 217-233: a successful install writes the dictionary that was
    loaded on entry, with the entry of the package added, as the registry. *)
Lemma download_and_register_true package_name version info packages s s' :
  download_and_register W package_name version info packages s = Ret true s' ->
  exists entry,
    load_packages W s' = Ret (set package_name entry packages) s'.
Proof.
  unfold download_and_register. cbv zeta. intros H.
  invert_bind H url s1 Hurl. invert_bind H u1 s2 Hprint.
  invert_bind H downloaded s3 Hdownload.
  destruct downloaded; simpl in H; [|discriminate].
  invert_bind H u2 s4 Hmkdir. invert_bind H extracted s5 Hextract.
  destruct extracted; simpl in H.
  2:{ now apply print_then_ret in H as [? _]. }
  invert_bind H t s6 Ht. invert_bind H hash s7 Hhash.
  invert_bind H u3 s8 Hsave. invert_bind H u4 s9 Hshim.
  apply bind_Ret_inv in H as (u5 & s10 & Hdone & Hret).
  injection Hret as <-. apply print_Ret in Hdone. subst s10.
  eexists. apply load_packages_written. simpl.
  pose proof (run_create_shim W False (shim_area W package_name) package_name info
                (or_introl eq_refl) (or_intror eq_refl) s8) as F.
  rewrite Hshim in F. destruct F as [_ F]. rewrite F.
  - unfold save_packages, write_file in Hsave.
    destruct (is_dir (fs s7) (packages_file W)); [discriminate|].
    destruct (is_dir (fs s7) (parent (packages_file W))); [|discriminate].
    injection Hsave as _ <-. simpl. apply lookup_insert_eq.
  - intros [E|E].
    + unfold packages_file, shim_dir in E. apply child_inj in E as [_ E].
      discriminate.
    + now apply (shim_file_not_packages_file W package_name).
Qed.

End Missing_dependency.

Lemma get_set_eq {A} name (v : A) (d : dict A) : get name (set name v d) = Some v.
Proof.
  induction d as [|[k w] d IH]; simpl.
  - now rewrite String.eqb_refl.
  - destruct (String.eqb name k) eqn:E; simpl; now rewrite E.
Qed.

(** The example of the specification: installing [app], whose manifest
    lists the unavailable [missinglib], prints the warning and installs
    [app]. *)
Lemma install_app_with_missinglib :
  outcome (install_package demo_world 1 "app" None None demo_state)
  = Some (inl true) /\
  is_installed demo_world app_state "app" = true /\
  out app_state
  = out demo_state ++
    [MsgWarningDependencyNotFound "missinglib"; MsgInstalling "app" "0.3";
     MsgDownloading 3 6; MsgDownloading 19 6; MsgNewline;
     MsgShimCreated (shim_file demo_world "app"); MsgInstalled "app" "0.3"].
Proof. by_computation. Qed.

(** ** The registry after a successful install *)

(** A successful install leaves as the registry the dictionary it loaded
    on entry with its own entry set: what the installs of its
    dependencies had saved in between is overwritten. *)
Lemma install_writes_over_loaded_registry W fuel package_name version repo_name
    s s' :
  install_package W fuel package_name version repo_name s = Ret true s' ->
  exists packages entry,
    load_packages W s = Ret packages s /\
    load_packages W s' = Ret (set package_name entry packages) s'.
Proof.
  intros H. destruct fuel as [|fuel]; [discriminate|].
  cbn [install_package] in H.
  invert_bind H packages s1 Hload.
  pose proof (load_packages_Ret _ _ _ _ Hload) as ->.
  exists packages.
  destruct (mem package_name packages).
  { now apply print_then_ret in H as [? _]. }
  assert (forall o,
            install_checked W (fun dep => install_package W fuel dep None None)
              package_name version o packages s = Ret true s' ->
            exists entry,
              load_packages W s = Ret packages s /\
              load_packages W s' = Ret (set package_name entry packages) s')
    as Hchecked.
  { intros o Hrun. unfold install_checked in Hrun.
    destruct o as [info|]; [|now apply print_then_ret in Hrun as [? _]].
    destruct (info_truthy info);
      [|now apply print_then_ret in Hrun as [? _]].
    unfold install_found in Hrun.
    invert_bind Hrun resolved s0 Hres. invert_bind Hrun u s1 Hdeps.
    destruct (download_and_register_true W _ _ _ _ _ _ Hrun) as [entry Hreg].
    now exists entry. }
  destruct (nonempty repo_name) as [repo|].
  - invert_bind H o s1 Hrepo.
    pose proof (load_repository_Ret _ _ _ _ _ Hrepo) as ->.
    destruct o as [m|]; [|discriminate]. now apply Hchecked in H.
  - invert_bind H l s1 Hfind.
    pose proof (find_package_Ret _ _ _ _ _ Hfind) as ->.
    destruct l as [|info rest]; [now apply print_then_ret in H as [? _]|].
    now apply Hchecked in H.
Qed.

(** ** Installing a package with a dependency *)

(** C5 (the code departs from the claim): installing [A], which depends
    on the available and not yet installed [B], returns success and
    installs the files and the shim of [B], but the registry then lists
    [A] only.  [install_package] loads the registry before it installs
    the dependencies and writes that stale dictionary back with its own
    entry, which erases the entry that the install of [B] had saved. *)
Theorem install_with_dependency_drops_its_entry :
  outcome (install_package demo_world 2 "A" None None demo_state) = Some (inl true) /\
  is_installed demo_world dependent_state "A" = true /\
  is_installed demo_world dependent_state "B" = false /\
  fs dependent_state !! (install_dir demo_world </> "B") = Some Dir /\
  fs dependent_state !! (install_dir demo_world </> "B" </> "bin" </> "tool.exe")
  = Some (File (Raw "ziphttp://r/B.zip")) /\
  fs dependent_state !! shim_file demo_world "B"
  = Some (File (ShimDoc (install_dir demo_world </> "B" </> "B.exe"))).
Proof. by_computation. Qed.

(** When [B] is already registered, installing [A] does not install it
    again, and both end up registered. *)
Lemma install_with_installed_dependency :
  outcome (install_package demo_world 2 "A" None None installed_state)
  = Some (inl true) /\
  is_installed demo_world
    (final_state (install_package demo_world 2 "A" None None installed_state)
       installed_state) "B" = true /\
  out (final_state (install_package demo_world 2 "A" None None installed_state)
         installed_state)
  = out installed_state ++
    [MsgInstallingDependency "B"; MsgAlreadyInstalled "B"; MsgInstalling "A" "1.0";
     MsgDownloading 3 6; MsgDownloading 17 6; MsgNewline;
     MsgShimCreated (shim_file demo_world "A"); MsgInstalled "A" "1.0"].
Proof. by_computation. Qed.

(** ** What an install can add to the registry *)

Section Registry_growth.

Context (W : world).









End Registry_growth.

Lemma get_set_ne {A} name k (v : A) (d : dict A) :
  k <> name -> get k (set name v d) = get k d.
Proof.
  intros Hne. induction d as [|[k' w] d IH]; simpl.
  - now destruct (String.eqb_spec k name).
  - destruct (String.eqb_spec name k') as [->|Hk]; simpl.
    + now destruct (String.eqb_spec k k').
    + now rewrite IH.
Qed.

Section Unregistered.

Context (W : world) (s : state) (rank : string -> nat) (Y : string).
Hypothesis Hacyclic : acyclic W s rank.





End Unregistered.



Lemma outcome_Ret {A} (r : res A) v d :
  outcome r = Some (inl v) -> r = Ret v (final_state r d).
Proof. destruct r; simpl; congruence. Qed.



(** * Further properties *)

(** ** Dictionaries *)

Section Dict_facts.

Context {A : Type}.

Lemma mem_false (k : string) (d : dict A) : mem k d = false <-> get k d = None.
Proof. unfold mem. destruct (get k d); split; congruence. Qed.

Lemma set_fresh (k : string) (v : A) (d : dict A) :
  get k d = None -> set k v d = d ++ [(k, v)].
Proof.
  induction d as [|[k' v'] d IH]; simpl; [reflexivity|].
  destruct (String.eqb k k'); [discriminate|]. intros H. now rewrite IH.
Qed.

Lemma del_fresh (k : string) (d : dict A) : get k d = None -> del k d = d.
Proof.
  unfold del. induction d as [|[k' v'] d IH]; simpl; [reflexivity|].
  destruct (String.eqb k k') eqn:E; [discriminate|]. simpl.
  intros H. now rewrite IH.
Qed.

Lemma del_set_fresh (k : string) (v : A) (d : dict A) :
  get k d = None -> del k (set k v d) = d.
Proof.
  intros H. rewrite (set_fresh _ _ _ H). unfold del.
  rewrite List.filter_app. simpl. rewrite String.eqb_refl. simpl.
  rewrite app_nil_r. now apply del_fresh.
Qed.

Lemma get_del_ne (k k' : string) (d : dict A) :
  k <> k' -> get k' (del k d) = get k' d.
Proof.
  intros Hne. unfold del. induction d as [|[k0 v0] d IH]; simpl; [reflexivity|].
  destruct (String.eqb k k0) eqn:E; simpl.
  - apply String.eqb_eq in E as <-.
    destruct (String.eqb k' k) eqn:E'; [|exact IH].
    apply String.eqb_eq in E'. congruence.
  - destruct (String.eqb k' k0); [reflexivity|exact IH].
Qed.

End Dict_facts.

(** ** Files and directories *)

Lemma parent_ne (p : path) : p <> [] -> parent p <> p.
Proof.
  intros Hp E. apply (f_equal length) in E. unfold parent in E.
  rewrite removelast_firstn_len, length_take in E.
  destruct p; [congruence|simpl in E; lia].
Qed.

Lemma is_dir_insert_ne (m : gmap path node) p q n :
  q <> p -> is_dir (<[p := n]> m) q = is_dir m q.
Proof.
  intros H. unfold is_dir. destruct q; [reflexivity|].
  now rewrite lookup_insert_ne.
Qed.

Lemma is_dir_insert_File (m : gmap path node) p c :
  p <> [] -> is_dir (<[p := File c]> m) p = false.
Proof.
  intros H. unfold is_dir. destruct p; [congruence|].
  now rewrite lookup_insert_eq.
Qed.

Lemma is_dir_insert_Dir (m : gmap path node) p : is_dir (<[p := Dir]> m) p = true.
Proof. unfold is_dir. destruct p; [reflexivity|]. now rewrite lookup_insert_eq. Qed.

Lemma is_dir_not_root (m : gmap path node) p : is_dir m p = false -> p <> [].
Proof. intros H ->. discriminate. Qed.

Lemma writable_not_root (m : gmap path node) p : writable m p -> p <> [].
Proof. intros [H _]. now apply is_dir_not_root in H. Qed.

(** Writing a file keeps it writable. *)
Lemma writable_insert_same (m : gmap path node) p c :
  writable m p -> writable (<[p := File c]> m) p.
Proof.
  intros [Hp Hd]. pose proof (is_dir_not_root _ _ Hp) as Hne. split.
  - now apply is_dir_insert_File.
  - rewrite is_dir_insert_ne; [exact Hd|now apply parent_ne].
Qed.

Lemma write_file_writable p c s :
  writable (fs s) p -> write_file p c s = Ret tt (set_fs (insert p (File c)) s).
Proof. intros [Hp Hd]. now apply write_file_Ret. Qed.

(** A write either puts the file in place or raises and changes nothing. *)
Lemma write_file_cases p c s :
  write_file p c s = Ret tt (set_fs (insert p (File c)) s) \/
  exists e, write_file p c s = Raise e s.
Proof.
  unfold write_file. destruct (is_dir (fs s) p); [right; eauto|].
  destruct (is_dir (fs s) (parent p)); [now left|right; eauto].
Qed.

Section File_facts.

Context (W : world).

Lemma load_repository_File repo_name s m :
  fs s !! repo_file W repo_name = Some (File (ManifestDoc m)) ->
  load_repository W repo_name s = Ret (Some m) s.
Proof.
  intros H. unfold load_repository, bind, path_exists, gets, read_file.
  cbv zeta. simpl. now rewrite !H.
Qed.

Lemma repo_file_not_config_file repo_name : repo_file W repo_name <> config_file W.
Proof.
  intros E. apply (f_equal length) in E.
  unfold repo_file, repos_dir, config_file, child in E.
  rewrite !length_app in E. simpl in E. lia.
Qed.

Lemma config_file_parent : parent (config_file W) = base_dir W.
Proof. apply parent_child. Qed.

Lemma repo_file_parent repo_name : parent (repo_file W repo_name) = repos_dir W.
Proof. apply parent_child. Qed.

End File_facts.

(** ** Adding and removing repositories *)

Section Repository_commands.

Context (W : world).

(** Lines 298-306: a new name is added to the configuration, which is
    saved; what follows is the download of the manifest. *)
Lemma add_repository_fresh repo_name repo_url s :
  get repo_name (repositories (config s)) = None ->
  writable (fs s) (config_file W) ->
  add_repository W repo_name repo_url s
  = fetch_manifest W repo_name repo_url
      (configured W (with_repository repo_name repo_url (config s)) s).
Proof.
  intros Hfresh [Hp Hd]. apply mem_false in Hfresh.
  unfold add_repository, bind at 1, gets. rewrite Hfresh.
  unfold bind at 1, modify. unfold bind at 1, save_config, bind at 1, gets.
  unfold write_file at 1. simpl. rewrite Hp, Hd. reflexivity.
Qed.

(** The download of the manifest ends with a result whatever happens; it
    changes at most the cached manifest, and reports success only when the
    manifest is in place. *)
Lemma fetch_manifest_run repo_name repo_url s :
  let answer := http_get_manifest W (clock s) (urljoin W repo_url "repository.json") in
  exists b s',
    fetch_manifest W repo_name repo_url s = Ret b s' /\
    config s' = config s /\
    (forall p, p <> repo_file W repo_name -> fs s' !! p = fs s !! p) /\
    (b = true ->
     exists m, answer = ManifestOk m /\
               fs s' !! repo_file W repo_name = Some (File (ManifestDoc m))) /\
    (writable (fs s) (repo_file W repo_name) ->
     match answer with
     | ManifestOk m =>
         b = true /\ fs s' !! repo_file W repo_name = Some (File (ManifestDoc m))
     | ManifestInvalid =>
         b = false /\ fs s' !! repo_file W repo_name = Some (File (Raw ""))
     | ManifestError => b = false
     end) /\
    (answer = ManifestError -> b = false /\ fs s' = fs s) /\
    (fs s' !! repo_file W repo_name = fs s !! repo_file W repo_name \/
     exists c, fs s' !! repo_file W repo_name = Some (File c)).
Proof.
  intros answer. unfold fetch_manifest, try_except, bind at 1, tick. cbv zeta.
  fold answer. destruct answer as [| |m] eqn:E.
  - eexists false, _. unfold raise, bind, print, modify. simpl.
    split; [reflexivity|].
    repeat split; try reflexivity; try (intros; discriminate). now left.
  - unfold bind at 1.
    set (s1 := mkState (config s) (fs s) (out s) (S (clock s))).
    destruct (write_file_cases (repo_file W repo_name) (Raw "") s1) as [Hw|[e Hw]];
      rewrite Hw; unfold raise, bind, print, modify; simpl.
    + eexists false, _. split; [reflexivity|]. simpl.
      repeat split; try discriminate.
      * intros p Hp. now apply lookup_insert_ne.
      * apply lookup_insert_eq.
      * right. eexists. apply lookup_insert_eq.
    + eexists false, _. split; [reflexivity|]. simpl.
      split; [reflexivity|]. split; [reflexivity|]. split; [discriminate|].
      split; [|split; [discriminate|now left]].
      intros Hwr. exfalso. rewrite (write_file_writable _ _ s1 Hwr) in Hw.
      discriminate.
  - unfold bind at 1.
    set (s1 := mkState (config s) (fs s) (out s) (S (clock s))).
    destruct (write_file_cases (repo_file W repo_name) (ManifestDoc m) s1)
      as [Hw|[e Hw]]; rewrite Hw; unfold raise, ret, bind, print, modify; simpl.
    + eexists true, _. split; [reflexivity|]. simpl.
      repeat split; try discriminate.
      * intros p Hp. now apply lookup_insert_ne.
      * exists m. split; [reflexivity|apply lookup_insert_eq].
      * apply lookup_insert_eq.
      * right. eexists. apply lookup_insert_eq.
    + eexists false, _. split; [reflexivity|]. simpl.
      split; [reflexivity|]. split; [reflexivity|]. split; [discriminate|].
      split; [|split; [discriminate|now left]].
      intros Hwr. exfalso. rewrite (write_file_writable _ _ s1 Hwr) in Hw.
      discriminate.
Qed.

Lemma base_dir_not_config_file : base_dir W <> config_file W.
Proof.
  intros E. apply (f_equal length) in E. unfold config_file, child in E.
  rewrite length_app in E. simpl in E. lia.
Qed.


Lemma repos_dir_not_config_file : repos_dir W <> config_file W.
Proof. intros E. apply child_inj in E as [_ E]. discriminate. Qed.


(** Saving the configuration does not make a manifest file unwritable. *)
Lemma writable_repo_file_configured c s repo_name :
  writable (fs s) (repo_file W repo_name) ->
  writable (fs (configured W c s)) (repo_file W repo_name).
Proof.
  intros [Hp Hd]. split; simpl.
  - rewrite is_dir_insert_ne; [exact Hp|apply repo_file_not_config_file].
  - rewrite is_dir_insert_ne; [exact Hd|].
    rewrite repo_file_parent. apply repos_dir_not_config_file.
Qed.

Lemma load_config_written s :
  fs s !! config_file W = Some (File (ConfigDoc (config s))) ->
  load_config W s = Ret tt s.
Proof.
  intros H. unfold load_config, bind, read_file. rewrite H.
  unfold modify, set_config. now destruct s.
Qed.

Lemma load_repository_total repo_name s : load_repository W repo_name s <> Diverge.
Proof.
  unfold load_repository, bind, path_exists, gets, read_file. cbv zeta.
  destruct (fs s !! repo_file W repo_name) as [[[]|]|] eqn:E; simpl;
    rewrite ?E; try discriminate.
  destruct (is_dir (fs s) (repo_file W repo_name)); simpl; rewrite ?E;
    destruct (is_dir (fs s) (repo_file W repo_name)); discriminate.
Qed.

Lemma load_repository_Raise repo_name s e s' :
  load_repository W repo_name s = Raise e s' -> s' = s.
Proof.
  intros E.
  pose proof (load_repository_agree W repo_name s s eq_refl) as H.
  rewrite E in H. simpl in H. congruence.
Qed.

(** A cached manifest that cannot be read makes every lookup raise. *)
Lemma find_in_raises names package_name s r e :
  r ∈ names -> load_repository W r s = Raise e s ->
  exists e', find_in W names package_name s = Raise e' s.
Proof.
  intros Hin Hr. induction names as [|r0 names IH]; [now apply elem_of_nil in Hin|].
  destruct (load_repository W r0 s) as [o s1|e0 s1|] eqn:E0.
  - pose proof (load_repository_Ret _ _ _ _ _ E0) as ->.
    rewrite (find_in_cons _ _ _ _ _ _ E0).
    apply elem_of_cons in Hin as [->|Hin]; [congruence|].
    destruct (IH Hin) as [e' He']. exists e'.
    destruct (o ≫= _); [|exact He']. unfold bind. now rewrite He'.
  - pose proof (load_repository_Raise _ _ _ _ E0) as ->.
    exists e0. simpl. unfold bind. now rewrite E0.
  - now apply load_repository_total in E0.
Qed.

Lemma load_repository_empty_file repo_name s :
  fs s !! repo_file W repo_name = Some (File (Raw "")) ->
  load_repository W repo_name s = Raise (JSONDecodeError (repo_file W repo_name)) s.
Proof.
  intros H. unfold load_repository, bind, path_exists, gets, read_file.
  cbv zeta. simpl. now rewrite !H.
Qed.

Lemma get_repository_url_configured repo_name s info :
  get repo_name (repositories (config s)) = Some info ->
  get_repository_url repo_name s = Ret (Some (repo_url info)) s.
Proof. intros H. unfold get_repository_url, bind, gets, ret. now rewrite H. Qed.

(** The run of [add_repository] on a new name. *)
Lemma add_repository_run repo_name repo_url s :
  get repo_name (repositories (config s)) = None ->
  writable (fs s) (config_file W) ->
  let cfg := with_repository repo_name repo_url (config s) in
  let answer := http_get_manifest W (clock s) (urljoin W repo_url "repository.json") in
  exists b s',
    add_repository W repo_name repo_url s = Ret b s' /\
    config s' = cfg /\
    fs s' !! config_file W = Some (File (ConfigDoc cfg)) /\
    (forall p, p <> config_file W -> p <> repo_file W repo_name ->
               fs s' !! p = fs s !! p) /\
    (b = true ->
     exists m, answer = ManifestOk m /\
               fs s' !! repo_file W repo_name = Some (File (ManifestDoc m))) /\
    (writable (fs s) (repo_file W repo_name) ->
     match answer with
     | ManifestOk m =>
         b = true /\ fs s' !! repo_file W repo_name = Some (File (ManifestDoc m))
     | ManifestInvalid =>
         b = false /\ fs s' !! repo_file W repo_name = Some (File (Raw ""))
     | ManifestError => b = false
     end) /\
    (fs s' !! repo_file W repo_name = fs s !! repo_file W repo_name \/
     exists c, fs s' !! repo_file W repo_name = Some (File c)).
Proof.
  intros Hfresh Hw cfg answer.
  rewrite (add_repository_fresh _ _ _ Hfresh Hw). fold cfg.
  destruct (fetch_manifest_run repo_name repo_url (configured W cfg s))
    as (b & s' & Hrun & Hc & Hf & Hb & Hwr & _ & Hfile).
  exists b, s'. split; [exact Hrun|]. split; [exact Hc|].
  split; [|split; [|split; [|split]]].
  - rewrite Hf by (apply not_eq_sym, repo_file_not_config_file).
    apply lookup_insert_eq.
  - intros p Hp1 Hp2. rewrite (Hf p Hp2). simpl. now apply lookup_insert_ne.
  - exact Hb.
  - intros H. apply Hwr. now apply writable_repo_file_configured.
  - destruct Hfile as [Hfile|Hfile]; [left|now right].
    rewrite Hfile. simpl. apply lookup_insert_ne, not_eq_sym, repo_file_not_config_file.
Qed.

(** The run of [remove_repository] on a configured name. *)
Lemma remove_repository_run repo_name s :
  mem repo_name (repositories (config s)) = true ->
  writable (fs s) (config_file W) ->
  fs s !! repo_file W repo_name <> Some Dir ->
  let cfg := without_repository repo_name (config s) in
  exists s',
    remove_repository W repo_name s = Ret true s' /\
    config s' = cfg /\
    fs s' !! config_file W = Some (File (ConfigDoc cfg)) /\
    fs s' !! repo_file W repo_name = None /\
    (forall p, p <> config_file W -> p <> repo_file W repo_name ->
               fs s' !! p = fs s !! p) /\
    out s' = out s ++ [MsgRepositoryRemoved repo_name] /\
    clock s' = clock s.
Proof.
  intros Hmem [Hp Hd] Hfile cfg.
  unfold remove_repository, bind at 1, gets. rewrite Hmem.
  unfold bind at 1, modify. unfold bind at 1, save_config, bind at 1, gets.
  unfold write_file at 1. simpl. rewrite Hp, Hd.
  fold (without_repository repo_name (config s)). fold cfg.
  fold (configured W cfg s).
  destruct (remove_shim (repo_file W repo_name) (configured W cfg s))
    as (s1 & Hk & Hc & Ho & Hcl & Hnone & Hkeep).
  { apply child_not_nil. }
  { simpl. rewrite lookup_insert_ne by (apply not_eq_sym, repo_file_not_config_file).
    exact Hfile. }
  rewrite Hk. unfold bind, print, modify, ret.
  eexists. split; [reflexivity|]. simpl.
  split; [exact Hc|]. split; [|split; [exact Hnone|split; [|split]]].
  - rewrite Hkeep by (apply not_eq_sym, repo_file_not_config_file).
    apply lookup_insert_eq.
  - intros p Hp1 Hp2. rewrite (Hkeep p Hp2). simpl. now apply lookup_insert_ne.
  - now rewrite Ho.
  - exact Hcl.
Qed.

End Repository_commands.


(** X2: when the repository answers with a manifest and the manifest file
    can be written, adding the repository, under a name that is a file
    name, succeeds and caches exactly that manifest. *)
Theorem add_repository_caches_manifest W repo_name repo_url s m :
  plain repo_name = true ->
  mem repo_name (repositories (config s)) = false ->
  writable (fs s) (config_file W) ->
  writable (fs s) (repo_file W repo_name) ->
  http_get_manifest W (clock s) (urljoin W repo_url "repository.json") = ManifestOk m ->
  exists s',
    add_repository W repo_name repo_url s = Ret true s' /\
    load_repository W repo_name s' = Ret (Some m) s' /\
    last (out s') = Some (MsgRepositoryAdded repo_name).
Proof.
  intros _ Hfresh Hw Hwr Hanswer. apply mem_false in Hfresh.
  rewrite (add_repository_fresh _ _ _ _ Hfresh Hw).
  pose proof (writable_repo_file_configured W
                (with_repository repo_name repo_url (config s)) s _ Hwr) as Hwr'.
  unfold fetch_manifest, try_except, bind at 1, tick. cbv zeta.
  change (clock (configured W _ s)) with (clock s). rewrite Hanswer.
  unfold bind at 1. rewrite write_file_writable by exact Hwr'.
  unfold bind, print, modify, ret. eexists. split; [reflexivity|].
  split.
  - apply load_repository_File. simpl. apply lookup_insert_eq.
  - simpl. apply last_snoc.
Qed.

(** X3: when the repository answers with a body that is not a JSON
    document, adding it fails, but the repository stays configured and an
    empty manifest file is left behind; from then on the lookup of any
    package raises instead of returning.  The name of the repository is a
    file name. *)
Theorem add_repository_invalid_manifest W repo_name repo_url s :
  plain repo_name = true ->
  mem repo_name (repositories (config s)) = false ->
  writable (fs s) (config_file W) ->
  writable (fs s) (repo_file W repo_name) ->
  http_get_manifest W (clock s) (urljoin W repo_url "repository.json")
  = ManifestInvalid ->
  exists s',
    add_repository W repo_name repo_url s = Ret false s' /\
    get_repository_url repo_name s' = Ret (Some repo_url) s' /\
    fs s' !! repo_file W repo_name = Some (File (Raw "")) /\
    forall package_name,
      exists e, find_package W package_name s' = Raise e s'.
Proof.
  intros _ Hfresh Hw Hwr Hanswer. apply mem_false in Hfresh.
  destruct (add_repository_run W repo_name repo_url s Hfresh Hw)
    as (b & s' & Hrun & Hc & _ & _ & _ & Hb & _).
  specialize (Hb Hwr). rewrite Hanswer in Hb. destruct Hb as [-> Hfile].
  exists s'. split; [exact Hrun|].
  assert (get repo_name (repositories (config s'))
          = Some (mkRepoInfo repo_url
                    (Z.of_nat (length (repositories (config s))) + 1))) as Hget.
  { rewrite Hc. simpl. apply get_set_eq. }
  split; [|split; [exact Hfile|]].
  - unfold get_repository_url, bind, gets, ret. now rewrite Hget.
  - intros package_name. unfold find_package, bind at 1, gets.
    apply (find_in_raises W _ _ _ repo_name (JSONDecodeError (repo_file W repo_name))).
    + apply get_In in Hget. unfold keys.
      apply list_elem_of_fmap. now exists (repo_name, mkRepoInfo repo_url
        (Z.of_nat (length (repositories (config s))) + 1)).
    + now apply load_repository_empty_file.
Qed.

(** X4: [add_repository] never changes an entry that is already
    configured: a name in use is rejected with its entry untouched, and a
    new name leaves the other entries as they are, whether or not the
    configuration can be saved and the manifest fetched. *)
Theorem add_repository_keeps_entries W repo_name repo_url s r info :
  get r (repositories (config s)) = Some info ->
  exists s',
    ends_in (add_repository W repo_name repo_url s) s' /\
    get r (repositories (config s')) = Some info /\
    (r = repo_name -> config s' = config s /\ fs s' = fs s).
Proof.
  intros Hget.
  destruct (get repo_name (repositories (config s))) as [i|] eqn:Hname.
  - unfold add_repository, bind at 1, gets, mem. rewrite Hname.
    unfold bind, print, modify, ret. eexists. split; [reflexivity|].
    simpl. now split.
  - assert (r <> repo_name) as Hne by congruence.
    unfold add_repository, bind at 1, gets, mem. rewrite Hname.
    unfold bind at 1, modify. unfold bind at 1, save_config, bind at 1, gets.
    match goal with
    | |- context [write_file ?p ?c ?s1] =>
        destruct (write_file_cases p c s1) as [Hw|[e Hw]]; rewrite Hw
    end.
    + match goal with
      | |- context [try_except ?m ?h ?s2] =>
          change (try_except m h s2) with (fetch_manifest W repo_name repo_url s2);
          destruct (fetch_manifest_run W repo_name repo_url s2)
            as (b & s' & Hrun & Hc & _)
      end.
      rewrite Hrun. exists s'. split; [reflexivity|]. split; [|congruence].
      rewrite Hc. simpl. now rewrite get_set_ne.
    + eexists. split; [reflexivity|]. split; [|congruence].
      simpl. now rewrite get_set_ne.
Qed.

(** X5: removing a configured repository whose name is a file name, with
    a configuration file that can be written and a manifest path that is
    not a directory, succeeds:
    the repository is no longer configured, the other repositories keep
    their order, URLs and priorities, the configuration is saved, and the
    cached manifest is gone. *)
Theorem remove_repository_removes W repo_name s :
  plain repo_name = true ->
  mem repo_name (repositories (config s)) = true ->
  writable (fs s) (config_file W) ->
  fs s !! repo_file W repo_name <> Some Dir ->
  exists s',
    remove_repository W repo_name s = Ret true s' /\
    repositories (config s') = del repo_name (repositories (config s)) /\
    get_repository_url repo_name s' = Ret None s' /\
    (forall r, r <> repo_name ->
               get r (repositories (config s')) = get r (repositories (config s))) /\
    load_config W s' = Ret tt s' /\
    load_repository W repo_name s' = Ret None s'.
Proof.
  intros _ Hmem Hw Hfile.
  destruct (remove_repository_run W repo_name s Hmem Hw Hfile)
    as (s' & Hrun & Hc & Hcfg & Hnone & _).
  exists s'. split; [exact Hrun|]. split; [now rewrite Hc|].
  split; [|split; [|split]].
  - unfold get_repository_url, bind, gets, ret. rewrite Hc. simpl.
    now rewrite get_del_eq.
  - intros r Hr. rewrite Hc. simpl. apply get_del_ne. congruence.
  - apply load_config_written. now rewrite Hc.
  - now apply load_repository_missing.
Qed.


(** ** Refreshing the manifests *)


Lemma string_append_assoc (a b c : string) :
  ((a ++ b) ++ c = a ++ (b ++ c))%string.
Proof.
  induction a as [|x a IH]; [reflexivity|].
  change (String x ((a ++ b) ++ c) = String x (a ++ (b ++ c)))%string.
  now rewrite IH.
Qed.


Section Refresh_facts.

Context (W : world).






End Refresh_facts.



(** ** Start-up *)

(** Creating a directory that exists already, or where nothing is in the
    way in a directory that exists, succeeds and changes at most that one
    path. *)
Lemma mkdir_exist_ok_run p s :
  is_dir (fs s) p = true \/
  (is_file (fs s) p = false /\ is_dir (fs s) (parent p) = true) ->
  exists s',
    mkdir_exist_ok p s = Ret tt s' /\
    is_dir (fs s') p = true /\
    config s' = config s /\ out s' = out s /\ clock s' = clock s /\
    (forall q, q <> p -> fs s' !! q = fs s !! q) /\
    (is_dir (fs s) p = true -> s' = s).
Proof.
  intros H. unfold mkdir_exist_ok.
  destruct (is_dir (fs s) p) eqn:Hdir.
  - exists s. now repeat split.
  - destruct H as [H|[Hfile Hparent]]; [discriminate|].
    unfold is_file in Hfile. unfold is_dir in Hdir.
    destruct p as [|x p]; [discriminate|].
    destruct (fs s !! (x :: p)) as [[c|]|] eqn:E; try discriminate.
    rewrite Hparent. eexists. split; [reflexivity|]. simpl.
    split; [now rewrite lookup_insert_eq|]. repeat split; try discriminate.
    intros q Hq. now apply lookup_insert_ne.
Qed.

(** What a successful [mkdir] leaves: the directory, and every node that
    was there before. *)
Lemma mkdir_exist_ok_inv p s u s' :
  mkdir_exist_ok p s = Ret u s' ->
  is_dir (fs s') p = true /\
  config s' = config s /\ out s' = out s /\ clock s' = clock s /\
  (forall q n, fs s !! q = Some n -> fs s' !! q = Some n) /\
  (forall q, q <> p -> fs s' !! q = fs s !! q).
Proof.
  unfold mkdir_exist_ok. destruct (is_dir (fs s) p) eqn:Hdir.
  - intros [= _ <-]. now repeat split.
  - destruct (fs s !! p) as [n|] eqn:E; [discriminate|].
    destruct (is_dir (fs s) (parent p)); [|discriminate].
    intros [= _ <-]. simpl. split; [apply is_dir_insert_Dir|].
    repeat split.
    + intros q n Hq. rewrite lookup_insert_ne; [exact Hq|congruence].
    + intros q Hq. now apply lookup_insert_ne.
Qed.

Lemma is_dir_keep (m m' : gmap path node) p :
  (forall q n, m !! q = Some n -> m' !! q = Some n) ->
  is_dir m p = true -> is_dir m' p = true.
Proof.
  intros Hkeep. unfold is_dir. destruct p as [|x p]; [reflexivity|].
  destruct (m !! (x :: p)) as [[c|]|] eqn:E; try discriminate.
  now rewrite (Hkeep _ _ E).
Qed.

Section Start_up.

Context (W : world).

Lemma install_dir_parent : parent (install_dir W) = base_dir W.
Proof. apply parent_child. Qed.

Lemma cache_dir_parent : parent (cache_dir W) = base_dir W.
Proof. apply parent_child. Qed.

Lemma repos_dir_parent : parent (repos_dir W) = base_dir W.
Proof. apply parent_child. Qed.

Lemma base_dir_not_child name : base_dir W <> base_dir W </> name.
Proof.
  intros E. apply (f_equal length) in E. unfold child in E.
  rewrite length_app in E. simpl in E. lia.
Qed.

Lemma below_base_dir name : base_dir W `prefix_of` base_dir W </> name.
Proof. now exists [name]. Qed.

(** [load_config] on a saved configuration. *)
Lemma load_config_File s cfg :
  fs s !! config_file W = Some (File (ConfigDoc cfg)) ->
  load_config W s = Ret tt (mkState cfg (fs s) (out s) (clock s)).
Proof. intros H. unfold load_config, bind, read_file. now rewrite H. Qed.

(** The loop of [ensure_directories] (lines 32-33). *)
Lemma make_directories_run s :
  is_dir (fs s) (base_dir W) = true \/
  (is_file (fs s) (base_dir W) = false /\
   is_dir (fs s) (parent (base_dir W)) = true) ->
  is_file (fs s) (install_dir W) = false ->
  is_file (fs s) (cache_dir W) = false ->
  is_file (fs s) (repos_dir W) = false ->
  exists s',
    for_each [base_dir W; install_dir W; cache_dir W; repos_dir W]
      mkdir_exist_ok s = Ret tt s' /\
    config s' = config s /\ out s' = out s /\ clock s' = clock s /\
    is_dir (fs s') (base_dir W) = true /\
    is_dir (fs s') (install_dir W) = true /\
    is_dir (fs s') (cache_dir W) = true /\
    is_dir (fs s') (repos_dir W) = true /\
    (forall q, q <> base_dir W \/ is_dir (fs s) (base_dir W) = true ->
               q <> install_dir W -> q <> cache_dir W ->
               q <> repos_dir W -> fs s' !! q = fs s !! q) /\
    (is_dir (fs s) (base_dir W) = true ->
     is_dir (fs s) (install_dir W) = true ->
     is_dir (fs s) (cache_dir W) = true ->
     is_dir (fs s) (repos_dir W) = true -> s' = s).
Proof.
  intros H0 H1 H2 H3.
  assert (install_dir W <> cache_dir W) as N12
    by (intros E; apply child_inj in E as [_ E]; discriminate).
  assert (install_dir W <> repos_dir W) as N13
    by (intros E; apply child_inj in E as [_ E]; discriminate).
  assert (cache_dir W <> repos_dir W) as N23
    by (intros E; apply child_inj in E as [_ E]; discriminate).
  pose proof (base_dir_not_child "packages") as Nb1.
  pose proof (base_dir_not_child "cache") as Nb2.
  pose proof (base_dir_not_child "repositories") as Nb3.
  fold (install_dir W) in Nb1. fold (cache_dir W) in Nb2. fold (repos_dir W) in Nb3.
  destruct (mkdir_exist_ok_run (base_dir W) s H0)
    as (s0 & R0 & D0 & C0 & O0 & K0 & F0 & I0).
  destruct (mkdir_exist_ok_run (install_dir W) s0)
    as (s1 & R1 & D1 & C1 & O1 & K1 & F1 & I1).
  { right. split; [|now rewrite install_dir_parent].
    unfold is_file. rewrite F0 by congruence. exact H1. }
  destruct (mkdir_exist_ok_run (cache_dir W) s1)
    as (s2 & R2 & D2 & C2 & O2 & K2 & F2 & I2).
  { right. split.
    - unfold is_file. rewrite F1, F0 by congruence. exact H2.
    - rewrite cache_dir_parent, <- D0. apply is_dir_agree, F1. congruence. }
  destruct (mkdir_exist_ok_run (repos_dir W) s2)
    as (s3 & R3 & D3 & C3 & O3 & K3 & F3 & I3).
  { right. split.
    - unfold is_file. rewrite F2, F1, F0 by congruence. exact H3.
    - rewrite repos_dir_parent, <- D0.
      rewrite (is_dir_agree (fs s2) (fs s1)) by (apply F2; congruence).
      apply is_dir_agree, F1. congruence. }
  exists s3. split.
  - simpl. unfold bind at 1. rewrite R0. unfold bind at 1. rewrite R1.
    unfold bind at 1. rewrite R2. unfold bind at 1. rewrite R3. reflexivity.
  - split; [congruence|]. split; [congruence|]. split; [congruence|].
    split; [|split; [|split; [|split; [exact D3|split]]]].
    + rewrite (is_dir_agree (fs s3) (fs s2)) by (apply F3; congruence).
      rewrite (is_dir_agree (fs s2) (fs s1)) by (apply F2; congruence).
      rewrite (is_dir_agree (fs s1) (fs s0)) by (apply F1; congruence).
      exact D0.
    + rewrite (is_dir_agree (fs s3) (fs s2)) by (apply F3; congruence).
      rewrite (is_dir_agree (fs s2) (fs s1)) by (apply F2; congruence).
      exact D1.
    + rewrite (is_dir_agree (fs s3) (fs s2)) by (apply F3; congruence).
      exact D2.
    + intros q Q0 Q1 Q2 Q3. rewrite F3, F2, F1 by assumption.
      destruct Q0 as [Q0|Q0]; [now apply F0|]. now rewrite (I0 Q0).
    + intros E0 E1 E2 E3. pose proof (I0 E0) as ->. pose proof (I1 E1) as ->.
      pose proof (I2 E2) as ->. now apply I3.
Qed.

Lemma config_file_not_directory :
  config_file W <> base_dir W /\ config_file W <> install_dir W /\
  config_file W <> cache_dir W /\ config_file W <> repos_dir W.
Proof.
  split; [apply not_eq_sym, base_dir_not_config_file|].
  repeat split; intros E; apply child_inj in E as [_ E]; discriminate.
Qed.

End Start_up.

Lemma load_packages_missing W s :
  fs s !! packages_file W = None -> load_packages W s = Ret [] s.
Proof.
  intros H. unfold load_packages, bind, path_exists, gets. rewrite H.
  unfold packages_file in *. now rewrite (is_dir_child_None _ _ _ H).
Qed.

(** X9: on a disk that holds nothing at or below the application
    directory, whose parent directory exists, start-up creates the
    application directory with its package, cache and repository
    directories, writes the default configuration and loads it.  No
    registry file and no shim directory are created, nothing is printed,
    and the rest of the disk is untouched. *)
Theorem init_first_run W s :
  (forall p, base_dir W `prefix_of` p -> fs s !! p = None) ->
  is_dir (fs s) (parent (base_dir W)) = true ->
  exists s',
    init W s = Ret tt s' /\
    config s' = default_config /\
    fs s' !! config_file W = Some (File (ConfigDoc default_config)) /\
    is_dir (fs s') (base_dir W) = true /\
    is_dir (fs s') (install_dir W) = true /\
    is_dir (fs s') (cache_dir W) = true /\
    is_dir (fs s') (repos_dir W) = true /\
    load_packages W s' = Ret [] s' /\
    fs s' !! shim_dir W = None /\
    out s' = out s /\
    forall p, ~ base_dir W `prefix_of` p -> fs s' !! p = fs s !! p.
Proof.
  intros Hempty Hparent.
  destruct (config_file_not_directory W) as (Nc0 & Nc1 & Nc2 & Nc3).
  destruct (make_directories_run W s)
    as (s4 & R4 & C4 & O4 & K4 & D0 & D1 & D2 & D3 & F4 & _).
  { right. split; [|exact Hparent]. unfold is_file. now rewrite Hempty. }
  { unfold is_file. now rewrite Hempty by apply below_base_dir. }
  { unfold is_file. now rewrite Hempty by apply below_base_dir. }
  { unfold is_file. now rewrite Hempty by apply below_base_dir. }
  assert (forall name, name <> "packages" -> name <> "cache" ->
                       name <> "repositories" ->
                       fs s4 !! (base_dir W </> name) = None) as Hnone.
  { intros name N1 N2 N3. rewrite F4.
    - apply Hempty, below_base_dir.
    - left. apply not_eq_sym, base_dir_not_child.
    - intros E. apply child_inj in E as [_ E]. congruence.
    - intros E. apply child_inj in E as [_ E]. congruence.
    - intros E. apply child_inj in E as [_ E]. congruence. }
  assert (fs s4 !! config_file W = None) as Hcfg by (now apply Hnone).
  set (m5 := <[config_file W := File (ConfigDoc default_config)]> (fs s4)).
  exists (mkState default_config m5 (out s4) (clock s4)).
  split; [|split; [reflexivity|split; [apply lookup_insert_eq|]]].
  - unfold init, bind at 1, ensure_directories, bind at 1. rewrite R4.
    assert (is_dir (fs s4) (config_file W) = false) as Hnd
      by apply is_dir_child_None, Hcfg.
    unfold bind at 1, path_exists, gets. rewrite Hcfg, Hnd.
    rewrite write_file_Ret.
    + rewrite (load_config_File W _ default_config); [reflexivity|].
      simpl. apply lookup_insert_eq.
    + exact Hnd.
    + now rewrite config_file_parent.
  - simpl. unfold m5. rewrite !is_dir_insert_ne by congruence.
    split; [exact D0|]. split; [exact D1|]. split; [exact D2|].
    split; [exact D3|]. split; [|split; [|split; [exact O4|]]].
    + apply load_packages_missing. simpl. rewrite lookup_insert_ne.
      * now apply Hnone.
      * intros E. apply child_inj in E as [_ E]. discriminate.
    + rewrite lookup_insert_ne.
      * now apply Hnone.
      * intros E. apply child_inj in E as [_ E]. discriminate.
    + intros p Hp. rewrite lookup_insert_ne.
      * apply F4; [left|..]; intros ->; apply Hp; try apply below_base_dir.
        reflexivity.
      * intros <-. apply Hp, below_base_dir.
Qed.

(** Start-up with a configuration file in place. *)
Lemma init_configured W s cfg :
  fs s !! config_file W = Some (File (ConfigDoc cfg)) ->
  is_dir (fs s) (base_dir W) = true ->
  is_file (fs s) (install_dir W) = false ->
  is_file (fs s) (cache_dir W) = false ->
  is_file (fs s) (repos_dir W) = false ->
  exists s',
    init W s = Ret tt s' /\
    config s' = cfg /\
    fs s' !! config_file W = Some (File (ConfigDoc cfg)) /\
    is_dir (fs s') (install_dir W) = true /\
    is_dir (fs s') (cache_dir W) = true /\
    is_dir (fs s') (repos_dir W) = true /\
    out s' = out s /\ clock s' = clock s /\
    (forall q, q <> install_dir W -> q <> cache_dir W -> q <> repos_dir W ->
               fs s' !! q = fs s !! q) /\
    (is_dir (fs s) (install_dir W) = true ->
     is_dir (fs s) (cache_dir W) = true ->
     is_dir (fs s) (repos_dir W) = true -> fs s' = fs s).
Proof.
  intros Hcfg Hbase H1 H2 H3.
  destruct (config_file_not_directory W) as (Nc0 & Nc1 & Nc2 & Nc3).
  destruct (make_directories_run W s (or_introl Hbase) H1 H2 H3)
    as (s4 & R4 & C4 & O4 & K4 & D0 & D1 & D2 & D3 & F4 & I4).
  assert (fs s4 !! config_file W = Some (File (ConfigDoc cfg))) as Hcfg4.
  { rewrite F4; auto. }
  exists (mkState cfg (fs s4) (out s4) (clock s4)). split.
  - unfold init, bind at 1, ensure_directories, bind at 1. rewrite R4.
    unfold bind at 1, path_exists, gets. rewrite Hcfg4. unfold ret.
    now apply load_config_File.
  - simpl. split; [reflexivity|]. split; [exact Hcfg4|].
    split; [exact D1|]. split; [exact D2|]. split; [exact D3|].
    split; [exact O4|]. split; [exact K4|]. split.
    + intros q Q1 Q2 Q3. apply F4; auto.
    + intros E1 E2 E3. now rewrite (I4 Hbase E1 E2 E3).
Qed.

(** X10: start-up never overwrites a configuration that exists.  With
    the application directory in place and no regular file in the place of
    the package, cache and repository directories, it loads the saved
    configuration, creates the directories that are missing and changes
    nothing else; when all three directories exist the disk is left as it
    was. *)
Theorem init_keeps_existing_config W s cfg :
  fs s !! config_file W = Some (File (ConfigDoc cfg)) ->
  is_dir (fs s) (base_dir W) = true ->
  is_file (fs s) (install_dir W) = false ->
  is_file (fs s) (cache_dir W) = false ->
  is_file (fs s) (repos_dir W) = false ->
  exists s',
    init W s = Ret tt s' /\
    config s' = cfg /\
    fs s' !! config_file W = Some (File (ConfigDoc cfg)) /\
    is_dir (fs s') (install_dir W) = true /\
    is_dir (fs s') (cache_dir W) = true /\
    is_dir (fs s') (repos_dir W) = true /\
    out s' = out s /\
    (forall q, q <> install_dir W -> q <> cache_dir W -> q <> repos_dir W ->
               fs s' !! q = fs s !! q) /\
    (is_dir (fs s) (install_dir W) = true ->
     is_dir (fs s) (cache_dir W) = true ->
     is_dir (fs s) (repos_dir W) = true -> fs s' = fs s).
Proof.
  intros Hcfg Hbase H1 H2 H3.
  destruct (init_configured W s cfg Hcfg Hbase H1 H2 H3)
    as (s' & Hrun & Hc & Hf & D1 & D2 & D3 & Ho & _ & Hkeep & Hsame).
  exists s'. now repeat split.
Qed.

(** X11: start-up is idempotent: a state in which start-up has ended is
    left exactly as it is by another start-up. *)
Theorem init_twice W s s' :
  init W s = Ret tt s' -> init W s' = Ret tt s'.
Proof.
  intros H. unfold init in H.
  apply bind_Ret_inv in H as (u & s5 & Hens & Hload).
  unfold ensure_directories in Hens.
  apply bind_Ret_inv in Hens as (u4 & s4 & Hdirs & Hcfg).
  simpl in Hdirs.
  apply bind_Ret_inv in Hdirs as (u0 & s0 & R0 & Hdirs).
  apply bind_Ret_inv in Hdirs as (u1 & s1 & R1 & Hdirs).
  apply bind_Ret_inv in Hdirs as (u2 & s2 & R2 & Hdirs).
  apply bind_Ret_inv in Hdirs as (u3 & s3 & R3 & Hdirs).
  injection Hdirs as _ <-.
  apply mkdir_exist_ok_inv in R0 as (D0 & _ & _ & _ & K0 & _).
  apply mkdir_exist_ok_inv in R1 as (D1 & _ & _ & _ & K1 & _).
  apply mkdir_exist_ok_inv in R2 as (D2 & _ & _ & _ & K2 & _).
  apply mkdir_exist_ok_inv in R3 as (D3 & _ & _ & _ & K3 & _).
  destruct (config_file_not_directory W) as (Nc0 & Nc1 & Nc2 & Nc3).
  assert (forall q n, q <> config_file W -> fs s3 !! q = Some n ->
                      fs s5 !! q = Some n) as K5.
  { intros q n Hq Hn. unfold bind, path_exists, gets in Hcfg.
    destruct (match fs s3 !! config_file W with
              | Some _ => true
              | None => is_dir (fs s3) (config_file W)
              end).
    - injection Hcfg as _ <-. exact Hn.
    - unfold write_file in Hcfg.
      destruct (is_dir (fs s3) (config_file W)); [discriminate|].
      destruct (is_dir (fs s3) (parent (config_file W))); [|discriminate].
      injection Hcfg as _ <-. simpl. now rewrite lookup_insert_ne. }
  unfold load_config, bind, read_file in Hload.
  destruct (fs s5 !! config_file W) as [[c|]|] eqn:E5;
    [|discriminate|destruct (is_dir (fs s5) (config_file W)); discriminate].
  destruct c as [| cfg | | |]; try discriminate.
  injection Hload as <-.
  assert (forall d, d <> config_file W -> is_dir (fs s3) d = true ->
                    is_dir (fs s5) d = true) as D5.
  { intros d Hd. unfold is_dir. destruct d as [|x d]; [reflexivity|].
    destruct (fs s3 !! (x :: d)) as [[c|]|] eqn:E; try discriminate.
    now rewrite (K5 _ _ Hd E). }
  assert (is_dir (fs s5) (base_dir W) = true) as B0.
  { apply D5; [congruence|].
    eapply is_dir_keep; [exact K3|]. eapply is_dir_keep; [exact K2|].
    eapply is_dir_keep; [exact K1|]. exact D0. }
  assert (is_dir (fs s5) (install_dir W) = true) as B1.
  { apply D5; [congruence|].
    eapply is_dir_keep; [exact K3|]. eapply is_dir_keep; [exact K2|]. exact D1. }
  assert (is_dir (fs s5) (cache_dir W) = true) as B2.
  { apply D5; [congruence|]. eapply is_dir_keep; [exact K3|]. exact D2. }
  assert (is_dir (fs s5) (repos_dir W) = true) as B3.
  { apply D5; [congruence|]. exact D3. }
  assert (forall d name, is_dir (fs s5) (d </> name) = true ->
                         is_file (fs s5) (d </> name) = false) as Hnf.
  { intros d name. unfold is_dir, is_file.
    destruct (d </> name) as [|x p] eqn:E; [now apply child_not_nil in E|].
    now destruct (fs s5 !! (x :: p)) as [[]|]. }
  destruct (init_configured W (mkState cfg (fs s5) (out s5) (clock s5)) cfg)
    as (s6 & Hrun & Hc & _ & _ & _ & _ & Ho & Hcl & _ & Hsame);
    simpl; auto; try (now apply Hnf).
  specialize (Hsame B1 B2 B3). unfold set_config.
  rewrite Hrun. destruct s6. simpl in *. congruence.
Qed.

(** ** Downloads *)

Lemma string_append_nil_r (a : string) : (a ++ "")%string = a.
Proof.
  induction a as [|x a IH]; [reflexivity|].
  change (String x (a ++ "") = String x a)%string. now rewrite IH.
Qed.

Lemma body_cons chunk chunks : body (chunk :: chunks) = (chunk ++ body chunks)%string.
Proof. reflexivity. Qed.

(** The loop of [download_file]: the file ends up holding what it held
    followed by the chunks. *)
Lemma write_chunks_run destination total_size chunks data downloaded s :
  fs s !! destination = Some (File (Raw data)) ->
  writable (fs s) destination ->
  exists s',
    write_chunks destination total_size chunks data downloaded s = Ret tt s' /\
    fs s' = <[destination := File (Raw (data ++ body chunks)%string)]> (fs s) /\
    config s' = config s /\ clock s' = clock s /\
    (total_size = 0 -> out s' = out s).
Proof.
  revert data downloaded s.
  induction chunks as [|chunk chunks IH]; intros data downloaded s Hfile Hw.
  - exists s. simpl. unfold ret. split; [reflexivity|].
    split; [|now repeat split].
    change (body []) with "". rewrite string_append_nil_r.
    symmetry. now apply insert_id.
  - cbn [write_chunks]. destruct (String.eqb_spec chunk "") as [->|Hne].
    + rewrite body_cons. change ("" ++ body chunks)%string with (body chunks).
      now apply IH.
    + unfold bind at 1. rewrite (write_file_writable _ _ _ Hw).
      set (s1 := set_fs (insert destination (File (Raw (data ++ chunk)%string))) s).
      assert (exists s2,
                (if (0 <? total_size)%nat
                 then print (MsgDownloading (downloaded + String.length chunk)
                               total_size)
                 else ret tt) s1 = Ret tt s2 /\
                fs s2 = fs s1 /\ config s2 = config s /\ clock s2 = clock s /\
                (total_size = 0 -> out s2 = out s)) as (s2 & Hp & Hf & Hc & Hcl & Ho).
      { destruct total_size as [|n]; simpl.
        - exists s1. now repeat split.
        - eexists. unfold print, modify. split; [reflexivity|].
          repeat split. discriminate. }
      unfold bind at 1. rewrite Hp.
      destruct (IH (data ++ chunk)%string (downloaded + String.length chunk) s2)
        as (s' & Hrun & Hf' & Hc' & Hcl' & Ho').
      * rewrite Hf. simpl. apply lookup_insert_eq.
      * rewrite Hf. simpl. now apply writable_insert_same.
      * exists s'. split; [exact Hrun|]. split; [|split; [congruence|split]].
        -- rewrite Hf', Hf. simpl. rewrite insert_insert_eq.
           now rewrite string_append_assoc.
        -- congruence.
        -- intros Hz. rewrite (Ho' Hz). now apply Ho.
Qed.

(** The run of a download to a path that can be written. *)
Lemma download_file_run W url destination s :
  writable (fs s) destination ->
  exists s',
    config s' = config s /\ clock s' = S (clock s) /\
    match http_get W (clock s) url (download_timeout (settings (config s))) with
    | HttpError =>
        download_file W url destination s = Ret false s' /\ fs s' = fs s
    | HttpBadLength =>
        download_file W url destination s = Raise ValueError s' /\
        fs s' = fs s /\ out s' = out s
    | HttpStream total_size chunks complete =>
        download_file W url destination s = Ret complete s' /\
        fs s' = <[destination := File (Raw (body chunks))]> (fs s)
    end.
Proof.
  intros Hw.
  set (s0 := mkState (config s) (fs s) (out s) (S (clock s))).
  assert (download_file W url destination s
          = match http_get W (clock s) url
                    (download_timeout (settings (config s))) with
            | HttpError => (print MsgDownloadFailed ;; ret false) s0
            | HttpBadLength => Raise ValueError s0
            | HttpStream total_size chunks complete =>
                (write_file destination (Raw "") ;;
                 write_chunks destination total_size chunks "" 0 ;;
                 if complete
                 then print MsgNewline ;; ret true
                 else print MsgDownloadFailed ;; ret false) s0
            end) as ->.
  { unfold download_file, bind at 1, tick. unfold bind at 1, gets. simpl.
    now destruct (http_get W (clock s) url _). }
  destruct (http_get W (clock s) url (download_timeout (settings (config s))))
    as [| |total_size chunks complete].
  - exists (mkState (config s) (fs s) (out s ++ [MsgDownloadFailed]) (S (clock s))).
    unfold bind, print, modify, ret. simpl.
    split; [|split; [|split]]; reflexivity.
  - exists s0. split; [|split; [|split; [|split]]]; reflexivity.
  - unfold bind at 1. rewrite (write_file_writable _ _ s0 Hw).
    destruct (write_chunks_run destination total_size chunks "" 0
                (set_fs (insert destination (File (Raw ""))) s0))
      as (s1 & Hrun & Hf & Hc & Hcl & _).
    { simpl. apply lookup_insert_eq. }
    { simpl. now apply writable_insert_same. }
    unfold bind at 1. rewrite Hrun.
    assert (fs s1 = <[destination := File (Raw (body chunks))]> (fs s)) as Hfs.
    { rewrite Hf. simpl. now rewrite insert_insert_eq. }
    destruct complete; unfold bind, print, modify, ret;
      [exists (mkState (config s1) (fs s1) (out s1 ++ [MsgNewline]) (clock s1))
      |exists (mkState (config s1) (fs s1) (out s1 ++ [MsgDownloadFailed])
                 (clock s1))];
      simpl; rewrite Hc, Hcl; (split; [reflexivity|]);
      (split; [reflexivity|]); (split; [reflexivity|exact Hfs]).
Qed.

(** X12: a download to a path that can be written ends in one of three
    ways, by the answer to its request.  When the request fails, it
    returns [False] and the disk is as before.  When the response carries
    a [content-length] that is not an integer, it raises [ValueError]
    with nothing written or printed: only transport errors are caught.
    When a response arrives otherwise, the destination ends up holding
    the chunks received, in order, and the result tells whether the
    stream ended normally: after a transport error in mid-stream the part
    received stays in the file. *)
Theorem download_file_stores_body W url destination s :
  writable (fs s) destination ->
  exists s',
    config s' = config s /\ clock s' = S (clock s) /\
    match http_get W (clock s) url (download_timeout (settings (config s))) with
    | HttpError =>
        download_file W url destination s = Ret false s' /\ fs s' = fs s
    | HttpBadLength =>
        download_file W url destination s = Raise ValueError s' /\
        fs s' = fs s /\ out s' = out s
    | HttpStream total_size chunks complete =>
        download_file W url destination s = Ret complete s' /\
        fs s' = <[destination := File (Raw (body chunks))]> (fs s)
    end.
Proof. apply download_file_run. Qed.

(** ** What a lookup returns *)

Lemma find_in_offers W names package_name s :
  (forall r, r ∈ names -> exists o, load_repository W r s = Ret o s) ->
  find_in W names package_name s
  = Ret (omap (offers W s package_name) names) s.
Proof.
  induction names as [|r names IH]; intros Hread; [reflexivity|].
  destruct (Hread r) as [o Hr]; [apply elem_of_cons; now left|].
  rewrite (find_in_cons _ _ _ _ _ _ Hr).
  rewrite IH by (intros r' Hin; apply Hread, elem_of_cons; now right).
  simpl. unfold offers at 2. rewrite Hr.
  destruct o as [m|]; simpl; [|reflexivity].
  destruct (get package_name (m_packages m)) as [i|]; simpl; [|reflexivity].
  unfold bind. rewrite IH by (intros r' Hin; apply Hread, elem_of_cons; now right).
  reflexivity.
Qed.

Lemma find_package_lists_offers_aux W package_name s :
  (forall r, r ∈ keys (repositories (config s)) ->
             exists o, load_repository W r s = Ret o s) ->
  find_package W package_name s
  = Ret (omap (offers W s package_name) (keys (repositories (config s)))) s.
Proof.
  intros Hread. unfold find_package, bind, gets. now apply find_in_offers.
Qed.

(** X13: when every configured repository has either no cached manifest
    or a readable one, [find_package] returns, in the order of the
    configuration, one descriptor for each repository whose manifest lists
    the package, with the manifest's fields and the name of the repository
    under [repository]; repositories without a cached manifest are
    skipped, and the state is left as it was. *)
Theorem find_package_lists_offers W package_name s :
  (forall r, r ∈ keys (repositories (config s)) ->
             exists o, load_repository W r s = Ret o s) ->
  find_package W package_name s
  = Ret (omap (offers W s package_name) (keys (repositories (config s)))) s.
Proof. apply find_package_lists_offers_aux. Qed.

(** ** A successful install *)

Lemma not_below (d p : path) :
  length p <= length d -> p <> d -> ~ d `prefix_of` p.
Proof.
  intros Hl Hne [k ->]. rewrite length_app in Hl.
  destruct k; [rewrite app_nil_r in Hne; congruence|simpl in Hl; lia].
Qed.

Lemma write_members_not_below (dest : path) (members : list (path * node))
    (m : gmap path node) p :
  ~ dest `prefix_of` p -> write_members dest members m !! p = m !! p.
Proof.
  intros H. apply (write_members_outside (fun q => dest `prefix_of` q)).
  - intros rel. now exists rel.
  - exact H.
Qed.

Lemma write_members_agree (dest : path) (members : list (path * node))
    (m m' : gmap path node) q :
  m !! q = m' !! q ->
  write_members dest members m !! q = write_members dest members m' !! q.
Proof.
  revert m m'. induction members as [|[rel n] members IH]; intros m m' H;
    [exact H|].
  simpl. destruct rel as [|x rel]; [now apply IH|]. apply IH.
  destruct (decide (q = dest ++ x :: rel)) as [->|Hne].
  - now rewrite !lookup_insert_eq.
  - now rewrite !lookup_insert_ne.
Qed.

Section Install_success.

Context (W : world).

Lemma extract_archive_run download_path package_dir s bytes :
  fs s !! download_path = Some (File (Raw bytes)) ->
  extract_archive W download_path package_dir s
  = Ret (extractall W (clock s) bytes).2
      (mkState (config s)
         (write_members package_dir (extractall W (clock s) bytes).1 (fs s))
         (out s) (S (clock s))).
Proof.
  intros H. unfold extract_archive, try_except, bind, read_file, tick.
  rewrite H. unfold ret. now destruct (extractall W (clock s) bytes).
Qed.

Lemma calculate_hash_run p s bytes :
  fs s !! p = Some (File (Raw bytes)) ->
  calculate_hash W p s = Ret (sha256 W bytes) s.
Proof. intros H. unfold calculate_hash, bind, read_file. now rewrite H. Qed.

Lemma create_shim_run package_name info s :
  is_dir (fs s) (base_dir W) = true ->
  is_file (fs s) (shim_dir W) = false ->
  fs s !! shim_file W package_name <> Some Dir ->
  exists s',
    create_shim W package_name info s = Ret tt s' /\
    fs s' !! shim_file W package_name
    = Some (File (ShimDoc (install_dir W </> package_name
                             </> executable_of package_name info))) /\
    (forall q, q <> shim_dir W -> q <> shim_file W package_name ->
               fs s' !! q = fs s !! q) /\
    config s' = config s /\ clock s' = clock s.
Proof.
  intros Hbase Hdir Hfile.
  destruct (mkdir_exist_ok_run (shim_dir W) s)
    as (s1 & R1 & D1 & C1 & O1 & K1 & F1 & _).
  { right. split; [exact Hdir|]. unfold shim_dir. now rewrite parent_child. }
  assert (shim_file W package_name <> shim_dir W) as Hne.
  { intros E. apply (f_equal length) in E. unfold shim_file, child in E.
    rewrite length_app in E. simpl in E. lia. }
  assert (writable (fs s1) (shim_file W package_name)) as Hw.
  { split.
    - unfold is_dir. rewrite F1 by exact Hne.
      destruct (shim_file W package_name) eqn:E;
        [now apply child_not_nil in E|].
      now destruct (fs s !! (s0 :: l)) as [[]|].
    - unfold shim_file. now rewrite parent_child. }
  unfold create_shim. cbv zeta. unfold bind at 1. rewrite R1.
  unfold bind at 1. rewrite (write_file_writable _ _ _ Hw).
  unfold print, modify. eexists. split; [reflexivity|]. simpl.
  split; [apply lookup_insert_eq|]. split; [|split; assumption].
  intros q Q1 Q2. rewrite lookup_insert_ne by congruence. now apply F1.
Qed.

Ltac by_length :=
  unfold archive_path, shim_file, shim_dir, packages_file, install_dir,
    cache_dir, repos_dir, config_file, repo_file, child;
  rewrite ?length_app; simpl; lia.

(** The paths of an install lie apart. *)
Lemma install_paths package_name version :
  let archive := archive_path W package_name version in
  let package_dir := install_dir W </> package_name in
  archive <> package_dir /\
  ~ package_dir `prefix_of` archive /\
  ~ package_dir `prefix_of` packages_file W /\
  ~ package_dir `prefix_of` base_dir W /\
  ~ package_dir `prefix_of` shim_dir W /\
  ~ package_dir `prefix_of` shim_file W package_name /\
  ~ package_dir `prefix_of` install_dir W /\
  archive <> packages_file W /\ archive <> base_dir W /\
  archive <> shim_dir W /\ archive <> shim_file W package_name /\
  archive <> install_dir W /\
  packages_file W <> shim_dir W /\ packages_file W <> shim_file W package_name /\
  packages_file W <> base_dir W /\ base_dir W <> shim_dir W /\
  base_dir W <> shim_file W package_name.
Proof.
  intros archive package_dir.
  assert (archive <> package_dir) as N1.
  { intros E. apply child_inj in E as [E _]. apply child_inj in E as [_ E].
    discriminate. }
  assert (package_dir <> shim_file W package_name) as N2.
  { intros E. apply child_inj in E as [E _]. apply child_inj in E as [_ E].
    discriminate. }
  assert (archive <> shim_file W package_name) as N3.
  { intros E. apply child_inj in E as [E _]. apply child_inj in E as [_ E].
    discriminate. }
  assert (packages_file W <> shim_dir W) as N4.
  { intros E. apply child_inj in E as [_ E]. discriminate. }
  assert (forall p q : path, length p <> length q -> p <> q) as L
    by (intros p q H E; now rewrite E in H).
  unfold archive, package_dir.
  split; [exact N1|].
  split; [apply not_below; [by_length|exact N1]|].
  split; [apply not_below; [by_length|apply L; by_length]|].
  split; [apply not_below; [by_length|apply L; by_length]|].
  split; [apply not_below; [by_length|apply L; by_length]|].
  split; [apply not_below; [by_length|now apply not_eq_sym]|].
  split; [apply not_below; [by_length|apply L; by_length]|].
  split; [apply L; by_length|]. split; [apply L; by_length|].
  split; [apply L; by_length|]. split; [exact N3|].
  split; [apply L; by_length|]. split; [exact N4|].
  split; [apply L; by_length|]. split; [apply L; by_length|].
  split; apply L; by_length.
Qed.

(** The run of lines 195-233 when the download and the extraction go
    well. *)
Lemma download_and_register_run package_name version info packages s
    url total_size chunks members :
  pi_url info = Some url ->
  http_get W (clock s) url (download_timeout (settings (config s)))
  = HttpStream total_size chunks true ->
  extractall W (S (clock s)) (body chunks) = (members, true) ->
  installable W (fs s) package_name (version_of version info) ->
  let package_dir := install_dir W </> package_name in
  exists s',
    download_and_register W package_name version info packages s = Ret true s' /\
    fs s' !! packages_file W
    = Some (File (RegistryDoc
                    (set package_name
                       (registry_entry W package_name version info (body chunks)
                          (S (S (clock s))))
                       packages))) /\
    fs s' !! archive_path W package_name (version_of version info)
    = Some (File (Raw (body chunks))) /\
    fs s' !! shim_file W package_name
    = Some (File (ShimDoc (package_dir </> executable_of package_name info))) /\
    is_dir (fs s') package_dir = true /\
    (forall q, package_dir `prefix_of` q -> q <> package_dir ->
               fs s' !! q = write_members package_dir members (fs s) !! q) /\
    last (out s') = Some (MsgInstalled package_name (version_of version info)) /\
    config s' = config s /\ clock s' = S (S (S (clock s))) /\
    is_dir (fs s') (base_dir W) = true.
Proof.
  intros Hurl Hget Hextract (Harch & Hinst & Hpkg & Hreg & Hshimd & Hshimf)
    package_dir.
  set (v := version_of version info) in *.
  set (archive := archive_path W package_name v) in *.
  set (bytes := body chunks) in *.
  destruct (install_paths package_name v)
    as (P1 & P2 & P3 & P4 & P5 & P6 & P7 & A1 & A2 & A3 & A4 & A5 & R1 & R2
        & R3 & B1 & B2).
  fold archive package_dir in P1, P2, P3, P4, P5, P6, P7, A1, A2, A3, A4, A5.
  (* the download *)
  set (sA := mkState (config s) (fs s) (out s ++ [MsgInstalling package_name v])
               (clock s)).
  destruct (download_file_run W url archive sA Harch)
    as (sB & HcB & HclB & Hresp).
  change (clock sA) with (clock s) in *. change (config sA) with (config s) in *.
  change (fs sA) with (fs s) in *.
  rewrite Hget in Hresp. destruct Hresp as [HB HfB].
  (* the install directory *)
  destruct (mkdir_exist_ok_run package_dir sB)
    as (sC & HC & HdC & HcC & HoC & HclC & HfC & _).
  { right. split.
    - unfold is_file. rewrite HfB, lookup_insert_ne by exact P1. exact Hpkg.
    - unfold package_dir. rewrite parent_child, HfB.
      rewrite is_dir_insert_ne by congruence. exact Hinst. }
  (* the extraction *)
  assert (fs sC !! archive = Some (File (Raw bytes))) as HarchC.
  { rewrite HfC by exact P1. rewrite HfB. apply lookup_insert_eq. }
  pose proof (extract_archive_run archive package_dir sC bytes HarchC) as HD.
  rewrite HclC, HclB, Hextract in HD. simpl in HD.
  set (mD := write_members package_dir members (fs sC)) in *.
  assert (forall p, ~ package_dir `prefix_of` p -> p <> archive ->
                    mD !! p = fs s !! p) as Hout.
  { intros p Hp Hne. unfold mD. rewrite write_members_not_below by exact Hp.
    rewrite HfC by (intros ->; now apply Hp).
    rewrite HfB. now apply lookup_insert_ne. }
  assert (mD !! archive = Some (File (Raw bytes))) as HarchD.
  { unfold mD. now rewrite write_members_not_below. }
  (* the registration *)
  set (sE := mkState (config sC) mD (out sC) (S (S (S (clock s))))).
  set (entry := registry_entry W package_name version info bytes (S (S (clock s)))).
  assert (writable (fs sE) (packages_file W)) as HwE.
  { destruct Hreg as [Hr1 Hr2]. split; simpl.
    - rewrite <- Hr1. apply is_dir_agree, Hout; [exact P3|congruence].
    - unfold packages_file in *. rewrite parent_child in *.
      rewrite <- Hr2. apply is_dir_agree, Hout; [exact P4|congruence]. }
  set (sF := set_fs (insert (packages_file W)
                       (File (RegistryDoc (set package_name entry packages)))) sE).
  (* the shim *)
  destruct (create_shim_run package_name info sF)
    as (sG & HG & HshimG & HfG & HcG & HclG).
  { simpl. rewrite is_dir_insert_ne by congruence.
    destruct Hreg as [_ Hr2]. unfold packages_file in Hr2.
    rewrite parent_child in Hr2. rewrite <- Hr2.
    apply is_dir_agree, Hout; [exact P4|congruence]. }
  { unfold is_file. simpl. rewrite lookup_insert_ne by congruence.
    rewrite Hout by (try exact P5; congruence). exact Hshimd. }
  { simpl. rewrite lookup_insert_ne by congruence.
    rewrite Hout by (try exact P6; congruence). exact Hshimf. }
  exists (mkState (config sG) (fs sG) (out sG ++ [MsgInstalled package_name v])
            (clock sG)).
  split.
  - unfold download_and_register. cbv zeta. rewrite Hurl.
    fold v. fold archive. fold package_dir.
    rewrite (bind_Ret (ret url) _ s url s eq_refl).
    rewrite (bind_Ret (print _) _ s tt sA eq_refl).
    rewrite (bind_Ret _ _ _ _ _ HB). cbn [negb].
    rewrite (bind_Ret _ _ _ _ _ HC).
    rewrite (bind_Ret _ _ _ _ _ HD). cbn [negb].
    rewrite (bind_Ret tick _ (mkState (config sC) mD (out sC) (S (S (clock s))))
               (S (S (clock s))) sE eq_refl).
    rewrite (bind_Ret (calculate_hash W archive) _ sE (sha256 W bytes) sE
               (calculate_hash_run archive sE bytes HarchD)).
    unfold save_packages.
    rewrite (bind_Ret _ _ _ _ _ (write_file_writable _ _ sE HwE)).
    fold entry. fold sF.
    rewrite (bind_Ret _ _ _ _ _ HG). reflexivity.
  - simpl. split; [|split; [|split; [exact HshimG|split; [|split; [|split]]]]].
    + rewrite HfG by congruence. simpl. apply lookup_insert_eq.
    + rewrite HfG by congruence. simpl.
      rewrite lookup_insert_ne by congruence. exact HarchD.
    + assert (forall p, ~ package_dir `prefix_of` p -> package_dir <> p) as Hself
        by (intros p Hp <-; now apply Hp).
      rewrite (is_dir_agree _ (fs sC)); [exact HdC|].
      rewrite HfG by (apply Hself; assumption). simpl.
      rewrite lookup_insert_ne by (apply not_eq_sym, Hself; assumption).
      apply write_members_dest.
    + intros q Hq Hne.
      assert (forall p, ~ package_dir `prefix_of` p -> q <> p) as Hapart
        by (intros p Hp ->; tauto).
      rewrite HfG by (apply Hapart; assumption). simpl.
      rewrite lookup_insert_ne by (apply not_eq_sym, Hapart; assumption).
      apply write_members_agree.
      rewrite HfC by exact Hne. rewrite HfB.
      apply lookup_insert_ne, not_eq_sym, Hapart. exact P2.
    + apply last_snoc.
    + split; [|split; [rewrite HclG; reflexivity|]].
      * rewrite HcG. simpl. congruence.
      * destruct Hreg as [_ Hr2]. unfold packages_file in Hr2.
        rewrite parent_child in Hr2. rewrite <- Hr2. apply is_dir_agree.
        rewrite HfG by congruence. simpl.
        rewrite lookup_insert_ne by congruence.
        apply Hout; [exact P4|congruence].
Qed.

End Install_success.

(** An install of a package without dependencies goes straight to the
    download. *)
Lemma install_without_dependencies W fuel package_name version repo_name s
    packages info :
  load_packages W s = Ret packages s ->
  mem package_name packages = false ->
  install_uses W s package_name repo_name info ->
  declared_dependencies info = [] ->
  install_package W (S fuel) package_name version repo_name s
  = download_and_register W package_name version info packages s.
Proof.
  intros Hload Hmem Huses Hdeps.
  rewrite (install_package_found _ _ _ _ _ _ _ _ Hload Hmem Huses).
  unfold install_found, resolve_dependencies.
  change (default [] (pi_dependencies info)) with (declared_dependencies info).
  rewrite Hdeps. reflexivity.
Qed.

(** ** An install with a dependency that no repository offers *)




(** ** Installs of packages without dependencies *)


(** X15: when the download of a package without dependencies fails, the
    server being out of reach or the transfer breaking off in the middle,
    the install returns [False] after the failure message; nothing but the
    archive file in the cache can have changed, so the registry is as
    before and no install directory or shim was created.  The package
    name, the version and the repository names are file names. *)
Theorem install_failed_download W fuel package_name version repo_name s
    packages info url :
  install_names s package_name (version_of version info) repo_name = true ->
  load_packages W s = Ret packages s ->
  mem package_name packages = false ->
  install_uses W s package_name repo_name info ->
  declared_dependencies info = [] ->
  pi_url info = Some url ->
  writable (fs s) (archive_path W package_name (version_of version info)) ->
  (http_get W (clock s) url (download_timeout (settings (config s))) = HttpError \/
   exists total_size chunks,
     http_get W (clock s) url (download_timeout (settings (config s)))
     = HttpStream total_size chunks false) ->
  exists s',
    install_package W (S fuel) package_name version repo_name s = Ret false s' /\
    last (out s') = Some MsgDownloadFailed /\
    config s' = config s /\
    load_packages W s' = Ret packages s' /\
    forall p, p <> archive_path W package_name (version_of version info) ->
              fs s' !! p = fs s !! p.
Proof.
  intros _ Hload Hmem Huses Hdeps Hurl Hw Hfail.
  rewrite (install_without_dependencies _ _ _ _ _ _ _ _ Hload Hmem Huses Hdeps).
  set (v := version_of version info) in *.
  set (archive := archive_path W package_name v) in *.
  set (sA := mkState (config s) (fs s) (out s ++ [MsgInstalling package_name v])
               (clock s)).
  destruct (download_file_run W url archive sA Hw)
    as (sB & HcB & HclB & Hresp).
  change (clock sA) with (clock s) in *. change (config sA) with (config s) in *.
  change (fs sA) with (fs s) in *.
  assert (download_file W url archive sA = Ret false sB /\
          forall p, p <> archive -> fs sB !! p = fs s !! p) as [HB Hkeep].
  { destruct Hfail as [E|(n & chunks & E)]; rewrite E in Hresp;
      destruct Hresp as [HB HfB]; (split; [exact HB|]); intros p Hp; rewrite HfB;
      [reflexivity|now apply lookup_insert_ne]. }
  exists sB. split.
  - unfold download_and_register. cbv zeta. rewrite Hurl.
    fold v. fold archive.
    rewrite (bind_Ret (ret url) _ s url s eq_refl).
    rewrite (bind_Ret (print _) _ s tt sA eq_refl).
    rewrite (bind_Ret _ _ _ _ _ HB). reflexivity.
  - split; [now apply (download_file_false W url archive sA)|].
    split; [exact HcB|]. split; [|exact Hkeep].
    rewrite (load_packages_agree W sB s), Hload; [reflexivity|].
    apply Hkeep.
    destruct (install_paths W package_name v)
      as (_ & _ & _ & _ & _ & _ & _ & A1 & _).
    intros E. apply A1. now rewrite E.
Qed.

(** X16: a descriptor without a [url], for a package without
    dependencies, makes the install raise [KeyError] before anything is
    printed, downloaded or written. *)
Theorem install_missing_url W fuel package_name version repo_name s packages info :
  load_packages W s = Ret packages s ->
  mem package_name packages = false ->
  install_uses W s package_name repo_name info ->
  declared_dependencies info = [] ->
  pi_url info = None ->
  install_package W (S fuel) package_name version repo_name s
  = Raise (KeyError "url") s.
Proof.
  intros Hload Hmem Huses Hdeps Hurl.
  rewrite (install_without_dependencies _ _ _ _ _ _ _ _ Hload Hmem Huses Hdeps).
  unfold download_and_register. cbv zeta. now rewrite Hurl.
Qed.

(** X17: whatever an install does, and however it ends, it leaves the
    loaded configuration alone and changes nothing on disk outside the
    registry file, the download cache, the install directories and the
    shims; in particular the configuration file and the cached manifests
    are as before.  The package name, the version and the repository that
    were asked for, the names of the configured repositories, and the
    versions and dependencies in the cached manifests are file names. *)
Theorem install_stays_in_its_area W fuel package_name version repo_name s s' :
  install_names s package_name (default "" version) repo_name = true ->
  plain_manifests W s repo_name = true ->
  ends_in (install_package W fuel package_name version repo_name s) s' ->
  config s' = config s /\
  (forall p, ~ installer_area W p -> fs s' !! p = fs s !! p) /\
  fs s' !! config_file W = fs s !! config_file W /\
  forall r, fs s' !! repo_file W r = fs s !! repo_file W r.
Proof.
  intros _ _ H.
  pose proof (run_install_package W fuel package_name version repo_name s) as F.
  destruct (install_package W fuel package_name version repo_name s);
    simpl in H; try contradiction; subst; destruct F as [Hc Hf];
    (split; [exact Hc|]; split; [exact Hf|]; split;
     [apply Hf, config_file_outside|intros r; apply Hf, repo_file_outside]).
Qed.

(** X18: the repository recorded by a successful install depends on how
    the package was looked up.  Without a pinned repository the registry
    entry names a configured repository whose manifest lists the package;
    with a pinned repository it carries [unknown], unless the descriptor
    in the manifest has a [repository] key of its own: only the search
    over all repositories tags a descriptor with its repository.  The
    package name, the version and the repository names are file names. *)
Theorem install_records_repository W fuel package_name version repo_name s
    packages info url total_size chunks members :
  install_names s package_name (version_of version info) repo_name = true ->
  load_packages W s = Ret packages s ->
  mem package_name packages = false ->
  install_uses W s package_name repo_name info ->
  declared_dependencies info = [] ->
  pi_url info = Some url ->
  http_get W (clock s) url (download_timeout (settings (config s)))
  = HttpStream total_size chunks true ->
  extractall W (S (clock s)) (body chunks) = (members, true) ->
  installable W (fs s) package_name (version_of version info) ->
  exists s' entry,
    install_package W (S fuel) package_name version repo_name s = Ret true s' /\
    load_packages W s' = Ret (set package_name entry packages) s' /\
    (nonempty repo_name = None ->
     exists r, ip_repository entry = r /\
               r ∈ keys (repositories (config s)) /\
               provides W s r package_name) /\
    (forall r, nonempty repo_name = Some r -> pi_repository info = None ->
               ip_repository entry = "unknown").
Proof.
  intros _ Hload Hmem Huses Hdeps Hurl Hget Hextract Hdisk.
  rewrite (install_without_dependencies _ _ _ _ _ _ _ _ Hload Hmem Huses Hdeps).
  destruct (download_and_register_run W package_name version info packages s
              url total_size chunks members Hurl Hget Hextract Hdisk)
    as (s' & Hrun & Hreg & _).
  exists s', (registry_entry W package_name version info (body chunks)
                (S (S (clock s)))).
  split; [exact Hrun|]. split; [now apply load_packages_written|]. split.
  - intros Hpin. unfold install_uses in Huses. rewrite Hpin in Huses.
    destruct Huses as [rest Hfind].
    unfold find_package, bind, gets in Hfind.
    destruct (find_in_first W _ _ _ _ _ Hfind)
      as (before & r & repo_info & after & Hd & Hr & Hprov & _).
    exists r. simpl. rewrite Hr. split; [reflexivity|]. split; [|exact Hprov].
    rewrite Hd. unfold keys. rewrite map_app. simpl.
    apply elem_of_app. right. apply elem_of_cons. now left.
  - intros r _ Hnone. simpl. now rewrite Hnone.
Qed.

(** ** Installing and uninstalling *)

Lemma rmtree_dir p s :
  fs s !! p = Some Dir ->
  rmtree p s = Ret tt (set_fs (filter (fun kv => ~ p `prefix_of` kv.1)) s).
Proof. intros H. unfold rmtree. now rewrite H. Qed.

Lemma lookup_rmtree_below (m : gmap path node) (p q : path) :
  p `prefix_of` q -> filter (fun kv => ~ p `prefix_of` kv.1) m !! q = None.
Proof.
  intros Hq. apply map_lookup_filter_None. right. intros n _. simpl. tauto.
Qed.

Lemma lookup_rmtree_apart (m : gmap path node) (p q : path) :
  ~ p `prefix_of` q -> filter (fun kv => ~ p `prefix_of` kv.1) m !! q = m !! q.
Proof.
  intros Hq. rewrite map_lookup_filter.
  destruct (m !! q) as [n|]; [|reflexivity]. simpl.
  now rewrite option_guard_True.
Qed.

(** X19: installing a package without dependencies and uninstalling it
    again restores the registry that was there before the install and
    removes the install directory with everything in it and the shim; the
    downloaded archive stays in the cache.  The package name, the version
    and the repository names are file names. *)
Theorem install_then_uninstall W fuel package_name version repo_name s
    packages info url total_size chunks members :
  install_names s package_name (version_of version info) repo_name = true ->
  load_packages W s = Ret packages s ->
  mem package_name packages = false ->
  install_uses W s package_name repo_name info ->
  declared_dependencies info = [] ->
  pi_url info = Some url ->
  http_get W (clock s) url (download_timeout (settings (config s)))
  = HttpStream total_size chunks true ->
  extractall W (S (clock s)) (body chunks) = (members, true) ->
  installable W (fs s) package_name (version_of version info) ->
  exists s1 s2,
    install_package W (S fuel) package_name version repo_name s = Ret true s1 /\
    uninstall W package_name s1 = Ret true s2 /\
    load_packages W s2 = Ret packages s2 /\
    (forall q, install_dir W </> package_name `prefix_of` q -> fs s2 !! q = None) /\
    fs s2 !! shim_file W package_name = None /\
    fs s2 !! archive_path W package_name (version_of version info)
    = Some (File (Raw (body chunks))).
Proof.
  intros _ Hload Hmem Huses Hdeps Hurl Hget Hextract Hdisk.
  rewrite (install_without_dependencies _ _ _ _ _ _ _ _ Hload Hmem Huses Hdeps).
  destruct (download_and_register_run W package_name version info packages s
              url total_size chunks members Hurl Hget Hextract Hdisk)
    as (s1 & Hrun & Hreg & Harch & Hshim & Hdir & _ & _ & _ & _ & Hbase).
  set (v := version_of version info) in *.
  set (package_dir := install_dir W </> package_name) in *.
  set (entry := registry_entry W package_name version info (body chunks)
                  (S (S (clock s)))) in *.
  destruct (install_paths W package_name v)
    as (P1 & P2 & P3 & P4 & P5 & P6 & P7 & A1 & A2 & A3 & A4 & A5 & R1 & R2
        & R3 & B1 & B2).
  fold package_dir in P1, P2, P3, P4, P5, P6, P7.
  pose proof (load_packages_written W s1 _ Hreg) as Hload1.
  apply is_dir_Some_Dir in Hdir; [|apply child_not_nil].
  set (s2 := set_fs (filter (fun kv => ~ package_dir `prefix_of` kv.1)) s1).
  set (s3 := set_fs (delete (shim_file W package_name)) s2).
  set (s4 := set_fs (insert (packages_file W)
                       (File (RegistryDoc (del package_name
                                             (set package_name entry packages)))))
               s3).
  assert (writable (fs s3) (packages_file W)) as Hw.
  { split; simpl.
    - unfold is_dir. rewrite lookup_delete_ne by congruence.
      rewrite lookup_rmtree_apart by exact P3. rewrite Hreg.
      destruct (packages_file W) eqn:E; [now apply child_not_nil in E|reflexivity].
    - unfold packages_file. rewrite parent_child. rewrite <- Hbase.
      apply is_dir_agree. rewrite lookup_delete_ne by congruence.
      now apply lookup_rmtree_apart. }
  exists s1, (mkState (config s4) (fs s4) (out s4 ++ [MsgUninstalled package_name])
                (clock s4)).
  split; [exact Hrun|]. split.
  - unfold uninstall. rewrite (bind_Ret _ _ _ _ _ Hload1).
    rewrite get_set_eq. cbv zeta.
    change (ip_path entry) with package_dir.
    unfold bind at 1, path_exists at 1, gets. rewrite Hdir.
    unfold bind at 1. rewrite (rmtree_dir _ _ Hdir). fold s2.
    unfold bind at 1, path_exists at 1, gets.
    assert (fs s2 !! shim_file W package_name
            = Some (File (ShimDoc (package_dir </> executable_of package_name info))))
      as Hshim2.
    { simpl. now rewrite lookup_rmtree_apart. }
    rewrite Hshim2. unfold bind at 1, unlink. rewrite Hshim2. fold s3.
    unfold save_packages. rewrite (bind_Ret _ _ _ _ _ (write_file_writable _ _ s3 Hw)).
    reflexivity.
  - simpl. split; [|split; [|split]].
    + apply load_packages_written. simpl. rewrite lookup_insert_eq.
      rewrite del_set_fresh; [reflexivity|]. now apply mem_false.
    + intros q Hq. rewrite lookup_insert_ne by (intros <-; tauto).
      rewrite lookup_delete_ne by (intros <-; tauto).
      now apply lookup_rmtree_below.
    + rewrite lookup_insert_ne by congruence. apply lookup_delete_eq.
    + rewrite lookup_insert_ne by congruence.
      rewrite lookup_delete_ne by congruence.
      now rewrite lookup_rmtree_apart.
Qed.

(** ** What never changes the disk *)

(** X20: the update command changes neither the disk nor the loaded
    configuration, with or without a package name and however it ends:
    it only reports. *)
Theorem update_changes_nothing W package_name s :
  exists s',
    ends_in (update W package_name s) s' /\
    config s' = config s /\ fs s' = fs s.
Proof.
  assert (run_within False (frame_outside (fun _ => False)) (update W package_name))
    as Hrun.
  { unfold update. destruct (nonempty package_name); [run_method|].
    run_method; [run_method|]. run_method; [run_method|].
    run_method. unfold check_update. repeat run_method. }
  specialize (Hrun s).
  destruct (update W package_name s) as [u s'|e s'|]; [| |contradiction];
    exists s'; (split; [reflexivity|]); destruct Hrun as [Hc Hf];
    (split; [exact Hc|]); apply map_eq; intros p; apply Hf; tauto.
Qed.

(** X21: when every configured repository has either no cached manifest
    or a readable one and none of them lists the package, an install
    without a pinned repository returns [False] with the message that the
    package was not found in any repository, and changes nothing else. *)
Theorem install_unknown_package W fuel package_name version s packages :
  load_packages W s = Ret packages s ->
  mem package_name packages = false ->
  (forall r, r ∈ keys (repositories (config s)) ->
             exists o, load_repository W r s = Ret o s /\
                       (forall m, o = Some m ->
                                  get package_name (m_packages m) = None)) ->
  install_package W (S fuel) package_name version None s
  = Ret false (mkState (config s) (fs s)
                 (out s ++ [MsgNotFoundInAnyRepository package_name]) (clock s)).
Proof.
  intros Hload Hmem Hnone.
  assert (find_package W package_name s = Ret [] s) as Hfind.
  { unfold find_package, bind, gets. rewrite find_in_offers.
    - f_equal. induction (keys (repositories (config s))) as [|r names IH];
        [reflexivity|].
      assert (offers W s package_name r = None) as Hoff.
      { destruct (Hnone r) as (o & Hr & Ho); [apply elem_of_cons; now left|].
        unfold offers. rewrite Hr. destruct o as [m|]; [|reflexivity].
        now rewrite (Ho m eq_refl). }
      simpl. rewrite Hoff. apply IH.
      intros r' Hin. apply Hnone, elem_of_cons. now right.
    - intros r Hin. destruct (Hnone r Hin) as (o & Hr & _). now exists o. }
  cbn [install_package]. rewrite (bind_Ret _ _ _ _ _ Hload), Hmem. simpl.
  now rewrite (bind_Ret _ _ _ _ _ Hfind).
Qed.

(** ** Resolving dependencies *)

(** X22: when every configured repository has either no cached manifest
    or a readable one, resolving the dependencies of a descriptor returns,
    in the order in which they are declared and with repetitions kept, the
    dependencies that some repository offers, each with the first
    descriptor found for it, and prints one warning for each of the
    others; nothing else changes. *)
Theorem resolve_dependencies_lists_offers W info s :
  (forall r, r ∈ keys (repositories (config s)) ->
             exists o, load_repository W r s = Ret o s) ->
  resolve_dependencies W info s
  = Ret (omap (fun dep => pair dep <$> first_offer W s dep)
           (declared_dependencies info))
      (mkState (config s) (fs s)
         (out s ++ (MsgWarningDependencyNotFound
                      <$> unresolved W s (declared_dependencies info)))
         (clock s)).
Proof.
  intros Hread. unfold resolve_dependencies.
  change (default [] (pi_dependencies info)) with (declared_dependencies info).
  assert (forall dependencies o,
            resolve_each W dependencies
              (mkState (config s) (fs s) o (clock s))
            = Ret (omap (fun dep => pair dep <$> first_offer W s dep) dependencies)
                (mkState (config s) (fs s)
                   (o ++ (MsgWarningDependencyNotFound
                            <$> unresolved W s dependencies))
                   (clock s))) as Hloop.
  { induction dependencies as [|dep dependencies IH]; intros o.
    - simpl. unfold ret. now rewrite app_nil_r.
    - assert (find_package W dep (mkState (config s) (fs s) o (clock s))
              = Ret (omap (offers W s dep) (keys (repositories (config s))))
                  (mkState (config s) (fs s) o (clock s))) as Hfind.
      { rewrite (find_package_agree W dep _ s) by (now split).
        now rewrite (find_package_lists_offers_aux W dep s Hread). }
      assert (first_offer W s dep
              = head (omap (offers W s dep) (keys (repositories (config s)))))
        as Hfo by reflexivity.
      cbn [resolve_each]. rewrite (bind_Ret _ _ _ _ _ Hfind).
      unfold unresolved. cbn [List.filter omap list_omap]. rewrite Hfo.
      destruct (omap (offers W s dep) (keys (repositories (config s))))
        as [|best rest]; simpl.
      + unfold bind at 1, print, modify. rewrite IH. simpl.
        now rewrite <- app_assoc.
      + unfold bind. now rewrite IH. }
  specialize (Hloop (declared_dependencies info) (out s)).
  now destruct s.
Qed.

(** ** The further properties on the example states *)

Lemma ends_in_final_state {A} (r : res A) v d :
  outcome r = Some v -> ends_in r (final_state r d).
Proof. destruct r; simpl; [reflexivity..|discriminate]. Qed.

Lemma demo_state_repositories :
  keys (repositories (config demo_state)) = ["main"; "extras"].
Proof. by_computation. Qed.

(** In [demo_state] the manifest of [main] is cached and that of [extras]
    is not. *)
Lemma demo_state_manifests r :
  r ∈ keys (repositories (config demo_state)) ->
  load_repository demo_world r demo_state
  = Ret (if String.eqb r "main" then Some demo_manifest else None) demo_state.
Proof.
  rewrite demo_state_repositories. intros Hin.
  apply elem_of_cons in Hin as [->|Hin]; [by_computation|].
  apply elem_of_cons in Hin as [->|Hin]; [by_computation|].
  now apply elem_of_nil in Hin.
Qed.


Lemma add_repository_caches_manifest_witness :
  exists s',
    add_repository demo_world "c" "http://c/" demo_state = Ret true s' /\
    load_repository demo_world "c" s'
    = Ret (Some (mkManifest [("foo", descriptor "1.0" "http://r/foo.zip" None)])) s'.
Proof.
  destruct (add_repository_caches_manifest demo_world "c" "http://c/" demo_state
              (mkManifest [("foo", descriptor "1.0" "http://r/foo.zip" None)]))
    as (s' & Hrun & Hload & _).
  - reflexivity.
  - by_computation.
  - split; by_computation.
  - split; by_computation.
  - by_computation.
  - exists s'. split; assumption.
Defined.

Lemma add_repository_invalid_manifest_witness :
  exists s',
    add_repository flaky_world "c" "http://c/" later_state = Ret false s' /\
    exists e, find_package flaky_world "A" s' = Raise e s'.
Proof.
  destruct (add_repository_invalid_manifest flaky_world "c" "http://c/" later_state)
    as (s' & Hrun & _ & _ & Hfind).
  - reflexivity.
  - by_computation.
  - split; by_computation.
  - split; by_computation.
  - by_computation.
  - exists s'. split; [exact Hrun|apply Hfind].
Defined.

Lemma add_repository_keeps_entries_witness :
  exists s',
    ends_in (add_repository demo_world "main" "http://elsewhere/" demo_state) s' /\
    get_repository_url "main" s'
    = Ret (Some "https://raw.githubusercontent.com/your-username/winpm-main/main/") s'.
Proof.
  destruct (add_repository_keeps_entries demo_world "main" "http://elsewhere/"
              demo_state "main"
              (mkRepoInfo
                 "https://raw.githubusercontent.com/your-username/winpm-main/main/" 1))
    as (s' & Hrun & Hget & _).
  - by_computation.
  - exists s'. split; [exact Hrun|].
    unfold get_repository_url, bind, gets, ret. now rewrite Hget.
Defined.

Lemma remove_repository_removes_witness :
  exists s',
    remove_repository demo_world "main" demo_state = Ret true s' /\
    keys (repositories (config s')) = ["extras"] /\
    load_repository demo_world "main" s' = Ret None s'.
Proof.
  destruct (remove_repository_removes demo_world "main" demo_state)
    as (s' & Hrun & Hrepos & _ & _ & _ & Hload).
  - reflexivity.
  - by_computation.
  - split; by_computation.
  - intros E. vm_compute in E. discriminate E.
  - exists s'. split; [exact Hrun|]. split; [|exact Hload].
    rewrite Hrepos. by_computation.
Defined.



Lemma init_first_run_witness :
  exists s',
    init demo_world blank_state = Ret tt s' /\
    config s' = default_config /\
    load_packages demo_world s' = Ret [] s'.
Proof.
  destruct (init_first_run demo_world blank_state)
    as (s' & Hrun & Hc & _ & _ & _ & _ & _ & Hload & _).
  - intros p _. exact (lookup_empty p).
  - reflexivity.
  - exists s'. split; [exact Hrun|]. split; [exact Hc|exact Hload].
Defined.

Lemma init_keeps_existing_config_witness :
  exists s',
    init demo_world demo_state = Ret tt s' /\
    config s' = default_config /\
    fs s' = fs demo_state.
Proof.
  destruct (init_keeps_existing_config demo_world demo_state
              default_config)
    as (s' & Hrun & Hc & _ & _ & _ & _ & _ & _ & Hsame);
    try by_computation.
  exists s'. split; [exact Hrun|]. split; [exact Hc|].
  apply Hsame; by_computation.
Defined.

Lemma init_twice_witness :
  init demo_world (final_state (init demo_world blank_state) blank_state)
  = Ret tt (final_state (init demo_world blank_state) blank_state).
Proof.
  apply (init_twice demo_world blank_state).
  apply outcome_Ret. by_computation.
Defined.

Lemma download_file_stores_body_witness :
  exists s',
    download_file demo_world "http://r/B.zip" (archive_path demo_world "B" "2.0")
      demo_state = Ret true s' /\
    fs s' !! archive_path demo_world "B" "2.0" = Some (File (Raw B_body)).
Proof.
  destruct (download_file_stores_body demo_world "http://r/B.zip"
              (archive_path demo_world "B" "2.0") demo_state)
    as (s' & _ & _ & Hresp).
  - split; by_computation.
  - change (http_get demo_world (clock demo_state) "http://r/B.zip"
              (download_timeout (settings (config demo_state))))
      with (HttpStream 6 ["zip"; "http://r/B.zip"] true) in Hresp.
    destruct Hresp as [Hrun Hfs].
    exists s'. split; [exact Hrun|].
    rewrite Hfs. apply lookup_insert_eq.
Defined.

Lemma find_package_lists_offers_witness :
  find_package demo_world "B" demo_state = Ret [B_info] demo_state.
Proof.
  rewrite (find_package_lists_offers demo_world "B" demo_state).
  - by_computation.
  - intros r Hin. eexists. exact (demo_state_manifests r Hin).
Defined.


Lemma install_failed_download_witness :
  exists s',
    install_package flaky_world 1 "B" None None demo_state = Ret false s' /\
    load_packages flaky_world s' = Ret [] s'.
Proof.
  destruct (install_failed_download flaky_world 0 "B" None None demo_state []
              B_info "http://r/B.zip")
    as (s' & Hrun & _ & _ & Hload & _).
  - by_computation.
  - by_computation.
  - reflexivity.
  - exists []. by_computation.
  - reflexivity.
  - reflexivity.
  - split; by_computation.
  - left. by_computation.
  - exists s'. split; [exact Hrun|exact Hload].
Defined.

Lemma install_missing_url_witness :
  install_package demo_world 1 "ghost" None None nourl_state
  = Raise (KeyError "url") nourl_state.
Proof.
  apply (install_missing_url demo_world 0 "ghost" None None nourl_state []
           (mkPackageInfo (Some "1.0") None None None None (Some "main"))).
  - by_computation.
  - reflexivity.
  - exists []. by_computation.
  - reflexivity.
  - reflexivity.
Defined.

Lemma install_stays_in_its_area_witness :
  config installed_state = config demo_state /\
  fs installed_state !! config_file demo_world
  = fs demo_state !! config_file demo_world.
Proof.
  destruct (install_stays_in_its_area demo_world 1 "B" None None demo_state
              installed_state) as (Hc & _ & Hf & _).
  - by_computation.
  - by_computation.
  - apply (ends_in_final_state _ (inl true)). by_computation.
  - split; [exact Hc|exact Hf].
Defined.

Lemma install_unknown_package_witness :
  install_package demo_world 1 "nothere" None None demo_state
  = Ret false (mkState (config demo_state) (fs demo_state)
                 (out demo_state ++ [MsgNotFoundInAnyRepository "nothere"])
                 (clock demo_state)).
Proof.
  apply (install_unknown_package demo_world 0 "nothere" None demo_state []).
  - by_computation.
  - reflexivity.
  - intros r Hin. eexists. split; [exact (demo_state_manifests r Hin)|].
    intros m. destruct (String.eqb r "main"); [|discriminate].
    intros [= <-]. reflexivity.
Defined.

Lemma install_then_uninstall_witness :
  exists s1 s2,
    install_package demo_world 1 "B" None None demo_state = Ret true s1 /\
    uninstall demo_world "B" s1 = Ret true s2 /\
    load_packages demo_world s2 = Ret [] s2 /\
    fs s2 !! (install_dir demo_world </> "B") = None.
Proof.
  destruct (install_then_uninstall demo_world 0 "B" None None demo_state []
              B_info "http://r/B.zip" 6 ["zip"; "http://r/B.zip"] B_members)
    as (s1 & s2 & Hrun & Hun & Hload & Hgone & _).
  - by_computation.
  - by_computation.
  - reflexivity.
  - exists []. by_computation.
  - reflexivity.
  - reflexivity.
  - by_computation.
  - by_computation.
  - split; [split; by_computation|]. split; [by_computation|].
    split; [by_computation|]. split; [split; by_computation|].
    split; [by_computation|]. intros E. vm_compute in E. discriminate E.
  - exists s1, s2. split; [exact Hrun|]. split; [exact Hun|].
    split; [exact Hload|]. apply Hgone. now exists [].
Defined.

Lemma resolve_dependencies_lists_offers_witness :
  outcome (resolve_dependencies demo_world
             (mkPackageInfo (Some "1.0") (Some "http://r/A.zip") None
                (Some ["B"; "missinglib"]) None (Some "main"))
             demo_state)
  = Some (inl [("B", B_info)]).
Proof.
  rewrite (resolve_dependencies_lists_offers demo_world _ demo_state).
  - by_computation.
  - intros r Hin. eexists. exact (demo_state_manifests r Hin).
Defined.

Lemma install_records_repository_witness :
  exists s' entry,
    install_package demo_world 1 "B" None (Some "main") demo_state = Ret true s' /\
    load_packages demo_world s' = Ret [("B", entry)] s' /\
    ip_repository entry = "unknown".
Proof.
  destruct (install_records_repository demo_world 0 "B" None (Some "main")
              demo_state [] (descriptor "2.0" "http://r/B.zip" None)
              "http://r/B.zip" 6 ["zip"; "http://r/B.zip"] B_members)
    as (s' & entry & Hrun & Hload & _ & Hpinned).
  - by_computation.
  - by_computation.
  - reflexivity.
  - exists demo_manifest. split; [by_computation|]. split; reflexivity.
  - reflexivity.
  - reflexivity.
  - by_computation.
  - by_computation.
  - split; [split; by_computation|]. split; [by_computation|].
    split; [by_computation|]. split; [split; by_computation|].
    split; [by_computation|]. intros E. vm_compute in E. discriminate E.
  - exists s', entry. split; [exact Hrun|]. split; [exact Hload|].
    now apply (Hpinned "main").
Defined.
